(** * journal-stitch: the composer, the entry store and the OCR route

    A shallow embedding of [src/app/page.tsx] (the StickerJournal page) and of
    the OCR route handler, with the properties of the entry store, the canvas
    composer, the scan templating, the browse filter and the OCR endpoint.

    Conventions of the embedding.
    - A JavaScript string is the list of its UTF-16 code units ([jsstring]);
      string literals of the source are written [js "..."].
    - A JavaScript number that the page uses as a coordinate or a size is
      the rational it denotes ([Q]), and a subtraction or a product of the
      canvas code is the exact result rounded to the nearest Number
      ([JSNumber.numberValue], binary64, ties to even); the infinities and
      [NaN] are outside the model.  Identifiers, time stamps and the small
      integer arithmetic of the sticky-note cascade are exact ([Z], or
      integers in [Q]).
    - React state is passed explicitly: a handler is a function from
      [AppState] to [AppState]; a functional update [setX (prev => f prev)]
      is [f] applied to the field.
    - What the browser or the language runtime provides (dates, lower-casing,
      JSON text, local storage, the provider behind [fetch]) is a parameter. *)

From Stdlib Require Import String Ascii DecimalString DecimalPos DecimalZ.
From Stdlib Require Import NArith ZArith QArith Qminmax Qround.
From Stdlib Require Import Bool Lia Lqa List.
Import ListNotations.

Set Implicit Arguments.
#[local] Set Warnings "-register-all".

(** ** The string and array primitives of the language runtime *)

Module JS.

Definition jsstring := list N.

(** A source literal: ASCII text as code units. *)
Definition js (s : string) : jsstring :=
  map N_of_ascii (list_ascii_of_string s).

Definition nl : N := 10%N.

Definition eq_str_dec : forall a b : jsstring, {a = b} + {a <> b} :=
  list_eq_dec N.eq_dec.

Definition eqb_str (a b : jsstring) : bool :=
  if eq_str_dec a b then true else false.

(** ECMAScript [WhiteSpace] and [LineTerminator] code points: the characters
    that [String.prototype.trim] strips and that the class [\s] matches. *)
Definition isWhiteSpace (c : N) : bool :=
  ((9 <=? c) && (c <=? 13) || (c =? 32) || (c =? 160) || (c =? 5760)
   || (8192 <=? c) && (c <=? 8202) || (c =? 8232) || (c =? 8233)
   || (c =? 8239) || (c =? 8287) || (c =? 12288) || (c =? 65279))%N.

Fixpoint trimStart (s : jsstring) : jsstring :=
  match s with
  | c :: r => if isWhiteSpace c then trimStart r else s
  | [] => []
  end.

Definition trimEnd (s : jsstring) : jsstring := rev (trimStart (rev s)).

Definition trim (s : jsstring) : jsstring := trimEnd (trimStart s).

(** [a || b] on strings: the empty string is the only falsy one. *)
Definition orElse (a b : jsstring) : jsstring :=
  match a with
  | [] => b
  | _ :: _ => a
  end.

Definition truthy (a : jsstring) : bool :=
  match a with
  | [] => false
  | _ :: _ => true
  end.

Fixpoint startsWith (p s : jsstring) : bool :=
  match p, s with
  | [], _ => true
  | a :: p', b :: s' => (a =? b)%N && startsWith p' s'
  | _ :: _, [] => false
  end.

Definition endsWith (s p : jsstring) : bool := startsWith (rev p) (rev s).

(** [s.includes(sub)]. *)
Fixpoint includes (s sub : jsstring) : bool :=
  startsWith sub s ||
  match s with
  | [] => false
  | _ :: r => includes r sub
  end.

(** [s.replace(pat, rep)] with a string pattern: the first occurrence only. *)
Fixpoint replaceFirst (pat rep s : jsstring) : jsstring :=
  if startsWith pat s then rep ++ skipn (length pat) s
  else match s with
       | [] => []
       | c :: r => c :: replaceFirst pat rep r
       end.

(** [s.split(sep)] for a one-character separator; [split sep ""] is [[""]]. *)
Fixpoint split (sep : N) (s : jsstring) : list jsstring :=
  match s with
  | [] => [[]]
  | c :: r =>
      if (c =? sep)%N then [] :: split sep r
      else match split sep r with
           | l :: ls => (c :: l) :: ls
           | [] => [[c]]
           end
  end.

(** [parts.join(sep)]. *)
Fixpoint join (sep : jsstring) (parts : list jsstring) : jsstring :=
  match parts with
  | [] => []
  | [a] => a
  | a :: r => a ++ sep ++ join sep r
  end.

(** [x.slice(0, n)] on strings and arrays. *)
Definition slice0 {A : Type} (n : nat) (l : list A) : list A := firstn n l.

(** [s.padStart(target, fill)] with a one-character filler. *)
Definition padStart (target : nat) (fill : N) (s : jsstring) : jsstring :=
  repeat fill (target - length s) ++ s.

(** [String(n)] for an integer [n]. *)
Definition String_of_Z (n : Z) : jsstring :=
  js (NilZero.string_of_int (Z.to_int n)).

(** *** The two regular expressions of [buildScannedTemplate]

    A matcher tries its pattern at the head of the string and returns what
    follows the match.  [rx_plus cls k] is the greedy [cls+] followed by the
    continuation [k]: it first tries to take one more character and falls
    back to [k] when the longer attempt fails, which is the backtracking
    order of the language's regular expressions. *)

Definition matcher := jsstring -> option jsstring.

Definition rx_char (c : N) : matcher :=
  fun s => match s with
           | d :: r => if (d =? c)%N then Some r else None
           | [] => None
           end.

Fixpoint rx_plus (cls : N -> bool) (k : matcher) (s : jsstring) : option jsstring :=
  match s with
  | c :: r =>
      if cls c then
        match rx_plus cls k r with
        | Some t => Some t
        | None => k r
        end
      else None
  | [] => None
  end.

(** [/\s+\n/] *)
Definition rx_ws_nl : matcher := rx_plus isWhiteSpace (rx_char nl).

(** [/\n{3,}/]: two line feeds, then one or more. *)
Definition rx_nl3 : matcher :=
  fun s => match rx_char nl s with
           | Some s1 =>
               match rx_char nl s1 with
               | Some s2 => rx_plus (N.eqb nl) (fun t => Some t) s2
               | None => None
               end
           | None => None
           end.

(** [s.replace(/re/g, rep)]: scanning from the left, a match at the current
    position is replaced and the scan resumes after it; otherwise the
    character is kept.  Neither pattern matches the empty string, so the
    fuel [length s] is never exhausted before the string is. *)
Fixpoint replaceAll_fuel (fuel : nat) (m : matcher) (rep s : jsstring) : jsstring :=
  match fuel with
  | O => s
  | S f =>
      match s with
      | [] => []
      | c :: r =>
          match m s with
          | Some rest => rep ++ replaceAll_fuel f m rep rest
          | None => c :: replaceAll_fuel f m rep r
          end
      end
  end.

Definition replaceAll (m : matcher) (rep s : jsstring) : jsstring :=
  replaceAll_fuel (length s) m rep s.

End JS.

(** ** The arithmetic of Numbers *)

Module JSNumber.

(** [2 ^ e] *)
Definition pow2 (e : Z) : Q :=
  match e with
  | Z0 => 1
  | Zpos p => inject_Z (2 ^ Zpos p)
  | Zneg p => 1 # (2 ^ p)
  end.

(** The integer part of the binary logarithm of [n / d]. *)
Definition floorLog2 (n d : positive) : Z :=
  let k := (Z.log2 (Zpos n) - Z.log2 (Zpos d))%Z in
  if Qle_bool (pow2 k) (Zpos n # d) then k else (k - 1)%Z.

(** The nearest integer, a half going to the even neighbour. *)
Definition roundHalfEven (q : Q) : Z :=
  let f := Qfloor q in
  match Qcompare (q - inject_Z f) (1 # 2) with
  | Lt => f
  | Gt => (f + 1)%Z
  | Eq => if Z.even f then f else (f + 1)%Z
  end.

(** The Number nearest to [n / d]: a significand of 53 bits, and below
    [2 ^ -1022] the multiples of [2 ^ -1074]. *)
Definition roundPositive (n d : positive) : Q :=
  let e := Z.max (floorLog2 n d - 52) (-1074) in
  Qred (inject_Z (roundHalfEven ((Zpos n # d) * pow2 (- e))) * pow2 e).

(** "The Number value for [q]" of the language specification, for results
    that stay finite. *)
Definition numberValue (q : Q) : Q :=
  match Qnum q with
  | Z0 => 0
  | Zpos n => roundPositive n (Qden q)
  | Zneg n => - roundPositive n (Qden q)
  end.

(** [a - b] and [a * b] *)
Definition sub (a b : Q) : Q := numberValue (a - b).

Definition mul (a b : Q) : Q := numberValue (a * b).

End JSNumber.

Import JS.

(** ** JSON values and the services of the host *)

Inductive json : Type :=
| JNull
| JBool (b : bool)
| JNum (q : Q)
| JStr (s : jsstring)
| JArr (items : list json)
| JObj (fields : list (jsstring * json)).

(** An object is the list of its own properties in insertion order. *)
Fixpoint getProp {V : Type} (k : jsstring) (fields : list (jsstring * V)) : option V :=
  match fields with
  | [] => None
  | (k', v) :: r => if eq_str_dec k k' then Some v else getProp k r
  end.

(** Writing a property keeps the place of an existing key and appends a new
    one, as [{...o, k: v}] and [setItem(k, v)] do. *)
Fixpoint setProp {V : Type} (k : jsstring) (v : V) (fields : list (jsstring * V))
  : list (jsstring * V) :=
  match fields with
  | [] => [(k, v)]
  | (k', v') :: r =>
      if eq_str_dec k k' then (k', v) :: r else (k', v') :: setProp k v r
  end.

(** What the page and the route take from their host: the clock and the
    calendar of [Date], [String.prototype.toLowerCase], and the JSON text
    codec.  A [Date] of the model is a valid date; [Date_parse s] is
    [new Date(s)], with [None] for the invalid date (the one whose
    [getTime()] is [NaN]).  [JSON_parse] is [None] where [JSON.parse]
    throws. *)
Class Runtime : Type := {
  Date : Type;
  getTime : Date -> Z;
  getFullYear : Date -> Z;
  getMonth : Date -> Z;
  getDate : Date -> Z;
  Date_parse : jsstring -> option Date;
  toLocaleDateString_short : Date -> jsstring;
  toLowerCase : jsstring -> jsstring;
  JSON_stringify : json -> jsstring;
  JSON_parse : jsstring -> option json
}.

(** ** The page: [src/app/page.tsx] *)

Module Badge.
Record t : Type := mk { label : jsstring; icon : jsstring; tone : jsstring }.
End Badge.

Module Sticker.
Record t : Type :=
  mk { label : jsstring; icon : jsstring; tone : jsstring; tilt : jsstring }.
End Sticker.

Module EntryImage.
Record t : Type := mk { src : jsstring }.
End EntryImage.

Module EntryNote.
Record t : Type := mk { text : jsstring; x : Q; y : Q }.
End EntryNote.

Module MemoryEntry.
Record t : Type := mk {
  id : Z;
  title : jsstring;
  content : jsstring;
  dateLabel : jsstring;
  badges : list Badge.t;
  images : option (list EntryImage.t);
  notes : option (list EntryNote.t);
  sticker : option Sticker.t
}.
End MemoryEntry.

Module PlacedImage.
Record t : Type := mk { id : Z; src : jsstring; x : Q; y : Q; width : Q }.
End PlacedImage.

Module StickyNote.
Record t : Type := mk { id : Z; text : jsstring; x : Q; y : Q; width : Q }.
End StickyNote.

Module MoodSticker.
Record t : Type :=
  mk { title : jsstring; icon : jsstring; token : jsstring; tone : jsstring }.
End MoodSticker.

Module DOMRect.
Record t : Type := mk { left : Q; top : Q; width : Q; height : Q }.
End DOMRect.

Module PointerEvent.
Record t : Type := mk { clientX : Q; clientY : Q }.
End PointerEvent.

Module Page.

(** The state of [Home] that the handlers below read or write. *)
Record AppState : Type := mkState {
  title : jsstring;
  content : jsstring;
  query : jsstring;
  entries : list MemoryEntry.t;
  mood : jsstring;
  placedImages : list PlacedImage.t;
  stickyNotes : list StickyNote.t;
  draggingImageId : option Z;
  draggingNoteId : option Z;
  openEntry : option MemoryEntry.t;
  isEditingEntry : bool;
  editingTitle : jsstring;
  editingContent : jsstring;
  dragOffsetRef : Q * Q;
  noteDragOffsetRef : Q * Q
}.

Definition setEntries (f : list MemoryEntry.t -> list MemoryEntry.t) (st : AppState) :=
  mkState (title st) (content st) (query st) (f (entries st)) (mood st)
    (placedImages st) (stickyNotes st) (draggingImageId st) (draggingNoteId st)
    (openEntry st) (isEditingEntry st) (editingTitle st) (editingContent st)
    (dragOffsetRef st) (noteDragOffsetRef st).

Definition setQuery (q : jsstring) (st : AppState) :=
  mkState (title st) (content st) q (entries st) (mood st)
    (placedImages st) (stickyNotes st) (draggingImageId st) (draggingNoteId st)
    (openEntry st) (isEditingEntry st) (editingTitle st) (editingContent st)
    (dragOffsetRef st) (noteDragOffsetRef st).

Definition setMood (m : jsstring) (st : AppState) :=
  mkState (title st) (content st) (query st) (entries st) m
    (placedImages st) (stickyNotes st) (draggingImageId st) (draggingNoteId st)
    (openEntry st) (isEditingEntry st) (editingTitle st) (editingContent st)
    (dragOffsetRef st) (noteDragOffsetRef st).

Definition setPlacedImages (f : list PlacedImage.t -> list PlacedImage.t) (st : AppState) :=
  mkState (title st) (content st) (query st) (entries st) (mood st)
    (f (placedImages st)) (stickyNotes st) (draggingImageId st) (draggingNoteId st)
    (openEntry st) (isEditingEntry st) (editingTitle st) (editingContent st)
    (dragOffsetRef st) (noteDragOffsetRef st).

Definition setStickyNotes (f : list StickyNote.t -> list StickyNote.t) (st : AppState) :=
  mkState (title st) (content st) (query st) (entries st) (mood st)
    (placedImages st) (f (stickyNotes st)) (draggingImageId st) (draggingNoteId st)
    (openEntry st) (isEditingEntry st) (editingTitle st) (editingContent st)
    (dragOffsetRef st) (noteDragOffsetRef st).

Definition setOpenEntry (f : option MemoryEntry.t -> option MemoryEntry.t) (st : AppState) :=
  mkState (title st) (content st) (query st) (entries st) (mood st)
    (placedImages st) (stickyNotes st) (draggingImageId st) (draggingNoteId st)
    (f (openEntry st)) (isEditingEntry st) (editingTitle st) (editingContent st)
    (dragOffsetRef st) (noteDragOffsetRef st).

Definition setIsEditingEntry (b : bool) (st : AppState) :=
  mkState (title st) (content st) (query st) (entries st) (mood st)
    (placedImages st) (stickyNotes st) (draggingImageId st) (draggingNoteId st)
    (openEntry st) b (editingTitle st) (editingContent st)
    (dragOffsetRef st) (noteDragOffsetRef st).

(** [resetComposer]: the four setters of the draft. *)
Definition resetComposer (st : AppState) :=
  mkState [] [] (query st) (entries st) (mood st)
    [] [] (draggingImageId st) (draggingNoteId st)
    (openEntry st) (isEditingEntry st) (editingTitle st) (editingContent st)
    (dragOffsetRef st) (noteDragOffsetRef st).

(** The state of a freshly mounted page over the stored entries. *)
Definition initialState (stored : list MemoryEntry.t) : AppState :=
  mkState [] [] [] stored (js "Feeling Good") [] [] None None None false [] []
    (0, 0) (0, 0).

(** The mood stickers of the palette; the tokens are emoji, written as
    their UTF-16 code units. *)
Definition moodStickers : list MoodSticker.t :=
  [ MoodSticker.mk (js "Happy") (js "sentiment_very_satisfied") [55357; 56832]%N
      (js "bg-yellow-50 hover:bg-yellow-100 text-yellow-500");
    MoodSticker.mk (js "Calm") (js "spa") [55358; 56792]%N
      (js "bg-blue-50 hover:bg-blue-100 text-blue-500");
    MoodSticker.mk (js "Stressed") (js "sentiment_stressed")
      [55357; 56878; 8205; 55357; 56488]%N
      (js "bg-red-50 hover:bg-red-100 text-red-500");
    MoodSticker.mk (js "Sleepy") (js "bedtime") [55357; 56884]%N
      (js "bg-purple-50 hover:bg-purple-100 text-purple-500") ].

(** *** Dates *)

Section WithRuntime.
Context {RT : Runtime}.

Definition formatDateLabel (date : Date) : jsstring :=
  toLocaleDateString_short date.

Definition parseDateLabel (dateLabel : jsstring) : option Date :=
  Date_parse dateLabel.

Definition toDateKey (date : Date) : jsstring :=
  let year := getFullYear date in
  let month := padStart 2 48%N (String_of_Z (getMonth date + 1)) in
  let day := padStart 2 48%N (String_of_Z (getDate date)) in
  String_of_Z year ++ js "-" ++ month ++ js "-" ++ day.

(** *** Scan templating *)

Definition getScannedTitle (text : jsstring) : jsstring :=
  let firstLine :=
    match find truthy (map trim (split nl text)) with
    | Some line => line
    | None => []
    end in
  if negb (truthy firstLine) then js "Scanned Memory"
  else if (64 <? length firstLine)%nat
       then trim (slice0 64 firstLine) ++ js "..."
       else firstLine.

Record Template : Type := mkTemplate { t_title : jsstring; t_content : jsstring }.

Definition cleanText (rawText : jsstring) : jsstring :=
  trim (replaceAll rx_nl3 [nl; nl] (replaceAll rx_ws_nl [nl] rawText)).

Definition templateLines (cleanedText : jsstring) : list jsstring :=
  filter truthy (map trim (split nl cleanedText)).

Definition buildScannedTemplate (rawText : jsstring) : Template :=
  let cleanedText := cleanText rawText in
  let lines := templateLines cleanedText in
  let summary := join (js " ") (slice0 2 lines) in
  let highlights := slice0 5 lines in
  let content :=
    join [nl]
      ([ js "SCANNED JOURNAL";
         [];
         js "Summary:";
         orElse summary (js "No clear summary detected from the image.");
         [];
         js "Highlights:" ]
       ++ (if (0 <? length highlights)%nat
           then map (fun line => js "- " ++ line) highlights
           else [js "- No highlights detected."])
       ++ [ [];
            js "Extracted Text:";
            orElse cleanedText (js "No readable text found in this image.") ]) in
  mkTemplate (getScannedTitle cleanedText) content.

(** *** The entry store *)

Definition scannedBadges : list Badge.t :=
  [ Badge.mk (js "Scanned") (js "document_scanner")
      (js "bg-violet-50 text-violet-700 border border-violet-200/80");
    Badge.mk (js "Journal") (js "auto_stories")
      (js "bg-slate-100 text-slate-700 border border-slate-200/90") ].

Definition createScannedEntry (entryDate : Date) (rawText imageSrc : jsstring)
  (st : AppState) : AppState :=
  let template := buildScannedTemplate rawText in
  let newEntry :=
    MemoryEntry.mk (getTime entryDate) (t_title template) (t_content template)
      (formatDateLabel entryDate) scannedBadges
      (if truthy imageSrc then Some [EntryImage.mk imageSrc] else None)
      None
      (Some (Sticker.mk (js "Auto") (js "auto_awesome")
               (js "bg-cyan-100 text-cyan-700") (js "-rotate-2"))) in
  setQuery [] (setEntries (fun prev => newEntry :: prev) st).

(** [{...entry, title: nextTitle, content: nextContent}] *)
Definition withTitleContent (nextTitle nextContent : jsstring) (entry : MemoryEntry.t)
  : MemoryEntry.t :=
  MemoryEntry.mk (MemoryEntry.id entry) nextTitle nextContent
    (MemoryEntry.dateLabel entry) (MemoryEntry.badges entry)
    (MemoryEntry.images entry) (MemoryEntry.notes entry) (MemoryEntry.sticker entry).

Definition saveOpenEntryEdits (st : AppState) : AppState :=
  match openEntry st with
  | None => st
  | Some opened =>
      let nextTitle := orElse (trim (editingTitle st)) (js "Untitled memory") in
      let nextContent := orElse (trim (editingContent st)) (js "No notes added.") in
      let patch (entry : MemoryEntry.t) :=
        if (MemoryEntry.id entry =? MemoryEntry.id opened)%Z
        then withTitleContent nextTitle nextContent entry
        else entry in
      setIsEditingEntry false
        (setOpenEntry (option_map patch)
           (setEntries (map patch) st))
  end.

(** *** The composer *)

Definition submittedNotes (notes : list StickyNote.t) : list EntryNote.t :=
  filter (fun note => (0 <? length (EntryNote.text note))%nat)
    (map (fun note =>
            EntryNote.mk (trim (StickyNote.text note)) (StickyNote.x note)
              (StickyNote.y note))
       notes).

Definition moodBadge (mood : jsstring) : Badge.t :=
  Badge.mk (orElse (replaceFirst (js "Feeling ") [] mood) (js "Mood")) (js "mood")
    (js "bg-blue-50 text-blue-700 border border-blue-200/80").

Definition journalBadge : Badge.t :=
  Badge.mk (js "Journal") (js "auto_stories")
    (js "bg-slate-100 text-slate-700 border border-slate-200/90").

Definition newSticker : Sticker.t :=
  Sticker.mk (js "New") (js "fiber_new") (js "bg-emerald-100 text-emerald-700")
    (js "rotate-3").

(** The entry that [handleSubmit] builds; [now] is [Date.now()] and
    [entryDate] is [new Date()]. *)
Definition composedEntry (now : Z) (entryDate : Date) (st : AppState) : MemoryEntry.t :=
  MemoryEntry.mk now
    (orElse (trim (title st)) (js "Untitled memory"))
    (orElse (trim (content st)) (js "No notes added."))
    (formatDateLabel entryDate)
    [moodBadge (mood st); journalBadge]
    (Some (map (fun image => EntryImage.mk (PlacedImage.src image)) (placedImages st)))
    (Some (submittedNotes (stickyNotes st)))
    (Some newSticker).

Definition handleSubmit (now : Z) (entryDate : Date) (st : AppState) : AppState :=
  let trimmedTitle := trim (title st) in
  let trimmedContent := trim (content st) in
  if negb (truthy trimmedTitle) && negb (truthy trimmedContent)
     && (length (placedImages st) =? 0)%nat && (length (stickyNotes st) =? 0)%nat
  then st
  else
    let newEntry := composedEntry now entryDate st in
    resetComposer (setQuery [] (setEntries (fun prev => newEntry :: prev) st)).

(** *** The browse view *)

Definition filteredEntries (entries : list MemoryEntry.t) (query : jsstring)
  (selectedDateKey : option jsstring) : list MemoryEntry.t :=
  let normalized := toLowerCase (trim query) in
  filter
    (fun entry =>
       let entryDate := parseDateLabel (MemoryEntry.dateLabel entry) in
       let matchesDate :=
         match selectedDateKey with
         | Some (c :: k) =>
             match entryDate with
             | Some d => eqb_str (toDateKey d) (c :: k)
             | None => false
             end
         | Some [] | None => true
         end in
       if negb matchesDate then false
       else if negb (truthy normalized) then true
       else includes (toLowerCase (MemoryEntry.title entry)) normalized
            || includes (toLowerCase (MemoryEntry.content entry)) normalized
            || existsb
                 (fun badge => includes (toLowerCase (Badge.label badge)) normalized)
                 (MemoryEntry.badges entry))
    entries.

(** *** Dragging on the canvas *)

(** [Math.round]: the nearest integer, halves upwards. *)
Definition Math_round (q : Q) : Q := inject_Z (Qfloor (q + (1 # 2))).

Definition Math_min (a b : Q) : Q := Qmin a b.
Definition Math_max (a b : Q) : Q := Qmax a b.

Definition noteHeight : Q := 136.

(** [Math.round(active.width * 0.75)] *)
Definition imageHeight (width : Q) : Q := Math_round (JSNumber.mul width (3 # 4)).

(** The clamp of both handlers: the pointer position relative to the canvas,
    less the grab offset, kept within [0, max(container - element, 0)]. *)
Definition nextCoordinate (client origin offset container element : Q) : Q :=
  Math_min (Math_max (JSNumber.sub (JSNumber.sub client origin) offset) 0)
    (Math_max (JSNumber.sub container element) 0).

(** [onPointerMove] of the image effect.  The listener exists only while
    [draggingImageId] is set; [canvas] is the rectangle of [canvasRef.current],
    [None] when the ref is empty. *)
Definition onPointerMoveImage (canvas : option DOMRect.t) (event : PointerEvent.t)
  (st : AppState) : AppState :=
  match draggingImageId st, canvas with
  | Some dragged, Some rect =>
      setPlacedImages
        (fun prev =>
           match find (fun image => (PlacedImage.id image =? dragged)%Z) prev with
           | None => prev
           | Some active =>
               let nextX :=
                 nextCoordinate (PointerEvent.clientX event) (DOMRect.left rect)
                   (fst (dragOffsetRef st)) (DOMRect.width rect)
                   (PlacedImage.width active) in
               let nextY :=
                 nextCoordinate (PointerEvent.clientY event) (DOMRect.top rect)
                   (snd (dragOffsetRef st)) (DOMRect.height rect)
                   (imageHeight (PlacedImage.width active)) in
               map (fun image =>
                      if (PlacedImage.id image =? dragged)%Z
                      then PlacedImage.mk (PlacedImage.id image) (PlacedImage.src image)
                             nextX nextY (PlacedImage.width image)
                      else image)
                 prev
           end)
        st
  | _, _ => st
  end.

(** [onPointerMove] of the note effect. *)
Definition onPointerMoveNote (canvas : option DOMRect.t) (event : PointerEvent.t)
  (st : AppState) : AppState :=
  match draggingNoteId st, canvas with
  | Some dragged, Some rect =>
      setStickyNotes
        (fun prev =>
           match find (fun note => (StickyNote.id note =? dragged)%Z) prev with
           | None => prev
           | Some active =>
               let nextX :=
                 nextCoordinate (PointerEvent.clientX event) (DOMRect.left rect)
                   (fst (noteDragOffsetRef st)) (DOMRect.width rect)
                   (StickyNote.width active) in
               let nextY :=
                 nextCoordinate (PointerEvent.clientY event) (DOMRect.top rect)
                   (snd (noteDragOffsetRef st)) (DOMRect.height rect) noteHeight in
               map (fun note =>
                      if (StickyNote.id note =? dragged)%Z
                      then StickyNote.mk (StickyNote.id note) (StickyNote.text note)
                             nextX nextY (StickyNote.width note)
                      else note)
                 prev
           end)
        st
  | _, _ => st
  end.

(** *** The events of a session

    The composer's inputs and the two handlers that append to the store, as
    one type of actions, with the state after a sequence of them. *)

Definition setTitle (value : jsstring) (st : AppState) :=
  mkState value (content st) (query st) (entries st) (mood st)
    (placedImages st) (stickyNotes st) (draggingImageId st) (draggingNoteId st)
    (openEntry st) (isEditingEntry st) (editingTitle st) (editingContent st)
    (dragOffsetRef st) (noteDragOffsetRef st).

Definition setContent (f : jsstring -> jsstring) (st : AppState) :=
  mkState (title st) (f (content st)) (query st) (entries st) (mood st)
    (placedImages st) (stickyNotes st) (draggingImageId st) (draggingNoteId st)
    (openEntry st) (isEditingEntry st) (editingTitle st) (editingContent st)
    (dragOffsetRef st) (noteDragOffsetRef st).

Definition appendToken (token : jsstring) (st : AppState) : AppState :=
  setContent
    (fun prev =>
       let spacer :=
         if endsWith prev [nl] || (length prev =? 0)%nat then [] else js " " in
       prev ++ spacer ++ token)
    st.

(** Clicking a mood sticker: [setMood(`Feeling ${sticker.title}`)], then
    [appendToken(sticker.token)]. *)
Definition chooseMoodSticker (sticker : MoodSticker.t) (st : AppState) : AppState :=
  appendToken (MoodSticker.token sticker)
    (setMood (js "Feeling " ++ MoodSticker.title sticker) st).

Definition addStickyNote (now : Z) (st : AppState) : AppState :=
  let offset := inject_Z (Z.of_nat (length (stickyNotes st))) * 14 in
  setStickyNotes
    (fun prev =>
       prev ++ [StickyNote.mk now (js "New sticky note...") (26 + offset) (84 + offset) 180])
    st.

Definition updateStickyNoteText (id : Z) (text : jsstring) (st : AppState) : AppState :=
  setStickyNotes
    (map (fun note =>
            if (StickyNote.id note =? id)%Z
            then StickyNote.mk (StickyNote.id note) text (StickyNote.x note)
                   (StickyNote.y note) (StickyNote.width note)
            else note))
    st.

Inductive Action : Type :=
| TypeTitle (value : jsstring)
| TypeContent (value : jsstring)
| AppendToken (token : jsstring)
| AddStickyNote (now : Z)
| EditStickyNote (id : Z) (text : jsstring)
| ChooseMood (sticker : MoodSticker.t)
| Submit (now : Z) (entryDate : Date)
| Scan (entryDate : Date) (rawText imageSrc : jsstring).

Definition dispatch (a : Action) (st : AppState) : AppState :=
  match a with
  | TypeTitle value => setTitle value st
  | TypeContent value => setContent (fun _ => value) st
  | AppendToken token => appendToken token st
  | AddStickyNote now => addStickyNote now st
  | EditStickyNote id text => updateStickyNoteText id text st
  | ChooseMood sticker => chooseMoodSticker sticker st
  | Submit now entryDate => handleSubmit now entryDate st
  | Scan entryDate rawText imageSrc => createScannedEntry entryDate rawText imageSrc st
  end.

Fixpoint run (actions : list Action) (st : AppState) : AppState :=
  match actions with
  | [] => st
  | a :: rest => run rest (dispatch a st)
  end.

(** The entries an action put in front of the store. *)
Definition appendedBy (a : Action) (st : AppState) : list MemoryEntry.t :=
  firstn (length (entries (dispatch a st)) - length (entries st))
    (entries (dispatch a st)).

(** The entries appended along a run, oldest first. *)
Fixpoint appendLog (actions : list Action) (st : AppState) : list MemoryEntry.t :=
  match actions with
  | [] => []
  | a :: rest => appendedBy a st ++ appendLog rest (dispatch a st)
  end.

End WithRuntime.

End Page.

(** ** Local storage and the stored entry list *)

(** A call either returns or throws. *)
Inductive completion (A : Type) : Type :=
| Returned (a : A)
| Thrown.
Arguments Thrown {A}.

Module Storage.

(** [window.localStorage]: access may be denied (every call throws), and a
    write throws when the value does not fit the remaining room. *)
Record t : Type := mk {
  denied : bool;
  room : nat;
  items : list (jsstring * jsstring)
}.

Definition getItem (s : t) (key : jsstring) : completion (option jsstring) :=
  if denied s then Thrown else Returned (getProp key (items s)).

Definition setItem (s : t) (key value : jsstring) : completion t :=
  if denied s then Thrown
  else if (room s <? length value)%nat then Thrown
  else Returned (mk (denied s) (room s) (setProp key value (items s))).

End Storage.

Module Persist.

Section WithRuntime.
Context {RT : Runtime}.

(** [entry && typeof entry.id === "number"]: among JSON values only an
    object has an [id] property. *)
Definition hasNumericId (entry : json) : bool :=
  match entry with
  | JObj fields =>
      match getProp (js "id") fields with
      | Some (JNum _) => true
      | _ => false
      end
  | _ => false
  end.

(** [Array.isArray(entry.badges) ? entry.badges : []] *)
Definition badgesOrEmpty (fields : list (jsstring * json)) : json :=
  match getProp (js "badges") fields with
  | Some (JArr badges) => JArr badges
  | _ => JArr []
  end.

(** [{...entry, badges: ...}]; the filter before it lets only objects through. *)
Definition withBadges (entry : json) : json :=
  match entry with
  | JObj fields => JObj (setProp (js "badges") (badgesOrEmpty fields) fields)
  | other => other
  end.

Definition sanitizeEntries (parsed : list json) : list json :=
  map withBadges (filter hasNumericId parsed).

(** [readStoredEntries]; [window] is [None] where [typeof window] is
    ["undefined"]. *)
Definition readStoredEntries (window : option Storage.t) (storageKey : jsstring)
  : list json :=
  match window with
  | None => []
  | Some localStorage =>
      match Storage.getItem localStorage storageKey with
      | Thrown => []
      | Returned None => []
      | Returned (Some []) => []
      | Returned (Some raw) =>
          match JSON_parse raw with
          | None => []
          | Some (JArr parsed) => sanitizeEntries parsed
          | Some _ => []
          end
      end
  end.

(** The persist effect: [setItem(key, JSON.stringify(entries))], a failure
    being ignored. *)
Definition persistEntries (window : option Storage.t) (storageKey : jsstring)
  (entries : list json) : option Storage.t :=
  match window with
  | None => None
  | Some localStorage =>
      match Storage.setItem localStorage storageKey (JSON_stringify (JArr entries)) with
      | Returned stored => Some stored
      | Thrown => Some localStorage
      end
  end.

End WithRuntime.

(** The JSON image of a typed entry; an [undefined] property has no image. *)
Definition optional (k : string) (v : option json) : list (jsstring * json) :=
  match v with
  | Some x => [(js k, x)]
  | None => []
  end.

Definition jsonOfBadge (b : Badge.t) : json :=
  JObj [ (js "label", JStr (Badge.label b)); (js "icon", JStr (Badge.icon b));
         (js "tone", JStr (Badge.tone b)) ].

Definition jsonOfImage (i : EntryImage.t) : json :=
  JObj [ (js "src", JStr (EntryImage.src i)) ].

Definition jsonOfNote (n : EntryNote.t) : json :=
  JObj [ (js "text", JStr (EntryNote.text n)); (js "x", JNum (EntryNote.x n));
         (js "y", JNum (EntryNote.y n)) ].

Definition jsonOfSticker (s : Sticker.t) : json :=
  JObj [ (js "label", JStr (Sticker.label s)); (js "icon", JStr (Sticker.icon s));
         (js "tone", JStr (Sticker.tone s)); (js "tilt", JStr (Sticker.tilt s)) ].

Definition jsonOfEntry (e : MemoryEntry.t) : json :=
  JObj ([ (js "id", JNum (inject_Z (MemoryEntry.id e)));
          (js "title", JStr (MemoryEntry.title e));
          (js "content", JStr (MemoryEntry.content e));
          (js "dateLabel", JStr (MemoryEntry.dateLabel e)) ]
        ++ optional "images"
             (option_map (fun l => JArr (map jsonOfImage l)) (MemoryEntry.images e))
        ++ optional "notes"
             (option_map (fun l => JArr (map jsonOfNote l)) (MemoryEntry.notes e))
        ++ [ (js "badges", JArr (map jsonOfBadge (MemoryEntry.badges e))) ]
        ++ optional "sticker" (option_map jsonOfSticker (MemoryEntry.sticker e))).

End Persist.

(** ** The OCR route: [POST /api/ocr] *)

Module GeminiPart.
Record t : Type := mk { text : option jsstring }.
End GeminiPart.

Module GeminiContent.
Record t : Type := mk { parts : option (list GeminiPart.t) }.
End GeminiContent.

Module GeminiCandidate.
Record t : Type := mk { content : option GeminiContent.t }.
End GeminiCandidate.

Module GeminiResponse.
Record t : Type := mk { candidates : option (list GeminiCandidate.t) }.
End GeminiResponse.

Module OcrBody.
Record t : Type := mk { mimeType : option jsstring; base64 : option jsstring }.
End OcrBody.

Module HttpResponse.
Record t : Type := mk { status : Z; body : json }.
End HttpResponse.

Module Ocr.

(** How a call of the provider goes, up to the reading of its body.
    - [Threw]: [fetch] rejects (the provider cannot be reached), or the
      reading of a failure body by [response.text()] rejects.
    - [NotOk raw]: [ok] is false and the body text is [raw].
    - [OkUnusable]: [ok] is true, but [response.json()] rejects (the body is
      not JSON), or the payload is [null] or of a shape on which
      [extractText] throws (parts that are not an array, a part that is
      [null]).
    - [Ok payload]: [ok] is true and the body is a [GeminiResponse].
    None of the awaits of the handler is inside a [try], so [Threw] and
    [OkUnusable] reject the handler. *)
Inductive FetchResponse : Type :=
| Threw
| NotOk (raw : jsstring)
| OkUnusable
| Ok (payload : GeminiResponse.t).

(** [request.json()]: it rejects on a body that is not JSON, and yields
    [null] ([None]) or an object otherwise. *)
Inductive RequestJson : Type :=
| NotJson
| Body (body : option OcrBody.t).

(** The handler resolves to a response or rejects. *)
Inductive Outcome : Type :=
| Responded (response : HttpResponse.t)
| Rejected.

Definition extractText (payload : GeminiResponse.t) : jsstring :=
  let first :=
    match GeminiResponse.candidates payload with
    | Some (c :: _) => Some c
    | _ => None
    end in
  let parts :=
    match first with
    | Some c =>
        match GeminiCandidate.content c with
        | Some ct =>
            match GeminiContent.parts ct with
            | Some ps => ps
            | None => []
            end
        | None => []
        end
    | None => []
    end in
  trim (join [nl]
          (map (fun part =>
                  match GeminiPart.text part with
                  | Some t => t
                  | None => []
                  end)
             parts)).

Definition models : list jsstring :=
  [js "gemini-2.5-flash"; js "gemini-2.0-flash"; js "gemini-flash-latest"].

Section WithHost.
Context {RT : Runtime}.

(** The provider behind [callGemini]: API key, model, MIME type, data. *)
Variable callGemini : jsstring -> jsstring -> jsstring -> jsstring -> FetchResponse.

(** The [try] block of the loop: [parsed.error?.message ?? raw], and [raw]
    when [JSON.parse] throws or [parsed] is [null]. *)
Definition errorMessage (raw : jsstring) : json :=
  match JSON_parse raw with
  | Some (JObj fields) =>
      match getProp (js "error") fields with
      | Some (JObj error) =>
          match getProp (js "message") error with
          | Some JNull | None => JStr raw
          | Some message => message
          end
      | _ => JStr raw
      end
  | _ => JStr raw
  end.

Definition failure (lastError : json) : HttpResponse.t :=
  HttpResponse.mk 502
    (JObj [ (js "error", JStr (js "Gemini OCR request failed."));
            (js "details", lastError) ]).

(** The [for] loop over the models, with the calls made so far. *)
Fixpoint attempt (apiKey mimeType base64 : jsstring) (remaining : list jsstring)
  (lastError : json) (called : list jsstring) : Outcome * list jsstring :=
  match remaining with
  | [] => (Responded (failure lastError), called)
  | model :: rest =>
      match callGemini apiKey model mimeType base64 with
      | Threw => (Rejected, called ++ [model])
      | NotOk raw =>
          attempt apiKey mimeType base64 rest (errorMessage raw) (called ++ [model])
      | OkUnusable => (Rejected, called ++ [model])
      | Ok payload =>
          (Responded
             (HttpResponse.mk 200 (JObj [ (js "text", JStr (extractText payload)) ])),
           called ++ [model])
      end
  end.

(** [POST]: the response (or the rejection) and the models the provider was
    called with, in order. *)
Definition POST (GEMINI_API_KEY : option jsstring) (request : RequestJson)
  : Outcome * list jsstring :=
  match GEMINI_API_KEY with
  | None | Some [] =>
      (Responded
         (HttpResponse.mk 500
            (JObj [ (js "error", JStr (js "Missing GEMINI_API_KEY in environment.")) ])),
       [])
  | Some apiKey =>
      match request with
      | NotJson => (Rejected, [])
      | Body (Some (OcrBody.mk (Some (m :: mt)) (Some (b :: b64)))) =>
          attempt apiKey (m :: mt) (b :: b64) models JNull []
      | Body _ =>
          (Responded
             (HttpResponse.mk 400
                (JObj [ (js "error", JStr (js "mimeType and base64 are required.")) ])),
           [])
      end
  end.

End WithHost.

End Ocr.

(** ** A small host

    One concrete [Runtime], used to run the definitions on examples: a
    calendar of twelve months of thirty-one days counted from day zero,
    ASCII lower-casing, and a JSON codec for integers, strings, the three
    literals, arrays and objects, written without white space. *)

Module SmallHost.

Definition lowerUnit (c : N) : N :=
  if ((65 <=? c) && (c <=? 90))%N then (c + 32)%N else c.

Definition lower (s : jsstring) : jsstring := map lowerUnit s.

(** A date is a day number; its label is the decimal day number. *)
Fixpoint digitsValue (acc : Z) (s : jsstring) : option Z :=
  match s with
  | [] => Some acc
  | c :: r =>
      if ((48 <=? c) && (c <=? 57))%N
      then digitsValue (acc * 10 + (Z.of_N c - 48)) r
      else None
  end.

Definition parseDay (s : jsstring) : option Z :=
  match s with
  | [] => None
  | _ :: _ => digitsValue 0 s
  end.

Definition quote (s : jsstring) : jsstring :=
  [34%N]
  ++ flat_map (fun c => if ((c =? 34) || (c =? 92))%N then [92%N; c] else [c]) s
  ++ [34%N].

Fixpoint print (v : json) : jsstring :=
  match v with
  | JNull => js "null"
  | JBool true => js "true"
  | JBool false => js "false"
  | JNum q => match Qden q with
              | 1%positive => String_of_Z (Qnum q)
              | _ => js "null"
              end
  | JStr s => quote s
  | JArr items => js "[" ++ join (js ",") (map print items) ++ js "]"
  | JObj fields =>
      js "{"
      ++ join (js ",") (map (fun kv => quote (fst kv) ++ js ":" ++ print (snd kv)) fields)
      ++ js "}"
  end.

(** The text of a string literal after its opening quote. *)
Fixpoint readString (s : jsstring) : option (jsstring * jsstring) :=
  match s with
  | [] => None
  | 34%N :: r => Some ([], r)
  | 92%N :: c :: r =>
      match readString r with
      | Some (t, r') => Some (c :: t, r')
      | None => None
      end
  | c :: r =>
      match readString r with
      | Some (t, r') => Some (c :: t, r')
      | None => None
      end
  end.

Fixpoint readDigits (acc : Z) (s : jsstring) : Z * jsstring :=
  match s with
  | c :: r =>
      if ((48 <=? c) && (c <=? 57))%N
      then readDigits (acc * 10 + (Z.of_N c - 48)) r
      else (acc, s)
  | [] => (acc, [])
  end.

Inductive production : Type := Value | Elements | Members.

(** A recursive-descent reader; [Elements] and [Members] read up to the
    closing bracket.  The fuel bounds the number of calls. *)
Fixpoint read (fuel : nat) (p : production) (s : jsstring) : option (json * jsstring) :=
  match fuel with
  | O => None
  | S f =>
      match p, s with
      | Value, 110%N :: 117%N :: 108%N :: 108%N :: r => Some (JNull, r)
      | Value, 116%N :: 114%N :: 117%N :: 101%N :: r => Some (JBool true, r)
      | Value, 102%N :: 97%N :: 108%N :: 115%N :: 101%N :: r => Some (JBool false, r)
      | Value, 34%N :: r =>
          match readString r with
          | Some (t, r') => Some (JStr t, r')
          | None => None
          end
      | Value, 91%N :: 93%N :: r => Some (JArr [], r)
      | Value, 91%N :: r => read f Elements r
      | Value, 123%N :: 125%N :: r => Some (JObj [], r)
      | Value, 123%N :: r => read f Members r
      | Value, 45%N :: c :: r =>
          if ((48 <=? c) && (c <=? 57))%N
          then let (n, r') := readDigits 0 (c :: r) in Some (JNum (inject_Z (- n)), r')
          else None
      | Value, c :: r =>
          if ((48 <=? c) && (c <=? 57))%N
          then let (n, r') := readDigits 0 (c :: r) in Some (JNum (inject_Z n), r')
          else None
      | Value, [] => None
      | Elements, _ =>
          match read f Value s with
          | Some (v, 44%N :: r) =>
              match read f Elements r with
              | Some (JArr vs, r') => Some (JArr (v :: vs), r')
              | _ => None
              end
          | Some (v, 93%N :: r) => Some (JArr [v], r)
          | _ => None
          end
      | Members, 34%N :: r =>
          match readString r with
          | Some (k, 58%N :: r1) =>
              match read f Value r1 with
              | Some (v, 44%N :: r2) =>
                  match read f Members r2 with
                  | Some (JObj fs, r3) => Some (JObj ((k, v) :: fs), r3)
                  | _ => None
                  end
              | Some (v, 125%N :: r2) => Some (JObj [(k, v)], r2)
              | _ => None
              end
          | _ => None
          end
      | Members, _ => None
      end
  end.

Definition parse (s : jsstring) : option json :=
  match read (S (length s)) Value s with
  | Some (v, []) => Some v
  | _ => None
  end.

Definition host : Runtime := {|
  Date := Z;
  getTime := fun d => (d * 86400000)%Z;
  getFullYear := fun d => (d / 372)%Z;
  getMonth := fun d => ((d / 31) mod 12)%Z;
  getDate := fun d => (d mod 31 + 1)%Z;
  Date_parse := parseDay;
  toLocaleDateString_short := String_of_Z;
  toLowerCase := lower;
  JSON_stringify := print;
  JSON_parse := parse
|}.

End SmallHost.

(** ** The rest of the page

    The handlers of [Home] beside those above: the drag sessions and the
    elements of the canvas, the entry dialog, the calendar, the profile of
    the onboarding, and the scan of an image.  Each slice of the React state
    that [AppState] does not hold is a record of its own. *)

Module Canvas.
Import Page.

Definition setDraggingImageId (v : option Z) (st : AppState) :=
  mkState (title st) (content st) (query st) (entries st) (mood st)
    (placedImages st) (stickyNotes st) v (draggingNoteId st)
    (openEntry st) (isEditingEntry st) (editingTitle st) (editingContent st)
    (dragOffsetRef st) (noteDragOffsetRef st).

Definition setDraggingNoteId (v : option Z) (st : AppState) :=
  mkState (title st) (content st) (query st) (entries st) (mood st)
    (placedImages st) (stickyNotes st) (draggingImageId st) v
    (openEntry st) (isEditingEntry st) (editingTitle st) (editingContent st)
    (dragOffsetRef st) (noteDragOffsetRef st).

Definition setDragOffsetRef (v : Q * Q) (st : AppState) :=
  mkState (title st) (content st) (query st) (entries st) (mood st)
    (placedImages st) (stickyNotes st) (draggingImageId st) (draggingNoteId st)
    (openEntry st) (isEditingEntry st) (editingTitle st) (editingContent st)
    v (noteDragOffsetRef st).

Definition setNoteDragOffsetRef (v : Q * Q) (st : AppState) :=
  mkState (title st) (content st) (query st) (entries st) (mood st)
    (placedImages st) (stickyNotes st) (draggingImageId st) (draggingNoteId st)
    (openEntry st) (isEditingEntry st) (editingTitle st) (editingContent st)
    (dragOffsetRef st) v.

(** [startImageDrag]; [targetRect] is the rectangle of the element under the
    pointer, [event.currentTarget.getBoundingClientRect()]. *)
Definition startImageDrag (event : PointerEvent.t) (targetRect : DOMRect.t)
  (imageId : Z) (st : AppState) : AppState :=
  setDraggingImageId (Some imageId)
    (setDragOffsetRef
       (JSNumber.sub (PointerEvent.clientX event) (DOMRect.left targetRect),
        JSNumber.sub (PointerEvent.clientY event) (DOMRect.top targetRect))
       st).

Definition startNoteDrag (event : PointerEvent.t) (targetRect : DOMRect.t)
  (noteId : Z) (st : AppState) : AppState :=
  setDraggingNoteId (Some noteId)
    (setNoteDragOffsetRef
       (JSNumber.sub (PointerEvent.clientX event) (DOMRect.left targetRect),
        JSNumber.sub (PointerEvent.clientY event) (DOMRect.top targetRect))
       st).

(** [onPointerUp] of the two effects. *)
Definition onPointerUpImage (st : AppState) : AppState := setDraggingImageId None st.

Definition onPointerUpNote (st : AppState) : AppState := setDraggingNoteId None st.

(** The remove buttons of an image and of a note. *)
Definition removeImage (id : Z) (st : AppState) : AppState :=
  setPlacedImages (filter (fun item => negb (PlacedImage.id item =? id)%Z)) st.

Definition removeStickyNote (id : Z) (st : AppState) : AppState :=
  setStickyNotes (filter (fun item => negb (StickyNote.id item =? id)%Z)) st.

(** [canSaveEntry], which enables the save button. *)
Definition canSaveEntry (st : AppState) : bool :=
  truthy (trim (title st)) || truthy (trim (content st))
  || (0 <? length (placedImages st))%nat || (0 <? length (stickyNotes st))%nat.

(** What the window hears of the pointer.  A move or a release reaches the
    listeners of both effects; each acts only while its own drag is on. *)
Inductive PointerAction : Type :=
| ImageDown (event : PointerEvent.t) (targetRect : DOMRect.t) (imageId : Z)
| NoteDown (event : PointerEvent.t) (targetRect : DOMRect.t) (noteId : Z)
| Move (canvas : option DOMRect.t) (event : PointerEvent.t)
| Up.

Definition pointer (a : PointerAction) (st : AppState) : AppState :=
  match a with
  | ImageDown event targetRect imageId => startImageDrag event targetRect imageId st
  | NoteDown event targetRect noteId => startNoteDrag event targetRect noteId st
  | Move canvas event => onPointerMoveNote canvas event (onPointerMoveImage canvas event st)
  | Up => onPointerUpNote (onPointerUpImage st)
  end.

Fixpoint pointers (actions : list PointerAction) (st : AppState) : AppState :=
  match actions with
  | [] => st
  | a :: rest => pointers rest (pointer a st)
  end.

End Canvas.

Module Modal.
Import Page.

Definition setEditingTitle (v : jsstring) (st : AppState) :=
  mkState (title st) (content st) (query st) (entries st) (mood st)
    (placedImages st) (stickyNotes st) (draggingImageId st) (draggingNoteId st)
    (openEntry st) (isEditingEntry st) v (editingContent st)
    (dragOffsetRef st) (noteDragOffsetRef st).

Definition setEditingContent (v : jsstring) (st : AppState) :=
  mkState (title st) (content st) (query st) (entries st) (mood st)
    (placedImages st) (stickyNotes st) (draggingImageId st) (draggingNoteId st)
    (openEntry st) (isEditingEntry st) (editingTitle st) v
    (dragOffsetRef st) (noteDragOffsetRef st).

Definition openEntryModal (entry : MemoryEntry.t) (st : AppState) : AppState :=
  setEditingContent (MemoryEntry.content entry)
    (setEditingTitle (MemoryEntry.title entry)
       (setIsEditingEntry false (setOpenEntry (fun _ => Some entry) st))).

Definition closeOpenEntryModal (st : AppState) : AppState :=
  setIsEditingEntry false (setOpenEntry (fun _ => None) st).

(** The cancel button of the dialog: the edit fields go back to the open
    entry's texts. *)
Definition cancelEdit (st : AppState) : AppState :=
  match openEntry st with
  | Some opened =>
      setIsEditingEntry false
        (setEditingContent (MemoryEntry.content opened)
           (setEditingTitle (MemoryEntry.title opened) st))
  | None => st
  end.

Section WithRuntime.
Context {RT : Runtime}.

(** What happens in a session, the dialog included. *)
Inductive Event : Type :=
| Compose (a : Action)
| OpenEntry (entry : MemoryEntry.t)
| CloseEntry
| BeginEdit
| EditTitle (value : jsstring)
| EditContent (value : jsstring)
| CancelEdit
| SaveEdits.

Definition handle (e : Event) (st : AppState) : AppState :=
  match e with
  | Compose a => dispatch a st
  | OpenEntry entry => openEntryModal entry st
  | CloseEntry => closeOpenEntryModal st
  | BeginEdit => setIsEditingEntry true st
  | EditTitle value => setEditingTitle value st
  | EditContent value => setEditingContent value st
  | CancelEdit => cancelEdit st
  | SaveEdits => saveOpenEntryEdits st
  end.

Fixpoint session (events : list Event) (st : AppState) : AppState :=
  match events with
  | [] => st
  | e :: rest => session rest (handle e st)
  end.

End WithRuntime.

End Modal.

Module Calendar.
Import Page.

Section WithRuntime.
Context {RT : Runtime}.

(** [entryDates]: a [Map] from date key to the number of entries of that
    day, as the list of its pairs in insertion order. *)
Definition countEntry (map : list (jsstring * Z)) (entry : MemoryEntry.t)
  : list (jsstring * Z) :=
  match parseDateLabel (MemoryEntry.dateLabel entry) with
  | None => map
  | Some parsed =>
      let key := toDateKey parsed in
      setProp key
        (match getProp key map with
         | Some n => n
         | None => 0
         end + 1)%Z
        map
  end.

Definition entryDates (entries : list MemoryEntry.t) : list (jsstring * Z) :=
  fold_left countEntry entries [].

(** Clicking a day of the calendar: a second click on the selected day
    clears the selection. *)
Definition clickDay (dateKey : jsstring) (selectedDateKey : option jsstring)
  : option jsstring :=
  match selectedDateKey with
  | Some prev => if eqb_str prev dateKey then None else Some dateKey
  | None => Some dateKey
  end.

(** [new Date(year, month, day)] and [getDay], which [monthGrid] takes from
    the host beside the services of [Runtime]. *)
Class GridHost : Type := {
  makeDate : Z -> Z -> Z -> Date;
  getDay : Date -> Z
}.

Context {GH : GridHost}.

Record Cell : Type := mkCell { key : jsstring; label : Z; dateKey : jsstring }.

(** The indices of [for (let i = from; i < from + count; i += 1)]. *)
Definition indices (from : Z) (count : Z) : list Z :=
  map (fun i => (from + Z.of_nat i)%Z) (seq 0 (Z.to_nat count)).

Definition monthGrid (calendarMonth : Date) : list Cell :=
  let year := getFullYear calendarMonth in
  let month := getMonth calendarMonth in
  let firstDay := makeDate year month 1 in
  let startWeekday := getDay firstDay in
  let daysInMonth := getDate (makeDate year (month + 1) 0) in
  map (fun i => mkCell (js "blank-" ++ String_of_Z i) 0 []) (indices 0 startWeekday)
  ++ map (fun day =>
            mkCell (js "day-" ++ String_of_Z day) day (toDateKey (makeDate year month day)))
       (indices 1 daysInMonth).

End WithRuntime.

End Calendar.

Module UserProfile.
Inductive UserGender : Type := male | female | other.
Record t : Type := mk { name : jsstring; gender : UserGender }.
End UserProfile.

Module Onboarding.
Import UserProfile.

Definition storageKey : jsstring := js "sticker_journal_profile_v1".

Definition entriesStorageKey : jsstring := js "sticker_journal_entries_v1".

(** The truth value of a JSON value. *)
Definition jsTruthy (v : json) : bool :=
  match v with
  | JNull => false
  | JBool b => b
  | JNum q => negb (Qeq_bool q 0)
  | JStr s => truthy s
  | JArr _ => true
  | JObj _ => true
  end.

Definition genderText (g : UserGender) : jsstring :=
  match g with
  | male => js "male"
  | female => js "female"
  | other => js "other"
  end.

Definition jsonOfProfile (p : UserProfile.t) : json :=
  JObj [ (js "name", JStr (name p)); (js "gender", JStr (genderText (gender p))) ].

Record OnboardingState : Type := mkOnboarding {
  nameInput : jsstring;
  genderInput : UserGender;
  profile : option UserProfile.t;
  showOnboarding : bool
}.

Section WithRuntime.
Context {RT : Runtime}.

(** [readStoredProfile]: the parsed value when it has a truthy [name] and a
    truthy [gender], and [null] in every other case. *)
Definition readStoredProfile (window : option Storage.t) (key : jsstring) : option json :=
  match window with
  | None => None
  | Some localStorage =>
      match Storage.getItem localStorage key with
      | Thrown => None
      | Returned None => None
      | Returned (Some []) => None
      | Returned (Some raw) =>
          match JSON_parse raw with
          | Some (JObj fields) =>
              match getProp (js "name") fields, getProp (js "gender") fields with
              | Some n, Some g =>
                  if jsTruthy n && jsTruthy g then Some (JObj fields) else None
              | _, _ => None
              end
          | _ => None
          end
      end
  end.

(** [saveProfile]: nothing for a blank name; otherwise the profile is
    written, a failure of the write being ignored, and the onboarding ends. *)
Definition saveProfile (window : option Storage.t) (ob : OnboardingState)
  : option Storage.t * OnboardingState :=
  let trimmedName := trim (nameInput ob) in
  if negb (truthy trimmedName) then (window, ob)
  else
    let nextProfile := UserProfile.mk trimmedName (genderInput ob) in
    let window' :=
      match window with
      | None => None
      | Some localStorage =>
          match Storage.setItem localStorage storageKey
                  (JSON_stringify (jsonOfProfile nextProfile)) with
          | Returned stored => Some stored
          | Thrown => Some localStorage
          end
      end in
    (window', mkOnboarding (nameInput ob) (genderInput ob) (Some nextProfile) false).

End WithRuntime.

End Onboarding.

Module ScanFlow.
Import Page.

(** *** The pattern of a data URI

    [^data:], a lazy capture of [.], [;base64,], a greedy capture of [.],
    and [$]. *)

Definition isLineTerminator (c : N) : bool :=
  ((c =? 10) || (c =? 13) || (c =? 8232) || (c =? 8233))%N.

(** [.] *)
Definition rx_dot (c : N) : bool := negb (isLineTerminator c).

(** A literal: what follows it. *)
Definition rx_lit (lit : jsstring) : matcher :=
  fun s => if startsWith lit s then Some (skipn (length lit) s) else None.

(** The lazy star of [cls] followed by [k]: the continuation is tried first, and
    one more character is taken only when it fails.  The result is the
    capture and what [k] returned. *)
Fixpoint rx_lazy {R : Type} (cls : N -> bool) (k : jsstring -> option R) (s : jsstring)
  : option (jsstring * R) :=
  match k s with
  | Some r => Some ([], r)
  | None =>
      match s with
      | c :: t =>
          if cls c then
            match rx_lazy cls k t with
            | Some (g, r) => Some (c :: g, r)
            | None => None
            end
          else None
      | [] => None
      end
  end.

(** The greedy star of [cls] followed by the test [k] of what is left: the longer
    capture is tried first. *)
Fixpoint rx_greedy (cls : N -> bool) (k : jsstring -> bool) (s : jsstring)
  : option jsstring :=
  match s with
  | c :: t =>
      if cls c then
        match rx_greedy cls k t with
        | Some g => Some (c :: g)
        | None => if k s then Some [] else None
        end
      else if k s then Some [] else None
  | [] => if k [] then Some [] else None
  end.

(** [$] *)
Definition rx_end (s : jsstring) : bool := negb (truthy s).

(** [imageSrc.match(...)]: the two captures. *)
Definition matchDataUri (imageSrc : jsstring) : option (jsstring * jsstring) :=
  match rx_lit (js "data:") imageSrc with
  | None => None
  | Some s1 =>
      rx_lazy rx_dot
        (fun s =>
           match rx_lit (js ";base64,") s with
           | Some s2 => rx_greedy rx_dot rx_end s2
           | None => None
           end)
        s1
  end.

(** *** [scanImageAndSave] *)

(** The response to the request: [ok], and the body read as JSON, [None]
    when [response.json()] rejects. *)
Record OcrResponse : Type := mkResponse { ok : bool; bodyJson : option json }.

(** The scan dialog.  [scanStatus] holds whatever [setScanStatus] was given,
    which is the [error] of the failure body as it came. *)
Record ScanState : Type := mkScan {
  scanDialogOpen : bool;
  scanBusy : bool;
  scanStatus : json
}.

(** The end of a scan: the page, the dialog, the requests that were sent
    (MIME type and data), and whether the timer that closes the dialog is
    set. *)
Record Scanned : Type := mkScanned {
  page : AppState;
  dialog : ScanState;
  requests : list (jsstring * jsstring);
  timer : bool
}.

Section WithRuntime.
Context {RT : Runtime}.

(** [fetch("/api/ocr", ...)] with the body [{mimeType, base64}]; [Thrown]
    when the request itself fails. *)
Variable fetchOcr : jsstring -> jsstring -> completion OcrResponse.

Definition scanImageAndSave (entryDate : Date) (imageSrc : jsstring) (st : AppState)
  : Scanned :=
  match matchDataUri imageSrc with
  | None =>
      mkScanned st
        (mkScan true false (JStr (js "Only local uploaded images can be scanned.")))
        [] false
  | Some (mimeType, base64) =>
      let caught :=
        mkScanned st (mkScan true false (JStr (js "Could not scan this image.")))
          [(mimeType, base64)] false in
      match fetchOcr mimeType base64 with
      | Thrown => caught
      | Returned response =>
          if negb (ok response) then
            match bodyJson response with
            | Some JNull => caught
            | Some (JObj failure) =>
                mkScanned st
                  (mkScan true false
                     (match getProp (js "error") failure with
                      | Some JNull | None => JStr (js "Gemini OCR failed.")
                      | Some error => error
                      end))
                  [(mimeType, base64)] false
            | _ =>
                mkScanned st (mkScan true false (JStr (js "Gemini OCR failed.")))
                  [(mimeType, base64)] false
            end
          else
            let saved (rawText : jsstring) :=
              mkScanned (createScannedEntry entryDate rawText imageSrc st)
                (mkScan true false (JStr (js "Scanned and saved.")))
                [(mimeType, base64)] true in
            match bodyJson response with
            | None | Some JNull => caught
            | Some (JObj payload) =>
                match getProp (js "text") payload with
                | Some JNull | None => saved []
                | Some (JStr text) => saved text
                | Some _ => caught
                end
            | Some _ => saved []
            end
      end
  end.

(** The timer of a successful scan, 1.8 s later. *)
Definition dismiss (sc : ScanState) : ScanState :=
  mkScan false (scanBusy sc) (JStr []).

End WithRuntime.

(** What the page's [fetch] gets for an outcome of the route handler: the
    status decides [ok], and the body is the JSON the handler responded
    with; a rejected handler is answered by the framework with a 500 whose
    body is not JSON. *)
Definition received (outcome : Ocr.Outcome) : completion OcrResponse :=
  match outcome with
  | Ocr.Responded response =>
      Returned
        (mkResponse
           ((200 <=? HttpResponse.status response)%Z
            && (HttpResponse.status response <=? 299)%Z)
           (Some (HttpResponse.body response)))
  | Ocr.Rejected => Returned (mkResponse false None)
  end.

(** The request of the page as the route handler gets it: the body
    [{mimeType, base64}] is JSON with both fields, and the page reads what
    the handler responded. *)
Definition viaRoute {RT : Runtime}
  (callGemini : jsstring -> jsstring -> jsstring -> jsstring -> Ocr.FetchResponse)
  (GEMINI_API_KEY : option jsstring) (mimeType base64 : jsstring)
  : completion OcrResponse :=
  received
    (fst (Ocr.POST callGemini GEMINI_API_KEY
            (Ocr.Body (Some (OcrBody.mk (Some mimeType) (Some base64)))))).

End ScanFlow.
(** * The vocabulary of the specification

    The notions the specification speaks in, stated independently of the
    handlers, for the theorems to compare the handlers with. *)

Module Spec.
Import Page.

Section WithRuntime.
Context {RT : Runtime}.

(** The edit of the open entry aims at [entry]. *)
Definition targeted (st : AppState) (entry : MemoryEntry.t) : Prop :=
  exists opened,
    openEntry st = Some opened /\ MemoryEntry.id entry = MemoryEntry.id opened.

(** The text kept for a field: its trim, or the placeholder for an empty
    trim. *)
Definition stored (text placeholder : jsstring) : jsstring :=
  if eq_str_dec (trim text) [] then placeholder else trim text.

(** Nothing to submit. *)
Definition draftIsEmpty (st : AppState) : Prop :=
  trim (title st) = [] /\ trim (content st) = [] /\
  placedImages st = [] /\ stickyNotes st = [].

(** The sticky notes whose trimmed text is not empty, with that text. *)
Definition keptNotes (notes : list StickyNote.t) : list EntryNote.t :=
  map (fun note =>
         EntryNote.mk (trim (StickyNote.text note)) (StickyNote.x note)
           (StickyNote.y note))
    (filter (fun note => truthy (trim (StickyNote.text note))) notes).

(** A coordinate of a dragged element is within the canvas: not negative,
    at most [container - element] (the difference of the language, that is,
    the exact difference rounded to the nearest Number), and zero when the
    element is larger than the container. *)
Definition withinCanvas (coordinate container element : Q) : Prop :=
  0 <= coordinate /\
  (element <= container -> coordinate <= JSNumber.sub container element) /\
  (container < element -> coordinate == 0).

(** The same calendar day in local time. *)
Definition sameDay (a b : Date) : Prop :=
  getFullYear a = getFullYear b /\ getMonth a = getMonth b /\ getDate a = getDate b.

(** The date filter: no day is selected, or the label parses to a date of
    the selected day. *)
Definition passesDateFilter (selected : option Date) (entry : MemoryEntry.t) : Prop :=
  match selected with
  | None => True
  | Some day =>
      exists d, parseDateLabel (MemoryEntry.dateLabel entry) = Some d /\ sameDay d day
  end.

Definition isSubstring (sub s : jsstring) : Prop :=
  exists pre post, s = pre ++ sub ++ post.

(** The text filter: the trimmed query is empty, or its lower case occurs in
    the lower case of the title, of the content or of a badge label. *)
Definition passesTextFilter (query : jsstring) (entry : MemoryEntry.t) : Prop :=
  trim query = [] \/
  isSubstring (toLowerCase (trim query)) (toLowerCase (MemoryEntry.title entry)) \/
  isSubstring (toLowerCase (trim query)) (toLowerCase (MemoryEntry.content entry)) \/
  exists badge,
    In badge (MemoryEntry.badges entry) /\
    isSubstring (toLowerCase (trim query)) (toLowerCase (Badge.label badge)).

(** The failure body carries a message of the provider: it is a JSON object
    whose [error] is an object with a [message] that is not [null]. *)
Definition providerMessage (raw : jsstring) (message : json) : Prop :=
  exists fields error,
    JSON_parse raw = Some (JObj fields) /\
    getProp (js "error") fields = Some (JObj error) /\
    getProp (js "message") error = Some message /\
    message <> JNull.

(** What every host guarantees of its calendar and its lower-casing. *)
Record HostLaws : Prop := {
  month_range : forall d : Date, (0 <= getMonth d <= 11)%Z;
  date_range : forall d : Date, (1 <= getDate d <= 31)%Z;
  lower_empty : forall s : jsstring, toLowerCase s = [] <-> s = []
}.

End WithRuntime.

(** A matcher consumes: what follows a match is shorter than the string. *)
Definition consuming (m : matcher) : Prop :=
  forall s rest, m s = Some rest -> (length rest < length s)%nat.

(** The white space at the head of the string holds no line feed. *)
Fixpoint quiet (s : jsstring) : bool :=
  match s with
  | [] => true
  | c :: t => if isWhiteSpace c then negb (c =? nl)%N && quiet t else true
  end.

(** No two line feeds in a row, that is, no blank line. *)
Fixpoint noBlankLine (s : jsstring) : bool :=
  match s with
  | a :: t =>
      match t with
      | b :: _ => negb ((a =? nl)%N && (b =? nl)%N) && noBlankLine t
      | [] => true
      end
  | [] => true
  end.

Definition startsWithLineFeed (s : jsstring) : bool :=
  match s with
  | c :: _ => (c =? nl)%N
  | [] => false
  end.

(** The two-digit field of a date key, and its reading. *)
Definition pad2 (n : Z) : jsstring := padStart 2 48%N (String_of_Z n).

Definition unpad2 (s : jsstring) : Z :=
  match s with
  | [a; b] => (Z.of_N a - 48) * 10 + (Z.of_N b - 48)
  | _ => -1
  end.

(** A stored record has a numeric id. *)
Definition numericId (entry : json) : Prop :=
  exists fields q, entry = JObj fields /\ getProp (js "id") fields = Some (JNum q).

(** [loaded] is [original] after sanitation: the same properties, but for
    [badges], which is kept when it is a list and is the empty list
    otherwise, in particular when it is missing. *)
Definition sanitized (original loaded : json) : Prop :=
  exists fields fields',
    original = JObj fields /\ loaded = JObj fields' /\
    (forall k, k <> js "badges" -> getProp k fields' = getProp k fields) /\
    (getProp (js "badges") fields = None ->
     getProp (js "badges") fields' = Some (JArr [])) /\
    (forall badges, getProp (js "badges") fields = Some (JArr badges) ->
                    getProp (js "badges") fields' = Some (JArr badges)) /\
    (exists badges, getProp (js "badges") fields' = Some (JArr badges)).

(** The text fragment of a part, and the fragments of a candidate. *)
Definition fragment (part : GeminiPart.t) : jsstring :=
  match GeminiPart.text part with
  | Some t => t
  | None => []
  end.

Definition fragmentsOf (candidate : GeminiCandidate.t) : list jsstring :=
  match GeminiCandidate.content candidate with
  | Some (GeminiContent.mk (Some parts)) => map fragment parts
  | _ => []
  end.

(** All the text fragments of a payload, over all its candidates. *)
Definition allFragments (payload : GeminiResponse.t) : list jsstring :=
  match GeminiResponse.candidates payload with
  | Some candidates => flat_map fragmentsOf candidates
  | None => []
  end.

(** The fragments of the first candidate only. *)
Definition firstFragments (payload : GeminiResponse.t) : list jsstring :=
  match GeminiResponse.candidates payload with
  | Some (first :: _) => fragmentsOf first
  | _ => []
  end.

Definition joinedAndTrimmed (fragments : list jsstring) : jsstring :=
  trim (join [nl] fragments).

(** A request body lacks one of its two fields (an empty string counts as
    missing, as the handler tests truthiness). *)
Definition lacksField (body : option OcrBody.t) : Prop :=
  match body with
  | None => True
  | Some b =>
      OcrBody.mimeType b = None \/ OcrBody.mimeType b = Some [] \/
      OcrBody.base64 b = None \/ OcrBody.base64 b = Some []
  end.

Definition keyAbsent (key : option jsstring) : Prop :=
  key = None \/ key = Some [].

Definition errorBody (message : string) : json :=
  JObj [ (js "error", JStr (js message)) ].

End Spec.

(** * Sample inputs *)

Module Samples.
Import Page.

Definition heron : MemoryEntry.t :=
  MemoryEntry.mk 7 (js "Lake") (js "Saw a heron") (js "750")
    [journalBadge] None None None.

(** The heron entry is open and its title has been blanked. *)
Definition blankedEdit : AppState :=
  mkState [] [] [] [heron] (js "Feeling Good") [] [] None None
    (Some heron) true (js "   ") (js " Two herons ") (0, 0) (0, 0).

(** A fresh page on which only the title [a] has been typed. *)
Definition titledDraft : AppState := setTitle (js "a") (initialState []).

(** A canvas of ten by ten at the origin with one image three wide, grabbed
    at its corner. *)
Definition smallCanvas : DOMRect.t := DOMRect.mk 0 0 10 10.

Definition tinyImage : PlacedImage.t := PlacedImage.mk 1 (js "data:") 0 0 3.

Definition note1 : StickyNote.t := StickyNote.mk 2 (js "New sticky note...") 26 84 180.

Definition draggingTiny : AppState :=
  mkState [] [] [] [] (js "Feeling Good") [tinyImage] [note1] (Some 1%Z) (Some 2%Z)
    None false [] [] (0, 0) (0, 0).

Definition farAway : PointerEvent.t := PointerEvent.mk 100 100.

(** The Numbers that the source text [0.7] and [0.1] denote. *)
Definition sevenTenths : Q := JSNumber.numberValue (7 # 10).

Definition oneTenth : Q := JSNumber.numberValue (1 # 10).

(** The entries of the filtering scenario: a gym session on day 4 and a
    reading evening on day 40. *)
Definition gymDay : MemoryEntry.t :=
  MemoryEntry.mk 1 (js "Morning") (js "Leg day") (js "4")
    [Badge.mk (js "Gym") (js "fitness_center") (js "text-orange-500")] None None None.

Definition readingDay : MemoryEntry.t :=
  MemoryEntry.mk 2 (js "Evening") (js "A novel") (js "40")
    [Badge.mk (js "Reading") (js "book") (js "text-sky-500")] None None None.

(** The text of the templating scenario. *)
Definition lakeText : jsstring :=
  js "Trip to the lake" ++ [nl] ++ js "Saw a heron" ++ [nl; nl; nl] ++ js "Great day".

(** Two stored records; the second has no id. *)
Definition storedRecords : list json :=
  [ JObj [ (js "id", JNum 5); (js "title", JStr (js "Lake")) ];
    JObj [ (js "title", JStr (js "No id")) ] ].

Definition emptyStorage : Storage.t := Storage.mk false 1000 [].

Definition storageKey : jsstring := js "sticker_journal_entries_v1".

(** A payload of two candidates with one fragment each. *)
Definition candidateOf (text : string) : GeminiCandidate.t :=
  GeminiCandidate.mk (Some (GeminiContent.mk (Some [GeminiPart.mk (Some (js text))]))).

Definition twoCandidates : GeminiResponse.t :=
  GeminiResponse.mk (Some [candidateOf "a"; candidateOf "b"]).

(** A provider that refuses every model with a JSON error body. *)
Definition refusing (apiKey model mimeType base64 : jsstring) : Ocr.FetchResponse :=
  Ocr.NotOk (SmallHost.print
               (JObj [ (js "error", JObj [ (js "message", JStr (js "quota: " ++ model)) ]) ])).

(** A provider whose first model fails and whose second answers. *)
Definition secondAnswers (apiKey model mimeType base64 : jsstring) : Ocr.FetchResponse :=
  if eqb_str model (js "gemini-2.5-flash") then Ocr.NotOk (js "busy")
  else Ocr.Ok twoCandidates.

Definition pngBody : OcrBody.t := OcrBody.mk (Some (js "image/png")) (Some (js "AAAA")).

Definition bodyWithoutData : OcrBody.t := OcrBody.mk (Some (js "image/png")) None.

End Samples.

(** * More vocabulary *)

Module Spec2.
Import Page.

(** White space at neither end. *)
Definition edgesClean (s : jsstring) : bool :=
  match s with
  | [] => true
  | c :: _ => negb (isWhiteSpace c) && negb (isWhiteSpace (last s c))
  end.

(** A text as the store keeps it: not empty, and its own trim. *)
Definition tidy (s : jsstring) : Prop := s <> [] /\ trim s = s.

Definition normalized (entry : MemoryEntry.t) : Prop :=
  tidy (MemoryEntry.title entry) /\ tidy (MemoryEntry.content entry).

(** What a drag never touches of an image and of a note. *)
Definition imageIdentity (image : PlacedImage.t) : Z * jsstring * Q :=
  (PlacedImage.id image, PlacedImage.src image, PlacedImage.width image).

Definition noteIdentity (note : StickyNote.t) : Z * jsstring * Q :=
  (StickyNote.id note, StickyNote.text note, StickyNote.width note).

(** The pointer position relative to the canvas less the grab offset, as
    the handlers compute it. *)
Definition pointerLess (client origin offset : Q) : Q :=
  JSNumber.sub (JSNumber.sub client origin) offset.

(** The lines of a text given by its segments between line feeds: each
    segment trimmed, the empty ones left out. *)
Definition linesOf (segments : list jsstring) : list jsstring :=
  flat_map (fun segment =>
              match trim segment with
              | [] => []
              | line => [line]
              end)
    segments.

(** The three segments of the lake text, once cleaned. *)
Definition lakeSegments : list jsstring :=
  [js "Trip to the lake"; js "Saw a heron"; js "Great day"].

(** A stored record is fit for the page: it has a numeric id and a list of
    badges. *)
Definition fitRecord (entry : json) : Prop :=
  exists fields q badges,
    entry = JObj fields /\
    getProp (js "id") fields = Some (JNum q) /\
    getProp (js "badges") fields = Some (JArr badges).

(** Adding sticky notes one after the other, at the given clock readings. *)
Definition addNotes (nows : list Z) (st : AppState) : AppState :=
  fold_left (fun s now => addStickyNote now s) nows st.

End Spec2.

(** * The vocabulary of the calendar *)

Module CalendarSpec.
Import Page.

Section WithRuntime.
Context {RT : Runtime}.

(** The entry is of the day with this key. *)
Definition onDay (key : jsstring) (entry : MemoryEntry.t) : bool :=
  match parseDateLabel (MemoryEntry.dateLabel entry) with
  | Some d => eqb_str (toDateKey d) key
  | None => false
  end.

(** [map.get(key) ?? 0] *)
Definition tally (key : jsstring) (map : list (jsstring * Z)) : Z :=
  match getProp key map with
  | Some n => n
  | None => 0
  end.

Definition positive (map : list (jsstring * Z)) : Prop :=
  forall key n, getProp key map = Some n -> (0 < n)%Z.

End WithRuntime.

(** The cells the calendar draws as buttons, and the ones it leaves empty. *)
Definition isButton {RT : Runtime} (cell : Calendar.Cell) : bool :=
  truthy (Calendar.dateKey cell).

End CalendarSpec.

(** * The vocabulary of the onboarding *)

Module ProfileSpec.
Import UserProfile Onboarding.

(** The profile that the onboarding form holds. *)
Definition typedProfile (ob : OnboardingState) : UserProfile.t :=
  UserProfile.mk (trim (nameInput ob)) (genderInput ob).

(** The form with a name between blanks. *)
Definition adaForm : OnboardingState := mkOnboarding (js " Ada ") female None true.

End ProfileSpec.

(** * The vocabulary of the scan *)

Module ScanSpec.
Import Page ScanFlow.

(** No line terminator, and no semicolon. *)
Definition dots (s : jsstring) : bool := forallb rx_dot s.

Definition noSemicolon (s : jsstring) : bool := forallb (fun c => negb (c =? 59)%N) s.

(** The shape of a data URI. *)
Definition dataUri (mimeType base64 : jsstring) : jsstring :=
  js "data:" ++ mimeType ++ js ";base64," ++ base64.

(** The provider fails for the model. *)
Definition fails (callGemini : jsstring -> jsstring -> jsstring -> jsstring -> Ocr.FetchResponse)
  (apiKey mimeType base64 model : jsstring) : Prop :=
  exists raw, callGemini apiKey model mimeType base64 = Ocr.NotOk raw.

(** The call for the model breaks: it throws, or it has a success status and
    a body that cannot be used. *)
Definition breaks (callGemini : jsstring -> jsstring -> jsstring -> jsstring -> Ocr.FetchResponse)
  (apiKey mimeType base64 model : jsstring) : Prop :=
  callGemini apiKey model mimeType base64 = Ocr.Threw \/
  callGemini apiKey model mimeType base64 = Ocr.OkUnusable.

(** A provider that cannot be reached. *)
Definition unreachable (apiKey model mimeType base64 : jsstring) : Ocr.FetchResponse :=
  Ocr.Threw.

(** A picture of four bytes. *)
Definition pngUri : jsstring := dataUri (js "image/png") (js "AAAA").

End ScanSpec.
(** * Properties *)

(** ** Facts about the string primitives *)

Module JSFacts.

Lemma orElse_nonempty (a b : jsstring) : b <> [] -> orElse a b <> [].
Proof. destruct a; simpl; [ auto | discriminate ]. Qed.

Lemma orElse_cases (a b : jsstring) :
  orElse a b = if eq_str_dec a [] then b else a.
Proof.
  destruct a; simpl.
  - destruct (eq_str_dec [] []); congruence.
  - destruct (eq_str_dec (n :: a) []); [ discriminate | reflexivity ].
Qed.

Lemma truthy_false_iff (a : jsstring) : truthy a = false <-> a = [].
Proof. destruct a; simpl; split; congruence. Qed.

Lemma truthy_true_iff (a : jsstring) : truthy a = true <-> a <> [].
Proof. destruct a; simpl; split; congruence. Qed.

Lemma eqb_str_true (a b : jsstring) : eqb_str a b = true <-> a = b.
Proof. unfold eqb_str. destruct (eq_str_dec a b); split; congruence. Qed.

Lemma startsWith_app (p t : jsstring) : startsWith p (p ++ t) = true.
Proof. induction p as [|c p IH]; simpl; [ | rewrite N.eqb_refl ]; auto. Qed.

Lemma startsWith_spec (p s : jsstring) :
  startsWith p s = true <-> exists t, s = p ++ t.
Proof.
  split.
  - revert s. induction p as [|c p IH]; intros s H.
    + exists s. reflexivity.
    + destruct s as [|d s]; simpl in H; [ discriminate | ].
      apply andb_true_iff in H. destruct H as [Hc Hp].
      apply N.eqb_eq in Hc. subst d.
      destruct (IH _ Hp) as [t ->]. exists t. reflexivity.
  - intros [t ->]. apply startsWith_app.
Qed.

(** [includes] is the substring relation. *)
Lemma includes_spec (s sub : jsstring) :
  includes s sub = true <-> exists pre post, s = pre ++ sub ++ post.
Proof.
  split.
  - induction s as [|c s IH]; simpl; intros H.
    + rewrite orb_false_r in H. apply startsWith_spec in H.
      destruct H as [t Ht]. exists [], t. exact Ht.
    + apply orb_true_iff in H. destruct H as [H | H].
      * apply startsWith_spec in H. destruct H as [t Ht]. exists [], t. exact Ht.
      * destruct (IH H) as (pre & post & ->). exists (c :: pre), post. reflexivity.
  - intros (pre & post & ->). induction pre as [|c pre IH].
    + simpl. destruct (sub ++ post) eqn:E; simpl; rewrite <- ?E;
        rewrite startsWith_app; reflexivity.
    + simpl. rewrite IH. apply orb_true_r.
Qed.

Lemma replaceFirst_unfold (pat rep s : jsstring) :
  replaceFirst pat rep s =
  if startsWith pat s then rep ++ skipn (length pat) s
  else match s with
       | [] => []
       | c :: r => c :: replaceFirst pat rep r
       end.
Proof. destruct s; reflexivity. Qed.

(** Removing a prefix that is there. *)
Lemma replaceFirst_prefix (pat rep t : jsstring) :
  replaceFirst pat rep (pat ++ t) = rep ++ t.
Proof.
  rewrite replaceFirst_unfold, startsWith_app.
  f_equal. induction pat; simpl; auto.
Qed.

(** Mapping then filtering is filtering on the image, then mapping. *)
Lemma filter_map_swap {A B : Type} (f : A -> B) (p : B -> bool) (l : list A) :
  filter p (map f l) = map f (filter (fun a => p (f a)) l).
Proof.
  induction l as [|a l IH]; simpl; [ reflexivity | ].
  destruct (p (f a)); simpl; rewrite IH; reflexivity.
Qed.

(** Literals are told apart by their text. *)
Lemma js_inj (a b : string) : js a = js b -> a = b.
Proof.
  unfold js. intros H.
  rewrite <- (string_of_list_ascii_of_string a), <- (string_of_list_ascii_of_string b).
  f_equal.
  revert H. generalize (list_ascii_of_string a) (list_ascii_of_string b).
  induction l as [|x l IH]; intros [|y l']; simpl; intros H; try discriminate; auto.
  injection H as Hxy Hl. f_equal; [ | auto ].
  rewrite <- (ascii_N_embedding x), <- (ascii_N_embedding y), Hxy. reflexivity.
Qed.

End JSFacts.

Import JSFacts.

(** ** The entry store: edits and appends *)

Module EntryStore.
Import Page Spec Samples.

Section WithRuntime.
Context {RT : Runtime}.

Lemma stored_orElse (edited placeholder : jsstring) :
  orElse (trim edited) placeholder = stored edited placeholder.
Proof. apply orElse_cases. Qed.

Lemma stored_nonempty (edited placeholder : jsstring) :
  placeholder <> [] -> stored edited placeholder <> [].
Proof. unfold stored. destruct (eq_str_dec (trim edited) []); auto. Qed.

Lemma entries_saveOpenEntryEdits_none (st : AppState) :
  openEntry st = None -> saveOpenEntryEdits st = st.
Proof. unfold saveOpenEntryEdits. intros ->. reflexivity. Qed.

(** With an entry open, the store is mapped through the patch. *)
Lemma entries_saveOpenEntryEdits_some (st : AppState) (opened : MemoryEntry.t) :
  openEntry st = Some opened ->
  entries (saveOpenEntryEdits st) =
  map (fun entry =>
         if (MemoryEntry.id entry =? MemoryEntry.id opened)%Z
         then withTitleContent (stored (editingTitle st) (js "Untitled memory"))
                (stored (editingContent st) (js "No notes added.")) entry
         else entry)
    (entries st).
Proof.
  unfold saveOpenEntryEdits. intros ->. simpl.
  rewrite !stored_orElse. reflexivity.
Qed.

Lemma map_untouched {A : Type} (f : A -> A) (l : list A) :
  (forall a, In a l -> f a = a) -> map f l = l.
Proof.
  induction l as [|a l IH]; simpl; intros H; [ reflexivity | ].
  rewrite (H a), IH; auto.
Qed.

(** C6.  [saveOpenEntryEdits], the store's update, keeps the length and the
    order of the store; at every position the entry keeps its id, date label,
    badges, images, notes and sticker; an entry whose id is not the edited
    one is unchanged; and when no entry has the edited id (or no entry is
    open) the store is unchanged. *)
Theorem saveOpenEntryEdits_frame (st : AppState) :
  length (entries (saveOpenEntryEdits st)) = length (entries st) /\
  (forall i entry,
      nth_error (entries st) i = Some entry ->
      exists entry',
        nth_error (entries (saveOpenEntryEdits st)) i = Some entry' /\
        MemoryEntry.id entry' = MemoryEntry.id entry /\
        MemoryEntry.dateLabel entry' = MemoryEntry.dateLabel entry /\
        MemoryEntry.badges entry' = MemoryEntry.badges entry /\
        MemoryEntry.images entry' = MemoryEntry.images entry /\
        MemoryEntry.notes entry' = MemoryEntry.notes entry /\
        MemoryEntry.sticker entry' = MemoryEntry.sticker entry /\
        (~ targeted st entry -> entry' = entry)) /\
  ((forall entry, In entry (entries st) -> ~ targeted st entry) ->
   entries (saveOpenEntryEdits st) = entries st).
Proof.
  destruct (openEntry st) as [opened|] eqn:Hopen.
  - rewrite (entries_saveOpenEntryEdits_some _ Hopen).
    split; [ apply length_map | split ].
    + intros i entry Hi.
      rewrite nth_error_map, Hi. simpl.
      destruct (Z.eqb_spec (MemoryEntry.id entry) (MemoryEntry.id opened)) as [Heq|Hne].
      * eexists. split; [ reflexivity | ].
        simpl. repeat split; try reflexivity.
        intros Hnot. exfalso. apply Hnot. exists opened. auto.
      * exists entry. repeat split; reflexivity.
    + intros Hnone. apply map_untouched. intros entry Hin.
      destruct (Z.eqb_spec (MemoryEntry.id entry) (MemoryEntry.id opened)) as [Heq|Hne];
        [ | reflexivity ].
      exfalso. apply (Hnone entry Hin). exists opened. auto.
  - rewrite (entries_saveOpenEntryEdits_none _ Hopen).
    split; [ reflexivity | split ]; [ | reflexivity ].
    intros i entry Hi. exists entry. repeat split; auto.
Qed.

(** C10.  Saving an edit stores, in every entry that has the id of the open
    entry, the trimmed edited title and content, each replaced by its
    placeholder when the trim is empty; neither stored field is empty; and
    the stored texts are the ones [handleSubmit] gives a draft with the same
    title and content. *)
Theorem saveOpenEntryEdits_normalizes (st : AppState) (opened : MemoryEntry.t)
  (i : nat) (entry : MemoryEntry.t) :
  openEntry st = Some opened ->
  nth_error (entries st) i = Some entry ->
  MemoryEntry.id entry = MemoryEntry.id opened ->
  exists entry',
    nth_error (entries (saveOpenEntryEdits st)) i = Some entry' /\
    MemoryEntry.title entry' = stored (editingTitle st) (js "Untitled memory") /\
    MemoryEntry.content entry' = stored (editingContent st) (js "No notes added.") /\
    MemoryEntry.title entry' <> [] /\
    MemoryEntry.content entry' <> [] /\
    (forall now entryDate draft,
        title draft = editingTitle st ->
        content draft = editingContent st ->
        MemoryEntry.title (composedEntry now entryDate draft) = MemoryEntry.title entry' /\
        MemoryEntry.content (composedEntry now entryDate draft) = MemoryEntry.content entry').
Proof.
  intros Hopen Hi Hid.
  rewrite (entries_saveOpenEntryEdits_some _ Hopen).
  rewrite nth_error_map, Hi. simpl.
  rewrite Hid, Z.eqb_refl.
  eexists. split; [ reflexivity | ]. simpl.
  repeat split.
  - apply stored_nonempty. discriminate.
  - apply stored_nonempty. discriminate.
  - rewrite stored_orElse. congruence.
  - rewrite stored_orElse. congruence.
Qed.

End WithRuntime.

Lemma saveOpenEntryEdits_normalizes_witness :
  exists entry',
    nth_error (entries (saveOpenEntryEdits blankedEdit)) 0 = Some entry' /\
    MemoryEntry.title entry' = js "Untitled memory" /\
    MemoryEntry.content entry' = js "Two herons".
Proof.
  destruct (@saveOpenEntryEdits_normalizes SmallHost.host blankedEdit heron 0
              heron eq_refl eq_refl eq_refl)
    as (entry' & Hnth & Ht & Hc & _).
  exists entry'. split; [ exact Hnth | ]. split.
  - rewrite Ht. vm_compute. reflexivity.
  - rewrite Hc. vm_compute. reflexivity.
Defined.

(** The edit of the heron entry keeps its id, its date label and its badge. *)
Lemma saveOpenEntryEdits_frame_witness :
  exists entry',
    nth_error (entries (saveOpenEntryEdits blankedEdit)) 0 = Some entry' /\
    MemoryEntry.id entry' = 7%Z /\
    MemoryEntry.dateLabel entry' = js "750" /\
    MemoryEntry.badges entry' = [journalBadge].
Proof.
  destruct (proj1 (proj2 (saveOpenEntryEdits_frame blankedEdit)) 0%nat heron eq_refl)
    as (entry' & Hnth & Hid & Hdate & Hbadges & _).
  exists entry'. repeat split; assumption.
Defined.

End EntryStore.

(** ** Appending to the store *)

Module Appends.
Import Page Spec Samples.

Section WithRuntime.
Context {RT : Runtime}.

(** The test at the head of [handleSubmit] decides [draftIsEmpty]. *)
Lemma rejects_iff_draftIsEmpty (st : AppState) :
  negb (truthy (trim (title st))) && negb (truthy (trim (content st)))
  && (length (placedImages st) =? 0)%nat && (length (stickyNotes st) =? 0)%nat = true
  <-> draftIsEmpty st.
Proof.
  unfold draftIsEmpty.
  rewrite !andb_true_iff, !negb_true_iff, !truthy_false_iff, !Nat.eqb_eq, !length_zero_iff_nil.
  tauto.
Qed.

Lemma handleSubmit_rejected (now : Z) (entryDate : Date) (st : AppState) :
  draftIsEmpty st -> handleSubmit now entryDate st = st.
Proof.
  intros H. apply rejects_iff_draftIsEmpty in H.
  unfold handleSubmit. rewrite H. reflexivity.
Qed.

Lemma handleSubmit_accepted (now : Z) (entryDate : Date) (st : AppState) :
  ~ draftIsEmpty st ->
  handleSubmit now entryDate st =
  resetComposer
    (setQuery [] (setEntries (fun prev => composedEntry now entryDate st :: prev) st)).
Proof.
  intros H. unfold handleSubmit.
  destruct (negb (truthy (trim (title st))) && negb (truthy (trim (content st)))
            && (length (placedImages st) =? 0)%nat
            && (length (stickyNotes st) =? 0)%nat) eqn:E; [ | reflexivity ].
  exfalso. apply H. apply rejects_iff_draftIsEmpty. exact E.
Qed.

Lemma draftIsEmpty_dec (st : AppState) : {draftIsEmpty st} + {~ draftIsEmpty st}.
Proof.
  destruct (negb (truthy (trim (title st))) && negb (truthy (trim (content st)))
            && (length (placedImages st) =? 0)%nat
            && (length (stickyNotes st) =? 0)%nat) eqn:E.
  - left. apply rejects_iff_draftIsEmpty. exact E.
  - right. intros H. apply rejects_iff_draftIsEmpty in H. congruence.
Qed.

(** An action leaves the store alone or puts one entry at its head. *)
Lemma dispatch_entries (a : Action) (st : AppState) :
  entries (dispatch a st) = entries st \/
  exists entry, entries (dispatch a st) = entry :: entries st.
Proof.
  destruct a; simpl; try (left; reflexivity).
  - destruct (draftIsEmpty_dec st) as [H|H].
    + left. rewrite handleSubmit_rejected by exact H. reflexivity.
    + right. rewrite handleSubmit_accepted by exact H. eexists. reflexivity.
  - right. eexists. reflexivity.
Qed.

Lemma appendedBy_spec (a : Action) (st : AppState) :
  entries (dispatch a st) = appendedBy a st ++ entries st /\
  rev (appendedBy a st) = appendedBy a st /\
  (length (appendedBy a st) <= 1)%nat.
Proof.
  unfold appendedBy.
  destruct (dispatch_entries a st) as [H | [entry H]]; rewrite H.
  - rewrite Nat.sub_diag. simpl. auto.
  - replace (length (entry :: entries st) - length (entries st))%nat with 1%nat
      by (cbn [length]; lia).
    simpl. auto.
Qed.

Lemma run_entries (actions : list Action) (st : AppState) :
  entries (run actions st) = rev (appendLog actions st) ++ entries st.
Proof.
  revert st. induction actions as [|a rest IH]; intros st; simpl; [ reflexivity | ].
  rewrite IH.
  destruct (appendedBy_spec a st) as (Hd & Hrev & _).
  rewrite rev_app_distr, Hrev, Hd, app_assoc. reflexivity.
Qed.

Lemma run_app (first later : list Action) (st : AppState) :
  run (first ++ later) st = run later (run first st).
Proof. revert st. induction first as [|a r IH]; intros st; simpl; auto. Qed.

(** C7.  Every accepted submission and every scan commit puts its new entry
    at the head of the store and leaves the entries that were there in
    place; a rejected submission and the composer's other inputs leave the
    store alone.  So after any sequence of actions the store is the entries
    appended along the way, newest first, followed by the initial store; and
    whatever is appended later stands in front of what the store held at any
    earlier moment. *)
Theorem appends_are_newest_first (actions : list Action) (st : AppState) :
  entries (run actions st) = rev (appendLog actions st) ++ entries st /\
  (forall first later,
      actions = first ++ later ->
      entries (run actions st)
      = rev (appendLog later (run first st)) ++ entries (run first st)) /\
  (forall now entryDate,
      ~ draftIsEmpty st ->
      entries (dispatch (Submit now entryDate) st)
      = composedEntry now entryDate st :: entries st) /\
  (forall now entryDate,
      draftIsEmpty st ->
      entries (dispatch (Submit now entryDate) st) = entries st) /\
  (forall entryDate rawText imageSrc,
      exists entry,
        MemoryEntry.id entry = getTime entryDate /\
        entries (dispatch (Scan entryDate rawText imageSrc) st) = entry :: entries st) /\
  (forall a,
      (forall now entryDate, a <> Submit now entryDate) ->
      (forall entryDate rawText imageSrc, a <> Scan entryDate rawText imageSrc) ->
      entries (dispatch a st) = entries st).
Proof.
  split; [ apply run_entries | ].
  split; [ intros first later ->; rewrite run_app; apply run_entries | ].
  split; [ intros now d H; simpl; rewrite handleSubmit_accepted by exact H; reflexivity | ].
  split; [ intros now d H; simpl; rewrite handleSubmit_rejected by exact H; reflexivity | ].
  split; [ intros d raw src; eexists; split; [ | reflexivity ]; reflexivity | ].
  intros a Hsub Hscan.
  destruct a; try reflexivity.
  - exfalso. exact (Hsub _ _ eq_refl).
  - exfalso. exact (Hscan _ _ _ eq_refl).
Qed.

End WithRuntime.

#[local] Existing Instance SmallHost.host.

(** Two submissions around a scan: the store holds the three new entries,
    the last one first. *)
Example three_appends :
  map MemoryEntry.id
    (entries
       (run
          [ TypeTitle (js "one"); Submit 1%Z 10%Z; Scan 20%Z lakeText [];
            Submit 3%Z 30%Z; TypeContent (js "three"); Submit 4%Z 40%Z ]
          (initialState [heron])))
  = [4; 20 * 86400000; 1; 7]%Z.
Proof. vm_compute. reflexivity. Qed.

Lemma appends_are_newest_first_witness :
  entries (run [TypeTitle (js "one"); Submit 1%Z 10%Z; Scan 20%Z lakeText []]
             (initialState [heron]))
  = rev (appendLog [TypeTitle (js "one"); Submit 1%Z 10%Z; Scan 20%Z lakeText []]
           (initialState [heron]))
    ++ [heron].
Proof.
  exact (proj1 (@appends_are_newest_first SmallHost.host
                  [TypeTitle (js "one"); Submit 1%Z 10%Z; Scan 20%Z lakeText []]
                  (initialState [heron]))).
Defined.

End Appends.

(** ** The composer: submitting a draft *)

Module Composer.
Import Page Spec Samples.

Section WithRuntime.
Context {RT : Runtime}.

Lemma submittedNotes_keptNotes (notes : list StickyNote.t) :
  submittedNotes notes = keptNotes notes.
Proof.
  unfold submittedNotes, keptNotes.
  rewrite filter_map_swap. f_equal.
  apply filter_ext. intros note. simpl.
  destruct (trim (StickyNote.text note)); reflexivity.
Qed.

(** The label of the mood badge: the mood less its first ["Feeling "], and
    ["Mood"] when nothing is left. *)
Lemma moodBadge_label (m : jsstring) :
  Badge.label (moodBadge m) = orElse (replaceFirst (js "Feeling ") [] m) (js "Mood").
Proof. reflexivity. Qed.

Lemma moodBadge_label_of_sticker (t : jsstring) :
  t <> [] -> Badge.label (moodBadge (js "Feeling " ++ t)) = t.
Proof.
  intros Ht. rewrite moodBadge_label, replaceFirst_prefix. simpl.
  destruct t; [ congruence | reflexivity ].
Qed.

(** C1 (amended).  [handleSubmit] does nothing exactly when the trimmed
    title and the trimmed content are empty and there is neither a placed
    image nor a sticky note.  Otherwise it puts one new entry at the head of
    the store and empties the draft's title, content, images and notes.  The
    entry has the trimmed title, or "Untitled memory" for an empty one; the
    trimmed content, or "No notes added."; the placed images' sources; the
    sticky notes whose trimmed text is not empty, with that text; and two
    badges, the mood badge and then the "Journal" badge.  The label of the
    mood badge is the mood less its "Feeling " prefix: it is the title of
    the mood sticker chosen last, and "Good" when no sticker was chosen,
    because the page starts in the mood "Feeling Good"; "Mood" is the label
    only of a mood that is nothing but the prefix. *)
Theorem handleSubmit_spec (now : Z) (entryDate : Date) (st : AppState) :
  (draftIsEmpty st -> handleSubmit now entryDate st = st) /\
  (~ draftIsEmpty st ->
   exists entry moodBadge,
     entries (handleSubmit now entryDate st) = entry :: entries st /\
     title (handleSubmit now entryDate st) = [] /\
     content (handleSubmit now entryDate st) = [] /\
     placedImages (handleSubmit now entryDate st) = [] /\
     stickyNotes (handleSubmit now entryDate st) = [] /\
     MemoryEntry.title entry = stored (title st) (js "Untitled memory") /\
     MemoryEntry.content entry = stored (content st) (js "No notes added.") /\
     MemoryEntry.images entry
     = Some (map (fun image => EntryImage.mk (PlacedImage.src image)) (placedImages st)) /\
     MemoryEntry.notes entry = Some (keptNotes (stickyNotes st)) /\
     MemoryEntry.badges entry = [moodBadge; journalBadge] /\
     Badge.label journalBadge = js "Journal" /\
     (forall saved, mood st = mood (initialState saved) ->
                     Badge.label moodBadge = js "Good") /\
     (forall sticker before,
         MoodSticker.title sticker <> [] ->
         mood st = mood (chooseMoodSticker sticker before) ->
         Badge.label moodBadge = MoodSticker.title sticker) /\
     (forall sticker, In sticker moodStickers -> MoodSticker.title sticker <> []) /\
     (mood st = js "Feeling " -> Badge.label moodBadge = js "Mood")).
Proof.
  split; [ apply Appends.handleSubmit_rejected | ].
  intros Hne.
  rewrite (Appends.handleSubmit_accepted now entryDate Hne).
  exists (composedEntry now entryDate st), (Page.moodBadge (mood st)).
  simpl. rewrite !EntryStore.stored_orElse, submittedNotes_keptNotes.
  repeat split.
  - intros _ ->. reflexivity.
  - intros sticker _ Ht ->. apply moodBadge_label_of_sticker. exact Ht.
  - intros sticker Hin.
    repeat (destruct Hin as [<- | Hin]; [ discriminate | ]). contradiction.
  - intros ->. reflexivity.
Qed.

End WithRuntime.

#[local] Existing Instance SmallHost.host.

(** With only a title typed, the content of the entry is the placeholder. *)
Example title_only_gets_placeholder :
  map MemoryEntry.content (entries (handleSubmit 5%Z 750%Z titledDraft))
  = [js "No notes added."].
Proof. vm_compute. reflexivity. Qed.

Example empty_draft_is_rejected :
  handleSubmit 5%Z 750%Z (initialState [heron]) = initialState [heron].
Proof. vm_compute. reflexivity. Qed.

(** C1, as stated, fails on the mood badge: on a fresh page, where no mood
    sticker was chosen, submitting a draft that has only the title [a]
    creates an entry whose badges are labelled "Good" and "Journal"; the
    label is not "Mood". *)
Lemma handleSubmit_default_label_is_Good :
  exists entry,
    entries (handleSubmit 5%Z 750%Z titledDraft) = [entry] /\
    map Badge.label (MemoryEntry.badges entry) = [js "Good"; js "Journal"] /\
    map Badge.label (MemoryEntry.badges entry) <> [js "Mood"; js "Journal"].
Proof.
  eexists. split; [ vm_compute; reflexivity | ].
  split; [ vm_compute; reflexivity | vm_compute; discriminate ].
Qed.

Lemma titledDraft_not_empty : ~ draftIsEmpty titledDraft.
Proof. intros (H & _). vm_compute in H. discriminate. Qed.

Lemma handleSubmit_spec_witness :
  exists entry moodBadge,
    entries (handleSubmit 5%Z 750%Z titledDraft) = [entry] /\
    MemoryEntry.title entry = stored (js "a") (js "Untitled memory") /\
    MemoryEntry.content entry = stored [] (js "No notes added.") /\
    MemoryEntry.badges entry = [moodBadge; journalBadge] /\
    Badge.label moodBadge = js "Good".
Proof.
  destruct (proj2 (@handleSubmit_spec SmallHost.host 5%Z 750%Z titledDraft)
              titledDraft_not_empty)
    as (entry & moodBadge & He & _ & _ & _ & _ & Ht & Hc & _ & _ & Hb & _ & Hgood & _).
  exists entry, moodBadge.
  split; [ exact He | ]. split; [ exact Ht | ]. split; [ exact Hc | ].
  split; [ exact Hb | ]. apply (Hgood []). reflexivity.
Defined.

End Composer.

(** ** Numbers *)

Module NumberFacts.
Import JSNumber.

Lemma pow2_positive (e : Z) : 0 < pow2 e.
Proof.
  destruct e as [|p|p]; unfold pow2.
  - reflexivity.
  - change 0 with (inject_Z 0). rewrite <- Zlt_Qlt. apply Z.pow_pos_nonneg; lia.
  - reflexivity.
Qed.

Lemma roundHalfEven_nonneg (q : Q) : 0 <= q -> (0 <= roundHalfEven q)%Z.
Proof.
  intros Hq. unfold roundHalfEven.
  assert (Hf : (0 <= Qfloor q)%Z).
  { change 0%Z with (Qfloor 0). apply Qfloor_resp_le. exact Hq. }
  destruct (Qcompare (q - inject_Z (Qfloor q)) (1 # 2)); try lia.
  destruct (Z.even (Qfloor q)); lia.
Qed.

Lemma roundPositive_nonneg (n d : positive) : 0 <= roundPositive n d.
Proof.
  unfold roundPositive. rewrite Qred_correct.
  apply Qmult_le_0_compat.
  - change 0 with (inject_Z 0). rewrite <- Zle_Qle. apply roundHalfEven_nonneg.
    apply Qmult_le_0_compat; [ unfold Qle; simpl; lia | apply Qlt_le_weak, pow2_positive ].
  - apply Qlt_le_weak, pow2_positive.
Qed.

(** Rounding keeps the sign. *)
Lemma numberValue_sign (q : Q) :
  (0 <= q -> 0 <= numberValue q) /\ (q <= 0 -> numberValue q <= 0).
Proof.
  unfold numberValue. destruct q as [[|n|n] d]; simpl.
  - split; intros _; apply Qle_refl.
  - split; intros H.
    + apply roundPositive_nonneg.
    + exfalso. unfold Qle in H. simpl in H. lia.
  - split; intros H.
    + exfalso. unfold Qle in H. simpl in H. lia.
    + pose proof (roundPositive_nonneg n d). lra.
Qed.

Lemma sub_nonneg (a b : Q) : b <= a -> 0 <= sub a b.
Proof. intros H. apply numberValue_sign. lra. Qed.

Lemma sub_nonpos (a b : Q) : a <= b -> sub a b <= 0.
Proof. intros H. apply numberValue_sign. lra. Qed.

(** The subtraction of the language is not the exact one: the difference of
    the Numbers [0.7] and [0.1] is the Number [0.6], which is more than
    their exact difference. *)
Example sub_is_rounded :
  sub Samples.sevenTenths Samples.oneTenth == numberValue (6 # 10) /\
  Samples.sevenTenths - Samples.oneTenth < sub Samples.sevenTenths Samples.oneTenth.
Proof. split; vm_compute; reflexivity. Qed.

End NumberFacts.

(** ** Dragging on the canvas *)

Module Drag.
Import Page Spec Samples.

(** The clamp keeps a coordinate within the canvas. *)
Lemma nextCoordinate_within (client origin offset container element : Q) :
  withinCanvas (nextCoordinate client origin offset container element) container element.
Proof.
  unfold withinCanvas, nextCoordinate, Math_min, Math_max.
  pose proof (@NumberFacts.sub_nonneg container element) as Hd1.
  pose proof (@NumberFacts.sub_nonpos container element) as Hd2.
  set (p := JSNumber.sub (JSNumber.sub client origin) offset).
  set (d := JSNumber.sub container element) in *.
  destruct (Q.max_spec p 0) as [[Hp Ep] | [Hp Ep]];
    destruct (Q.max_spec d 0) as [[Hc Ec] | [Hc Ec]];
    destruct (Q.min_spec (Qmax p 0) (Qmax d 0)) as [[Hm Em] | [Hm Em]];
    rewrite Em; rewrite ?Ep, ?Ec in *;
    (split;
     [ lra
     | split; intros H;
       [ pose proof (Hd1 H) | pose proof (Hd2 (Qlt_le_weak _ _ H)) ]; lra ]).
Qed.

(** [Math.round] yields an integer at most a half away. *)
Lemma Math_round_spec (q : Q) :
  exists n : Z, Math_round q = inject_Z n /\ q - (1 # 2) < Math_round q <= q + (1 # 2).
Proof.
  unfold Math_round. exists (Qfloor (q + (1 # 2))). split; [ reflexivity | ].
  pose proof (Qfloor_le (q + (1 # 2))) as Hle.
  pose proof (Qlt_floor (q + (1 # 2))) as Hlt.
  rewrite inject_Z_plus in Hlt. change (inject_Z 1) with 1 in Hlt.
  split; lra.
Qed.

Lemma Qfloor_half (n : Z) : Qfloor (inject_Z n + (1 # 2)) = n.
Proof.
  pose proof (Qfloor_le (inject_Z n + (1 # 2))) as Hle.
  pose proof (Qlt_floor (inject_Z n + (1 # 2))) as Hlt.
  set (f := Qfloor (inject_Z n + (1 # 2))) in *.
  assert (H1 : inject_Z f < inject_Z (n + 1)).
  { rewrite inject_Z_plus. change (inject_Z 1) with 1. lra. }
  assert (H2 : inject_Z n < inject_Z (f + 1)) by lra.
  rewrite <- Zlt_Qlt in H1, H2. lia.
Qed.

(** [Math.round] leaves an integer as it is. *)
Lemma Math_round_integer (q : Q) (n : Z) : q == inject_Z n -> Math_round q = inject_Z n.
Proof.
  intros H. unfold Math_round.
  assert (E : q + (1 # 2) == inject_Z n + (1 # 2)) by (rewrite H; reflexivity).
  rewrite (Qfloor_comp _ _ E), Qfloor_half. reflexivity.
Qed.

Lemma moved_image (dragged : Z) (nextX nextY : Q) (prev : list PlacedImage.t)
  (image' : PlacedImage.t) :
  In image'
    (map (fun image =>
            if (PlacedImage.id image =? dragged)%Z
            then PlacedImage.mk (PlacedImage.id image) (PlacedImage.src image)
                   nextX nextY (PlacedImage.width image)
            else image)
       prev) ->
  PlacedImage.id image' = dragged ->
  PlacedImage.x image' = nextX /\ PlacedImage.y image' = nextY.
Proof.
  intros Hin Hid. apply in_map_iff in Hin. destruct Hin as (image & Himage & _).
  destruct (Z.eqb_spec (PlacedImage.id image) dragged) as [Heq|Hne].
  - subst image'. simpl. auto.
  - subst image'. contradiction.
Qed.

Lemma moved_note (dragged : Z) (nextX nextY : Q) (prev : list StickyNote.t)
  (note' : StickyNote.t) :
  In note'
    (map (fun note =>
            if (StickyNote.id note =? dragged)%Z
            then StickyNote.mk (StickyNote.id note) (StickyNote.text note)
                   nextX nextY (StickyNote.width note)
            else note)
       prev) ->
  StickyNote.id note' = dragged ->
  StickyNote.x note' = nextX /\ StickyNote.y note' = nextY.
Proof.
  intros Hin Hid. apply in_map_iff in Hin. destruct Hin as (note & Hnote & _).
  destruct (Z.eqb_spec (StickyNote.id note) dragged) as [Heq|Hne].
  - subst note'. simpl. auto.
  - subst note'. contradiction.
Qed.

(** C2 (amended).  After a pointer move of an active drag, the dragged image
    and the dragged note lie within the canvas in both axes: each coordinate
    is at least zero; when the element is not larger than the container it
    is at most the container's size less the element's, this difference
    being the one the code computes (the exact difference rounded to the
    nearest Number); and it is zero when the element is larger than the
    container.  The element's width is its own; the height of a note is
    136, and the height of an image is [Math.round(width * 0.75)]: the
    computed product rounded to the nearest integer, which is the product
    itself whenever the product is an integer. *)
Theorem drag_stays_within_canvas (rect : DOMRect.t) (event : PointerEvent.t)
  (st : AppState) :
  (forall dragged active image',
      draggingImageId st = Some dragged ->
      find (fun image => (PlacedImage.id image =? dragged)%Z) (placedImages st)
      = Some active ->
      In image' (placedImages (onPointerMoveImage (Some rect) event st)) ->
      PlacedImage.id image' = dragged ->
      withinCanvas (PlacedImage.x image') (DOMRect.width rect) (PlacedImage.width active) /\
      withinCanvas (PlacedImage.y image') (DOMRect.height rect)
        (imageHeight (PlacedImage.width active))) /\
  (forall dragged active note',
      draggingNoteId st = Some dragged ->
      find (fun note => (StickyNote.id note =? dragged)%Z) (stickyNotes st)
      = Some active ->
      In note' (stickyNotes (onPointerMoveNote (Some rect) event st)) ->
      StickyNote.id note' = dragged ->
      withinCanvas (StickyNote.x note') (DOMRect.width rect) (StickyNote.width active) /\
      withinCanvas (StickyNote.y note') (DOMRect.height rect) noteHeight) /\
  noteHeight == 136 /\
  (forall width,
      exists n : Z,
        imageHeight width = inject_Z n /\
        JSNumber.mul width (3 # 4) - (1 # 2) < imageHeight width /\
        imageHeight width <= JSNumber.mul width (3 # 4) + (1 # 2)) /\
  (forall width (n : Z),
      JSNumber.mul width (3 # 4) == inject_Z n -> imageHeight width = inject_Z n).
Proof.
  split; [ | split; [ | split; [ reflexivity | split ] ] ].
  - intros dragged active image' Hdrag Hfind Hin Hid.
    unfold onPointerMoveImage in Hin. rewrite Hdrag in Hin. simpl in Hin.
    rewrite Hfind in Hin.
    destruct (moved_image _ _ _ _ Hin Hid) as [-> ->].
    split; apply nextCoordinate_within.
  - intros dragged active note' Hdrag Hfind Hin Hid.
    unfold onPointerMoveNote in Hin. rewrite Hdrag in Hin. simpl in Hin.
    rewrite Hfind in Hin.
    destruct (moved_note _ _ _ _ Hin Hid) as [-> ->].
    split; apply nextCoordinate_within.
  - intros width.
    destruct (Math_round_spec (JSNumber.mul width (3 # 4))) as (n & Hn & Hlo & Hhi).
    exists n. auto.
  - intros width n H. apply Math_round_integer. exact H.
Qed.

(** The dragged elements of the sample are pushed to the far corner. *)
Example tiny_image_in_the_corner :
  map (fun image => (Qred (PlacedImage.x image), Qred (PlacedImage.y image)))
    (placedImages (onPointerMoveImage (Some smallCanvas) farAway draggingTiny))
  = [(7, 8)].
Proof. vm_compute. reflexivity. Qed.

Example wide_note_is_pinned :
  map (fun note => (Qred (StickyNote.x note), Qred (StickyNote.y note)))
    (stickyNotes (onPointerMoveNote (Some smallCanvas) farAway draggingTiny))
  = [(0, 0)].
Proof. vm_compute. reflexivity. Qed.

(** The bound is the computed difference, not the exact one: in a
    container [0.7] wide an element [0.1] wide can be dragged to [0.6],
    beyond the exact difference of the two Numbers. *)
Example bound_is_the_rounded_difference :
  nextCoordinate 100 0 0 sevenTenths oneTenth == JSNumber.numberValue (6 # 10) /\
  sevenTenths - oneTenth < nextCoordinate 100 0 0 sevenTenths oneTenth.
Proof. split; vm_compute; reflexivity. Qed.

(** C2, as stated, fails on the height of an image: an image three wide is
    two high for the clamp (2.25 rounded), so in a canvas ten high it can be
    dragged to [y = 8], which is more than [10 - 3 * 0.75]. *)
Lemma drag_exceeds_three_quarters_height :
  exists image',
    placedImages (onPointerMoveImage (Some smallCanvas) farAway draggingTiny) = [image'] /\
    PlacedImage.id image' = PlacedImage.id tinyImage /\
    PlacedImage.y image' == 8 /\
    ~ (PlacedImage.y image'
       <= DOMRect.height smallCanvas - PlacedImage.width tinyImage * (3 # 4)).
Proof.
  eexists. split; [ reflexivity | ].
  split; [ reflexivity | ].
  split; [ vm_compute; reflexivity | ].
  vm_compute. intros H. apply H. reflexivity.
Qed.

Lemma drag_stays_within_canvas_witness :
  withinCanvas 7 (DOMRect.width smallCanvas) (PlacedImage.width tinyImage) /\
  withinCanvas 8 (DOMRect.height smallCanvas) (imageHeight (PlacedImage.width tinyImage)) /\
  withinCanvas 0 (DOMRect.width smallCanvas) (StickyNote.width note1) /\
  withinCanvas 0 (DOMRect.height smallCanvas) noteHeight.
Proof.
  pose proof (drag_stays_within_canvas smallCanvas farAway draggingTiny) as (Himage & Hnote & _).
  destruct (Himage 1%Z tinyImage (PlacedImage.mk 1 (js "data:") 7 8 3)
              eq_refl eq_refl) as [Hx Hy].
  - left. vm_compute. reflexivity.
  - reflexivity.
  - destruct (Hnote 2%Z note1 (StickyNote.mk 2 (js "New sticky note...") 0 0 180)
                eq_refl eq_refl) as [Hnx Hny].
    + left. vm_compute. reflexivity.
    + reflexivity.
    + exact (conj Hx (conj Hy (conj Hnx Hny))).
Defined.

End Drag.

(** ** The browse view *)

Module Browse.
Import Page Spec Samples.

(** *** Date keys *)

Lemma to_int_neither_nil (n : Z) :
  Z.to_int n <> Decimal.Pos Decimal.Nil /\ Z.to_int n <> Decimal.Neg Decimal.Nil.
Proof.
  destruct n; simpl; split; try discriminate;
    intros [= H]; exact (DecimalPos.Unsigned.to_uint_nonnil _ H).
Qed.

(** [String(n)] tells integers apart. *)
Lemma String_of_Z_inj (a b : Z) : String_of_Z a = String_of_Z b -> a = b.
Proof.
  unfold String_of_Z. intros H. apply js_inj in H.
  apply DecimalZ.to_int_inj.
  destruct (to_int_neither_nil a) as [Ha1 Ha2], (to_int_neither_nil b) as [Hb1 Hb2].
  pose proof (NilZero.isi _ Ha1 Ha2) as Ia. pose proof (NilZero.isi _ Hb1 Hb2) as Ib.
  rewrite H in Ia. congruence.
Qed.

Lemma below_100 (P : Z -> bool) :
  forallb P (map Z.of_nat (seq 0 100)) = true ->
  forall z, (0 <= z < 100)%Z -> P z = true.
Proof.
  intros H z Hz. rewrite forallb_forall in H. apply H.
  apply in_map_iff. exists (Z.to_nat z). split; [ lia | ].
  apply in_seq. lia.
Qed.

Lemma pad2_length (n : Z) : (0 <= n < 100)%Z -> length (pad2 n) = 2%nat.
Proof.
  intros H.
  apply Nat.eqb_eq.
  apply (below_100 (fun z => (length (pad2 z) =? 2)%nat)); [ vm_compute; reflexivity | exact H ].
Qed.

Lemma unpad2_pad2 (n : Z) : (0 <= n < 100)%Z -> unpad2 (pad2 n) = n.
Proof.
  intros H.
  apply Z.eqb_eq.
  apply (below_100 (fun z => (unpad2 (pad2 z) =? z)%Z)); [ vm_compute; reflexivity | exact H ].
Qed.

Lemma pad2_inj (a b : Z) :
  (0 <= a < 100)%Z -> (0 <= b < 100)%Z -> pad2 a = pad2 b -> a = b.
Proof.
  intros Ha Hb H.
  rewrite <- (unpad2_pad2 Ha), <- (unpad2_pad2 Hb), H. reflexivity.
Qed.

Lemma app_inj_same_length {A : Type} (a b c d : list A) :
  a ++ b = c ++ d -> length b = length d -> a = c /\ b = d.
Proof.
  revert c. induction a as [|x a IH]; intros [|y c] H Hlen; simpl in *.
  - auto.
  - apply (f_equal (@length A)) in H. simpl in H. rewrite length_app in H. lia.
  - apply (f_equal (@length A)) in H. simpl in H. rewrite length_app in H. lia.
  - injection H as -> H. destruct (IH _ H Hlen) as [-> ->]. auto.
Qed.

Section WithRuntime.
Context {RT : Runtime}.
Hypothesis laws : HostLaws.

Lemma toDateKey_nonempty (d : Date) : toDateKey d <> [].
Proof.
  unfold toDateKey. intros H.
  apply (f_equal (@length N)) in H. rewrite !length_app in H. simpl in H. lia.
Qed.

(** Two dates have the same key exactly when they are the same day. *)
Lemma toDateKey_sameDay (a b : Date) : toDateKey a = toDateKey b <-> sameDay a b.
Proof.
  unfold sameDay, toDateKey.
  pose proof (month_range laws a) as Hma. pose proof (month_range laws b) as Hmb.
  pose proof (date_range laws a) as Hda. pose proof (date_range laws b) as Hdb.
  fold (pad2 (getMonth a + 1)) (pad2 (getDate a)) (pad2 (getMonth b + 1)) (pad2 (getDate b)).
  split.
  - intros H.
    apply app_inj_same_length in H.
    2:{ rewrite !length_app, !pad2_length by lia. reflexivity. }
    destruct H as [Hy H]. apply String_of_Z_inj in Hy.
    injection H as H.
    apply app_inj_same_length in H.
    2:{ simpl. rewrite !pad2_length by lia. reflexivity. }
    destruct H as [Hm H]. apply pad2_inj in Hm; [ | lia | lia ].
    injection H as H. apply pad2_inj in H; [ | lia | lia ].
    repeat split; lia.
  - intros (-> & -> & ->). reflexivity.
Qed.

(** *** The predicate of the filter *)

Lemma matchesText_spec (query : jsstring) (entry : MemoryEntry.t) :
  (if negb (truthy (toLowerCase (trim query))) then true
   else includes (toLowerCase (MemoryEntry.title entry)) (toLowerCase (trim query))
        || includes (toLowerCase (MemoryEntry.content entry)) (toLowerCase (trim query))
        || existsb
             (fun badge =>
                includes (toLowerCase (Badge.label badge)) (toLowerCase (trim query)))
             (MemoryEntry.badges entry)) = true
  <-> passesTextFilter query entry.
Proof.
  unfold passesTextFilter, isSubstring.
  destruct (truthy (toLowerCase (trim query))) eqn:E; simpl.
  - apply truthy_true_iff in E.
    rewrite !orb_true_iff, !includes_spec, existsb_exists.
    assert (Hq : trim query <> []) by (intros H; apply E; apply (lower_empty laws); exact H).
    split.
    + intros [[H | H] | (badge & Hin & H)].
      * right. left. exact H.
      * right. right. left. exact H.
      * right. right. right. exists badge. split; [ exact Hin | ].
        apply includes_spec. exact H.
    + intros [H | [H | [H | (badge & Hin & H)]]].
      * contradiction.
      * left. left. exact H.
      * left. right. exact H.
      * right. exists badge. split; [ exact Hin | ]. apply includes_spec. exact H.
  - apply truthy_false_iff in E. apply -> (lower_empty laws) in E.
    split; [ intros _; left; exact E | reflexivity ].
Qed.

(** C4.  The filtered view holds exactly the entries of the store that pass
    the date filter and the text filter.  The selected day reaches the
    filter as its date key; an entry passes the date filter when no day is
    selected or its label parses to a date of the selected year, month and
    day (an entry whose label does not parse passes only when no day is
    selected), and it passes the text filter when the trimmed query is empty
    or the lower-cased trimmed query occurs in the lower-cased title, content
    or label of one of its badges.  The view keeps the order of the store. *)
Theorem filteredEntries_exact (entries : list MemoryEntry.t) (query : jsstring)
  (selected : option Date) (entry : MemoryEntry.t) :
  (In entry (filteredEntries entries query (option_map toDateKey selected)) <->
   In entry entries /\ passesDateFilter selected entry /\ passesTextFilter query entry) /\
  (exists keep,
      filteredEntries entries query (option_map toDateKey selected) = filter keep entries) /\
  (parseDateLabel (MemoryEntry.dateLabel entry) = None ->
   selected <> None ->
   ~ In entry (filteredEntries entries query (option_map toDateKey selected))).
Proof.
  assert (Hmain :
    In entry (filteredEntries entries query (option_map toDateKey selected)) <->
    In entry entries /\ passesDateFilter selected entry /\ passesTextFilter query entry).
  { unfold filteredEntries. rewrite filter_In.
    apply and_iff_compat_l.
    destruct selected as [day|]; simpl.
    - destruct (toDateKey day) as [|c k] eqn:Ekey; [ exfalso; exact (toDateKey_nonempty day Ekey) | ].
      rewrite <- Ekey.
      destruct (parseDateLabel (MemoryEntry.dateLabel entry)) as [d|] eqn:Eparse.
      + destruct (eqb_str (toDateKey d) (toDateKey day)) eqn:Eeq; simpl.
        * apply eqb_str_true in Eeq. rewrite matchesText_spec.
          split; [ intros H; split; [ | exact H ] | tauto ].
          exists d. split; [ reflexivity | ]. apply toDateKey_sameDay. exact Eeq.
        * split; [ discriminate | ].
          intros [(d' & [= <-] & Hsame) _].
          apply toDateKey_sameDay in Hsame.
          apply eqb_str_true in Hsame. congruence.
      + simpl. split; [ discriminate | ].
        intros [(d' & Hd & _) _]. discriminate.
    - rewrite matchesText_spec. tauto. }
  split; [ exact Hmain | split ].
  - eexists. reflexivity.
  - intros Hparse Hsel Hin. apply Hmain in Hin.
    destruct Hin as (_ & Hdate & _).
    destruct selected as [day|]; [ | congruence ].
    destruct Hdate as (d & Hd & _). congruence.
Qed.

End WithRuntime.

(** The small host keeps the laws. *)
Lemma smallHost_laws : @HostLaws SmallHost.host.
Proof.
  constructor; simpl.
  - intros d. pose proof (Z.mod_pos_bound (d / 31) 12). lia.
  - intros d. pose proof (Z.mod_pos_bound d 31). lia.
  - intros s. unfold SmallHost.lower. split.
    + intros H. destruct s; [ reflexivity | discriminate ].
    + intros ->. reflexivity.
Qed.

#[local] Existing Instance SmallHost.host.

Example selecting_a_day :
  filteredEntries [readingDay; gymDay] [] (Some (toDateKey 4%Z)) = [gymDay].
Proof. vm_compute. reflexivity. Qed.

Example clearing_the_day :
  filteredEntries [readingDay; gymDay] [] None = [readingDay; gymDay].
Proof. vm_compute. reflexivity. Qed.

Example query_matches_badge :
  filteredEntries [readingDay; gymDay] (js " gym ") None = [gymDay].
Proof. vm_compute. reflexivity. Qed.

Lemma filteredEntries_exact_witness :
  In gymDay (filteredEntries [readingDay; gymDay] (js " gym ") (Some (toDateKey 4%Z))) <->
  In gymDay [readingDay; gymDay] /\
  passesDateFilter (Some 4%Z) gymDay /\ passesTextFilter (js " gym ") gymDay.
Proof.
  exact (proj1 (@filteredEntries_exact SmallHost.host smallHost_laws
                  [readingDay; gymDay] (js " gym ") (Some 4%Z) gymDay)).
Defined.

End Browse.

(** ** Stored entries: saving and loading *)

Module Stored.
Import Persist Spec Samples.

Lemma getProp_setProp_same {V : Type} (k : jsstring) (v : V) (fields : list (jsstring * V)) :
  getProp k (setProp k v fields) = Some v.
Proof.
  induction fields as [|[k' v'] r IH]; simpl.
  - destruct (eq_str_dec k k); congruence.
  - destruct (eq_str_dec k k') as [E|E]; simpl.
    + destruct (eq_str_dec k k'); congruence.
    + destruct (eq_str_dec k k'); congruence.
Qed.

Lemma getProp_setProp_other {V : Type} (k k0 : jsstring) (v : V)
  (fields : list (jsstring * V)) :
  k0 <> k -> getProp k0 (setProp k v fields) = getProp k0 fields.
Proof.
  intros Hne. induction fields as [|[k' v'] r IH]; simpl.
  - destruct (eq_str_dec k0 k); congruence.
  - destruct (eq_str_dec k k') as [E|E]; simpl.
    + subst k'. destruct (eq_str_dec k0 k); congruence.
    + destruct (eq_str_dec k0 k'); congruence.
Qed.

(** Writing the value a property already has changes nothing. *)
Lemma setProp_same_value {V : Type} (k : jsstring) (v : V) (fields : list (jsstring * V)) :
  getProp k fields = Some v -> setProp k v fields = fields.
Proof.
  induction fields as [|[k' v'] r IH]; simpl; [ discriminate | ].
  destruct (eq_str_dec k k') as [E|E].
  - intros [= ->]. reflexivity.
  - intros H. rewrite (IH H). reflexivity.
Qed.

Lemma hasNumericId_spec (entry : json) : hasNumericId entry = true <-> numericId entry.
Proof.
  unfold numericId. split.
  - destruct entry as [| | | | |fields]; simpl; try discriminate.
    destruct (getProp (js "id") fields) as [[| | q | | |]|] eqn:E; try discriminate.
    intros _. exists fields, q. auto.
  - intros (fields & q & -> & H). simpl. rewrite H. reflexivity.
Qed.

Lemma badgesOrEmpty_is_list (fields : list (jsstring * json)) :
  exists badges, badgesOrEmpty fields = JArr badges.
Proof.
  unfold badgesOrEmpty.
  destruct (getProp (js "badges") fields) as [[| | | | badges |]|]; eexists; reflexivity.
Qed.

(** What the load does to a record it keeps. *)
Lemma withBadges_sanitized (entry : json) :
  hasNumericId entry = true -> sanitized entry (withBadges entry).
Proof.
  intros H. apply hasNumericId_spec in H. destruct H as (fields & q & -> & _).
  exists fields, (setProp (js "badges") (badgesOrEmpty fields) fields).
  split; [ reflexivity | split; [ reflexivity | ] ].
  split; [ intros k Hk; apply getProp_setProp_other; exact Hk | ].
  rewrite getProp_setProp_same.
  split; [ | split ].
  - intros Hnone. unfold badgesOrEmpty. rewrite Hnone. reflexivity.
  - intros badges Hsome. unfold badgesOrEmpty. rewrite Hsome. reflexivity.
  - destruct (badgesOrEmpty_is_list fields) as [badges ->]. exists badges. reflexivity.
Qed.

Lemma sanitizeEntries_sanitized (parsed : list json) :
  Forall2 sanitized (filter hasNumericId parsed) (sanitizeEntries parsed).
Proof.
  unfold sanitizeEntries.
  induction parsed as [|entry rest IH]; simpl; [ constructor | ].
  destruct (hasNumericId entry) eqn:E; simpl; [ | exact IH ].
  constructor; [ apply withBadges_sanitized; exact E | exact IH ].
Qed.

Ltac decide_keys :=
  repeat match goal with
    | |- context [eq_str_dec (js ?a) (js ?b)] =>
        let E := fresh "E" in
        destruct (eq_str_dec (js a) (js b)) as [E|E];
        [ try (apply js_inj in E; discriminate E)
        | try (exfalso; apply E; reflexivity) ]
    end.

Lemma jsonOfEntry_id (e : MemoryEntry.t) : hasNumericId (jsonOfEntry e) = true.
Proof. unfold jsonOfEntry, hasNumericId. cbn [getProp app]. decide_keys. reflexivity. Qed.

Lemma jsonOfEntry_badges (e : MemoryEntry.t) : withBadges (jsonOfEntry e) = jsonOfEntry e.
Proof.
  unfold jsonOfEntry.
  match goal with |- withBadges (JObj ?fs) = _ => set (fields := fs) end.
  change (JObj (setProp (js "badges") (badgesOrEmpty fields) fields) = JObj fields).
  rewrite setProp_same_value; [ reflexivity | ].
  subst fields. unfold badgesOrEmpty.
  destruct (MemoryEntry.images e), (MemoryEntry.notes e);
    cbn [getProp app optional option_map]; decide_keys; reflexivity.
Qed.

(** A well-typed store comes back as it was. *)
Lemma sanitizeEntries_typed (typed : list MemoryEntry.t) :
  sanitizeEntries (map jsonOfEntry typed) = map jsonOfEntry typed.
Proof.
  unfold sanitizeEntries.
  induction typed as [|e rest IH]; [ reflexivity | ].
  cbn [map filter]. rewrite jsonOfEntry_id. cbn [map].
  rewrite jsonOfEntry_badges. f_equal. exact IH.
Qed.

Section WithRuntime.
Context {RT : Runtime}.

(** A write that succeeds is read back through the parser. *)
Lemma load_after_save (localStorage : Storage.t) (key : jsstring) (entries : list json) :
  Storage.denied localStorage = false ->
  (length (JSON_stringify (JArr entries)) <= Storage.room localStorage)%nat ->
  JSON_stringify (JArr entries) <> [] ->
  JSON_parse (JSON_stringify (JArr entries)) = Some (JArr entries) ->
  readStoredEntries (persistEntries (Some localStorage) key entries) key
  = sanitizeEntries entries.
Proof.
  intros Hopen Hroom Htext Hparse.
  unfold persistEntries, Storage.setItem. rewrite Hopen.
  apply Nat.leb_le in Hroom. rewrite Nat.ltb_antisym, Hroom. simpl.
  unfold readStoredEntries, Storage.getItem. simpl.
  rewrite getProp_setProp_same.
  destruct (JSON_stringify (JArr entries)) as [|c raw] eqn:E; [ congruence | ].
  rewrite Hparse. reflexivity.
Qed.

(** C3.  Where the write to local storage succeeds and the host's parser
    reads the host's JSON text of the list back as the list, loading after
    saving yields the saved records that have a numeric id, in their order,
    each with the same properties but for [badges], which is the empty list
    when it was missing (or not a list) and is unchanged otherwise; a record
    without a numeric id is dropped; and a store of well-typed entries comes
    back unchanged. *)
Theorem save_then_load (localStorage : Storage.t) (key : jsstring) (entries : list json) :
  Storage.denied localStorage = false ->
  (length (JSON_stringify (JArr entries)) <= Storage.room localStorage)%nat ->
  JSON_stringify (JArr entries) <> [] ->
  JSON_parse (JSON_stringify (JArr entries)) = Some (JArr entries) ->
  Forall2 sanitized (filter hasNumericId entries)
    (readStoredEntries (persistEntries (Some localStorage) key entries) key) /\
  (forall entry,
      In entry (filter hasNumericId entries) <-> In entry entries /\ numericId entry) /\
  (forall typed,
      entries = map jsonOfEntry typed ->
      readStoredEntries (persistEntries (Some localStorage) key entries) key = entries).
Proof.
  intros Hopen Hroom Htext Hparse.
  rewrite (load_after_save _ _ Hopen Hroom Htext Hparse).
  split; [ apply sanitizeEntries_sanitized | split ].
  - intros entry. rewrite filter_In, hasNumericId_spec. reflexivity.
  - intros typed ->. apply sanitizeEntries_typed.
Qed.

(** A write that fails leaves the storage as it was. *)
Lemma persistEntries_denied (localStorage : Storage.t) (key : jsstring)
  (entries : list json) :
  Storage.denied localStorage = true ->
  persistEntries (Some localStorage) key entries = Some localStorage.
Proof.
  intros H. unfold persistEntries, Storage.setItem. rewrite H. reflexivity.
Qed.

End WithRuntime.

#[local] Existing Instance SmallHost.host.

Lemma save_then_load_witness :
  JSON_parse (JSON_stringify (JArr storedRecords)) = Some (JArr storedRecords) /\
  Forall2 sanitized (filter hasNumericId storedRecords)
    (readStoredEntries (persistEntries (Some emptyStorage) storageKey storedRecords)
       storageKey).
Proof.
  assert (Hparse : JSON_parse (JSON_stringify (JArr storedRecords))
                   = Some (JArr storedRecords)) by (vm_compute; reflexivity).
  split; [ exact Hparse | ].
  apply (@save_then_load SmallHost.host emptyStorage storageKey storedRecords).
  - reflexivity.
  - apply Nat.leb_le. vm_compute. reflexivity.
  - vm_compute. discriminate.
  - exact Hparse.
Defined.

(** The sample comes back without the record that has no id, and with an
    empty list of badges on the other. *)
Example stored_records_loaded :
  readStoredEntries (persistEntries (Some emptyStorage) storageKey storedRecords)
    storageKey
  = [ JObj [ (js "id", JNum 5); (js "title", JStr (js "Lake")); (js "badges", JArr []) ] ].
Proof. vm_compute. reflexivity. Qed.

End Stored.

(** ** The OCR route *)

Module OcrRoute.
Import Ocr Spec Samples.

(** The text of a payload is made of the fragments of its first candidate. *)
Lemma extractText_first (payload : GeminiResponse.t) :
  extractText payload = joinedAndTrimmed (firstFragments payload).
Proof.
  unfold extractText, joinedAndTrimmed, firstFragments, fragmentsOf.
  destruct payload as [[[|[[[[parts|]]|]] rest]|]]; reflexivity.
Qed.

Lemma firstFragments_all (payload : GeminiResponse.t) :
  (forall first second rest,
      GeminiResponse.candidates payload <> Some (first :: second :: rest)) ->
  firstFragments payload = allFragments payload.
Proof.
  unfold firstFragments, allFragments.
  destruct payload as [[[|first [|second rest]]|]]; simpl; intros H.
  - reflexivity.
  - rewrite app_nil_r. reflexivity.
  - exfalso. exact (H _ _ _ eq_refl).
  - reflexivity.
Qed.

Section WithHost.
Context {RT : Runtime}.
Variable callGemini : jsstring -> jsstring -> jsstring -> jsstring -> FetchResponse.

(** The message of a failed attempt. *)
Lemma errorMessage_not_json (raw : jsstring) :
  JSON_parse raw = None -> errorMessage raw = JStr raw.
Proof. unfold errorMessage. intros ->. reflexivity. Qed.

Lemma errorMessage_parsed (raw : jsstring) (message : json) :
  providerMessage raw message -> errorMessage raw = message.
Proof.
  unfold errorMessage. intros (fields & error & -> & -> & -> & Hnull).
  destruct message; try reflexivity. congruence.
Qed.

(** Without a provider message the raw body stands in. *)
Lemma errorMessage_no_message (raw : jsstring) :
  (forall message, ~ providerMessage raw message) -> errorMessage raw = JStr raw.
Proof.
  unfold errorMessage. intros H.
  destruct (JSON_parse raw) as [[| | | | |fields]|] eqn:P; try reflexivity.
  destruct (getProp (js "error") fields) as [[| | | | |error]|] eqn:E; try reflexivity.
  destruct (getProp (js "message") error) as [message|] eqn:M; [ | reflexivity ].
  destruct message; try reflexivity;
    exfalso; eapply H; exists fields, error;
    (split; [ exact P | split; [ exact E | split; [ exact M | discriminate ] ] ]).
Qed.

(** The loop calls the models in order up to the first that answers. *)
Lemma attempt_first_success (apiKey mimeType base64 : jsstring)
  (failed : list jsstring) (model : jsstring) (later : list jsstring)
  (payload : GeminiResponse.t) (lastError : json) (called : list jsstring) :
  (forall m, In m failed -> exists raw, callGemini apiKey m mimeType base64 = NotOk raw) ->
  callGemini apiKey model mimeType base64 = Ok payload ->
  attempt callGemini apiKey mimeType base64 (failed ++ model :: later) lastError called
  = (Responded (HttpResponse.mk 200 (JObj [ (js "text", JStr (extractText payload)) ])),
     called ++ failed ++ [model]).
Proof.
  revert lastError called.
  induction failed as [|m failed IH]; intros lastError called Hfailed Hok; simpl.
  - rewrite Hok. reflexivity.
  - destruct (Hfailed m (or_introl eq_refl)) as [raw ->].
    rewrite IH; [ | intros m' Hm'; apply Hfailed; right; exact Hm' | exact Hok ].
    rewrite <- app_assoc. reflexivity.
Qed.

(** C8 (amended).  The handler answers 500 with the error "Missing
    GEMINI_API_KEY in environment." whenever the API key is absent, whatever
    the request, and calls nobody.  With a key, a request whose JSON body
    lacks [mimeType] or [base64] is answered 400 with an [error] field, and
    the provider is not called.  With a key and both fields, when the
    provider answers each of the three models with a failure status, the
    answer is 502 with an [error] field and with [details] the error message
    of the last attempt; that message is the provider's [error.message] when
    the failure body is a JSON object whose [error] is an object with a
    [message] that is not [null], and the raw body in every other case, in
    particular when the body is not JSON. *)
Theorem POST_errors (key : option jsstring) (request : RequestJson) :
  (keyAbsent key ->
   POST callGemini key request
   = (Responded
        (HttpResponse.mk 500 (errorBody "Missing GEMINI_API_KEY in environment.")),
      [])) /\
  (forall body,
      ~ keyAbsent key ->
      request = Body body ->
      lacksField body ->
      POST callGemini key request
      = (Responded (HttpResponse.mk 400 (errorBody "mimeType and base64 are required.")),
         [])) /\
  (forall apiKey mimeType base64 raw1 raw2 raw3,
      key = Some apiKey -> apiKey <> [] ->
      request = Body (Some (OcrBody.mk (Some mimeType) (Some base64))) ->
      mimeType <> [] -> base64 <> [] ->
      callGemini apiKey (js "gemini-2.5-flash") mimeType base64 = NotOk raw1 ->
      callGemini apiKey (js "gemini-2.0-flash") mimeType base64 = NotOk raw2 ->
      callGemini apiKey (js "gemini-flash-latest") mimeType base64 = NotOk raw3 ->
      POST callGemini key request
      = (Responded
           (HttpResponse.mk 502
              (JObj [ (js "error", JStr (js "Gemini OCR request failed."));
                      (js "details", errorMessage raw3) ])),
         models)) /\
  (forall raw, JSON_parse raw = None -> errorMessage raw = JStr raw) /\
  (forall raw message, providerMessage raw message -> errorMessage raw = message) /\
  (forall raw, (forall message, ~ providerMessage raw message) -> errorMessage raw = JStr raw).
Proof.
  split; [ | split; [ | split; [ | split; [ | split ] ] ] ].
  - intros [-> | ->]; reflexivity.
  - intros body Hkey -> Hlack.
    destruct key as [[|k apiKey]|];
      [ exfalso; apply Hkey; right; reflexivity
      | | exfalso; apply Hkey; left; reflexivity ].
    destruct body as [[[[|m mt]|] [[|b b64]|]]|]; simpl in Hlack; try reflexivity.
    destruct Hlack as [H | [H | [H | H]]]; discriminate.
  - intros apiKey mimeType base64 raw1 raw2 raw3 -> Hkey -> Hm Hb H1 H2 H3.
    destruct apiKey as [|k apiKey]; [ congruence | ].
    destruct mimeType as [|m mt]; [ congruence | ].
    destruct base64 as [|b b64]; [ congruence | ].
    unfold POST, models. cbn [attempt].
    rewrite H1, H2, H3. reflexivity.
  - apply errorMessage_not_json.
  - apply errorMessage_parsed.
  - apply errorMessage_no_message.
Qed.

(** C9 (amended).  With a key and both fields, when the provider answers
    the models before some model with a failure status and that model
    answers with a payload, the handler has called exactly those models, in
    the configured order, and answers 200 with [text] the text extracted
    from that answer: the text fragments of the parts of the payload's first
    candidate (a part without text counting as the empty fragment), joined
    by line feeds and trimmed.  For a payload with at most one candidate
    these are all the fragments of the payload. *)
Theorem POST_first_success (apiKey mimeType base64 : jsstring)
  (failed : list jsstring) (model : jsstring) (later : list jsstring)
  (payload : GeminiResponse.t) :
  apiKey <> [] -> mimeType <> [] -> base64 <> [] ->
  models = failed ++ model :: later ->
  (forall m, In m failed -> exists raw, callGemini apiKey m mimeType base64 = NotOk raw) ->
  callGemini apiKey model mimeType base64 = Ok payload ->
  POST callGemini (Some apiKey)
    (Body (Some (OcrBody.mk (Some mimeType) (Some base64))))
  = (Responded
       (HttpResponse.mk 200 (JObj [ (js "text", JStr (extractText payload)) ])),
     failed ++ [model]) /\
  extractText payload = joinedAndTrimmed (firstFragments payload) /\
  ((forall first second rest,
       GeminiResponse.candidates payload <> Some (first :: second :: rest)) ->
   extractText payload = joinedAndTrimmed (allFragments payload)).
Proof.
  intros Hkey Hm Hb Hmodels Hfailed Hok.
  split; [ | split ].
  - destruct apiKey as [|k apiKey]; [ congruence | ].
    destruct mimeType as [|m mt]; [ congruence | ].
    destruct base64 as [|b b64]; [ congruence | ].
    unfold POST. rewrite Hmodels.
    erewrite attempt_first_success; [ reflexivity | exact Hfailed | exact Hok ].
  - apply extractText_first.
  - intros Hone. rewrite extractText_first, (firstFragments_all _ Hone). reflexivity.
Qed.

End WithHost.

#[local] Existing Instance SmallHost.host.

Lemma POST_first_success_witness :
  POST secondAnswers (Some (js "k")) (Body (Some pngBody))
  = (Responded (HttpResponse.mk 200 (JObj [ (js "text", JStr (js "a")) ])),
     [js "gemini-2.5-flash"; js "gemini-2.0-flash"]).
Proof.
  apply (proj1
           (@POST_first_success SmallHost.host secondAnswers (js "k") (js "image/png")
              (js "AAAA") [js "gemini-2.5-flash"] (js "gemini-2.0-flash")
              [js "gemini-flash-latest"] twoCandidates
              ltac:(discriminate) ltac:(discriminate) ltac:(discriminate) eq_refl
              ltac:(intros m [<- | []]; exists (js "busy"); reflexivity)
              eq_refl)).
Defined.

(** All three models refusing: 502 with the message of the last one. *)
Example all_models_refuse :
  POST refusing (Some (js "k")) (Body (Some pngBody))
  = (Responded
       (HttpResponse.mk 502
          (JObj [ (js "error", JStr (js "Gemini OCR request failed."));
                  (js "details", JStr (js "quota: gemini-flash-latest")) ])),
     models).
Proof. vm_compute. reflexivity. Qed.

(** C8, as stated, fails on the order of the checks: a request without
    [base64] is answered 500, not 400, when the API key is absent; and with
    a key, a request whose body is not JSON is not answered at all. *)
Lemma POST_missing_field_without_key :
  (exists response,
      POST refusing None (Body (Some bodyWithoutData)) = (Responded response, []) /\
      HttpResponse.status response = 500%Z /\
      HttpResponse.status response <> 400%Z) /\
  POST refusing (Some (js "k")) NotJson = (Rejected, []).
Proof.
  split; [ | reflexivity ].
  eexists. split; [ reflexivity | ]. split; [ reflexivity | discriminate ].
Qed.

(** C9, as stated, fails on a payload of two candidates: the text is the
    fragment of the first candidate alone, not the two fragments joined. *)
Lemma extractText_ignores_second_candidate :
  allFragments twoCandidates = [js "a"; js "b"] /\
  extractText twoCandidates = js "a" /\
  extractText twoCandidates <> joinedAndTrimmed (allFragments twoCandidates) /\
  POST secondAnswers (Some (js "k")) (Body (Some pngBody))
  = (Responded (HttpResponse.mk 200 (JObj [ (js "text", JStr (js "a")) ])),
     [js "gemini-2.5-flash"; js "gemini-2.0-flash"]).
Proof.
  split; [ reflexivity | ].
  split; [ vm_compute; reflexivity | ].
  split; [ vm_compute; discriminate | vm_compute; reflexivity ].
Qed.

Lemma POST_errors_witness :
  POST refusing (Some (js "k")) (Body (Some bodyWithoutData))
  = (Responded (HttpResponse.mk 400 (errorBody "mimeType and base64 are required.")), []) /\
  POST refusing (Some (js "k")) (Body (Some pngBody))
  = (Responded
       (HttpResponse.mk 502
          (JObj [ (js "error", JStr (js "Gemini OCR request failed."));
                  (js "details", JStr (js "quota: gemini-flash-latest")) ])),
     models).
Proof.
  split.
  - apply (proj1 (proj2 (@POST_errors SmallHost.host refusing (Some (js "k"))
                           (Body (Some bodyWithoutData))))
             (Some bodyWithoutData)).
    + intros [H | H]; discriminate.
    + reflexivity.
    + right. right. left. reflexivity.
  - rewrite (proj1 (proj2 (proj2 (@POST_errors SmallHost.host refusing (Some (js "k"))
                                    (Body (Some pngBody)))))
               (js "k") (js "image/png") (js "AAAA") _ _ _
               eq_refl ltac:(discriminate) eq_refl ltac:(discriminate) ltac:(discriminate)
               eq_refl eq_refl eq_refl).
    vm_compute. reflexivity.
Defined.

End OcrRoute.

(** ** Scan templating *)

Module Scan.
Import Page Spec Samples.

(** *** The replacements terminate within their fuel *)

Lemma rx_char_consuming (c : N) : consuming (rx_char c).
Proof.
  intros [|d s] rest; simpl; [ discriminate | ].
  destruct (d =? c)%N; [ intros [= ->]; lia | discriminate ].
Qed.

Lemma rx_plus_consuming (cls : N -> bool) (k : matcher) :
  (forall s rest, k s = Some rest -> (length rest <= length s)%nat) ->
  consuming (rx_plus cls k).
Proof.
  intros Hk s. induction s as [|c s IH]; intros rest; simpl; [ discriminate | ].
  destruct (cls c); [ | discriminate ].
  destruct (rx_plus cls k s) as [t|] eqn:E.
  - intros [= ->]. specialize (IH _ eq_refl). lia.
  - intros H. apply Hk in H. lia.
Qed.

Lemma rx_ws_nl_consuming : consuming rx_ws_nl.
Proof.
  apply rx_plus_consuming. intros s rest H.
  apply rx_char_consuming in H. lia.
Qed.

Lemma rx_nl3_consuming : consuming rx_nl3.
Proof.
  intros s rest. unfold rx_nl3.
  destruct (rx_char nl s) as [s1|] eqn:E1; [ | discriminate ].
  destruct (rx_char nl s1) as [s2|] eqn:E2; [ | discriminate ].
  intros H.
  apply rx_char_consuming in E1, E2.
  apply rx_plus_consuming in H; [ lia | ].
  intros t r [= ->]. lia.
Qed.

(** More fuel than the length changes nothing: the scan always reaches the
    end of the string. *)
Lemma replaceAll_fuel_enough (m : matcher) (rep : jsstring) :
  consuming m ->
  forall fuel s, (length s <= fuel)%nat ->
                 replaceAll_fuel fuel m rep s = replaceAll m rep s.
Proof.
  intros Hm.
  assert (H : forall f1 f2 s, (length s <= f1)%nat -> (length s <= f2)%nat ->
                              replaceAll_fuel f1 m rep s = replaceAll_fuel f2 m rep s).
  { induction f1 as [|f1 IH]; intros f2 s H1 H2.
    - destruct s; [ | simpl in H1; lia ]. destruct f2; reflexivity.
    - destruct f2 as [|f2]; [ destruct s; [ reflexivity | simpl in H2; lia ] | ].
      destruct s as [|c r]; [ reflexivity | ]. simpl in H1, H2.
      cbn [replaceAll_fuel].
      destruct (m (c :: r)) as [rest|] eqn:E.
      + apply Hm in E. simpl in E. f_equal. apply IH; lia.
      + f_equal. apply IH; lia. }
  intros fuel s Hs. unfold replaceAll. apply H; lia.
Qed.

(** The scan, one step at a time. *)
Lemma replaceAll_step (m : matcher) (rep : jsstring) (c : N) (r : jsstring) :
  consuming m ->
  replaceAll m rep (c :: r)
  = match m (c :: r) with
    | Some rest => rep ++ replaceAll m rep rest
    | None => c :: replaceAll m rep r
    end.
Proof.
  intros Hm. unfold replaceAll at 1. cbn [length replaceAll_fuel].
  destruct (m (c :: r)) as [rest|] eqn:E.
  - apply Hm in E. simpl in E. rewrite replaceAll_fuel_enough by (auto; lia). reflexivity.
  - rewrite replaceAll_fuel_enough by (auto; lia). reflexivity.
Qed.

(** *** No blank line survives the first replacement *)

Lemma not_ws_not_nl (c : N) : isWhiteSpace c = false -> (c =? nl)%N = false.
Proof.
  intros H. destruct (N.eqb_spec c nl) as [->|]; [ | reflexivity ].
  vm_compute in H. discriminate.
Qed.

Lemma noBlankLine_cons (a : N) (t : jsstring) :
  noBlankLine (a :: t)
  = negb ((a =? nl)%N && startsWithLineFeed t) && noBlankLine t.
Proof.
  destruct t as [|b t]; [ | reflexivity ].
  simpl. rewrite andb_false_r. reflexivity.
Qed.

Lemma quiet_no_match (s : jsstring) : quiet s = true -> rx_ws_nl s = None.
Proof.
  unfold rx_ws_nl.
  induction s as [|c t IH]; simpl; [ reflexivity | ].
  destruct (isWhiteSpace c) eqn:Ec; [ | reflexivity ].
  intros H. apply andb_true_iff in H. destruct H as [_ Ht].
  rewrite (IH Ht).
  destruct t as [|d u]; [ reflexivity | ]. simpl in Ht |- *.
  destruct (isWhiteSpace d) eqn:Ed.
  - apply andb_true_iff in Ht. destruct Ht as [Hd _].
    apply negb_true_iff in Hd. rewrite Hd. reflexivity.
  - rewrite (not_ws_not_nl _ Ed). reflexivity.
Qed.

Lemma no_match_quiet (t : jsstring) :
  forall c, isWhiteSpace c = true -> rx_ws_nl (c :: t) = None -> quiet t = true.
Proof.
  unfold rx_ws_nl.
  induction t as [|d u IH]; intros c Hc H; [ reflexivity | ].
  cbn [rx_plus] in H. rewrite Hc in H. cbn [quiet].
  destruct (isWhiteSpace d) eqn:Ed; [ | reflexivity ].
  destruct (rx_plus isWhiteSpace (rx_char nl) u) as [r|] eqn:Eu; [ discriminate | ].
  destruct (rx_char nl u) as [r'|] eqn:Ek; [ discriminate | ].
  apply andb_true_iff. split.
  - simpl in H. destruct (d =? nl)%N; [ discriminate | reflexivity ].
  - apply (IH d Ed). cbn [rx_plus]. rewrite Ed, Eu, Ek. reflexivity.
Qed.

Lemma match_rest_quiet (s rest : jsstring) : rx_ws_nl s = Some rest -> quiet rest = true.
Proof.
  unfold rx_ws_nl.
  induction s as [|c t IH]; simpl; [ discriminate | ].
  destruct (isWhiteSpace c) eqn:Ec; [ | discriminate ].
  destruct (rx_plus isWhiteSpace (rx_char nl) t) as [r|] eqn:Et.
  - intros [= ->]. apply IH. reflexivity.
  - destruct t as [|d u]; simpl; [ discriminate | ].
    destruct (N.eqb_spec d nl) as [->|]; [ | discriminate ].
    intros [= ->]. exact (@no_match_quiet rest nl eq_refl Et).
Qed.

Lemma quiet_head (c : N) (t : jsstring) : quiet (c :: t) = true -> (c =? nl)%N = false.
Proof.
  simpl. destruct (isWhiteSpace c) eqn:Ec.
  - intros H. apply andb_true_iff in H. destruct H as [H _].
    apply negb_true_iff in H. exact H.
  - intros _. apply not_ws_not_nl. exact Ec.
Qed.

(** After the first replacement no two line feeds are adjacent; and the
    result does not begin with a line feed when the string begins quietly. *)
Lemma first_replacement (n : nat) :
  forall s, (length s <= n)%nat ->
            noBlankLine (replaceAll rx_ws_nl [nl] s) = true /\
            (quiet s = true -> startsWithLineFeed (replaceAll rx_ws_nl [nl] s) = false).
Proof.
  induction n as [|n IH]; intros s Hs.
  - destruct s; [ split; reflexivity | simpl in Hs; lia ].
  - destruct s as [|c t]; [ split; reflexivity | ]. simpl in Hs.
    rewrite (replaceAll_step [nl] c t rx_ws_nl_consuming).
    destruct (rx_ws_nl (c :: t)) as [rest|] eqn:E.
    + pose proof (rx_ws_nl_consuming _ E) as Hlen. simpl in Hlen.
      destruct (IH rest ltac:(lia)) as [Hno Hhead].
      split.
      * change ([nl] ++ replaceAll rx_ws_nl [nl] rest)
          with (nl :: replaceAll rx_ws_nl [nl] rest).
        rewrite noBlankLine_cons, Hno, (Hhead (match_rest_quiet _ E)).
        reflexivity.
      * intros Hq. rewrite (quiet_no_match _ Hq) in E. discriminate.
    + destruct (IH t ltac:(lia)) as [Hno Hhead].
      split.
      * rewrite noBlankLine_cons, Hno.
        destruct (N.eqb_spec c nl) as [->|Hc]; [ | reflexivity ].
        rewrite (Hhead (@no_match_quiet t nl eq_refl E)). reflexivity.
      * intros Hq. simpl. exact (quiet_head _ _ Hq).
Qed.

(** So the second replacement finds nothing to replace. *)
Lemma second_replacement_inert (rep s : jsstring) :
  noBlankLine s = true -> replaceAll rx_nl3 rep s = s.
Proof.
  induction s as [|c t IH]; intros H; [ reflexivity | ].
  rewrite (replaceAll_step rep c t rx_nl3_consuming).
  rewrite noBlankLine_cons in H. apply andb_true_iff in H. destruct H as [Hhead Ht].
  assert (E : rx_nl3 (c :: t) = None).
  { unfold rx_nl3. simpl.
    destruct (c =? nl)%N; [ | reflexivity ].
    destruct t as [|d u]; [ reflexivity | ]. simpl in Hhead |- *.
    destruct (d =? nl)%N; [ discriminate | reflexivity ]. }
  rewrite E, (IH Ht). reflexivity.
Qed.

Lemma noBlankLine_no_factor (s : jsstring) :
  noBlankLine s = true -> ~ isSubstring [nl; nl] s.
Proof.
  intros H (pre & post & ->). revert H.
  induction pre as [|a pre IH].
  - simpl. discriminate.
  - change ((a :: pre) ++ [nl; nl] ++ post) with (a :: (pre ++ [nl; nl] ++ post)).
    rewrite noBlankLine_cons. intros H. apply andb_true_iff in H. tauto.
Qed.

Lemma trimStart_suffix (s : jsstring) : exists w, s = w ++ trimStart s.
Proof.
  induction s as [|c t [w IH]]; simpl.
  - exists []. reflexivity.
  - destruct (isWhiteSpace c).
    + exists (c :: w). simpl. f_equal. exact IH.
    + exists []. reflexivity.
Qed.

Lemma trim_factor (s : jsstring) : exists a b, s = a ++ trim s ++ b.
Proof.
  unfold trim, trimEnd.
  destruct (trimStart_suffix s) as [a Ha].
  destruct (trimStart_suffix (rev (trimStart s))) as [w Hw].
  exists a, (rev w).
  rewrite <- rev_app_distr, <- Hw, rev_involutive. exact Ha.
Qed.

(** In every cleaned text the second replacement has had no effect, and
    there is no blank line: any run of line feeds has become one. *)
Lemma cleanText_no_blank_line (rawText : jsstring) :
  cleanText rawText = trim (replaceAll rx_ws_nl [nl] rawText) /\
  ~ isSubstring [nl; nl] (cleanText rawText).
Proof.
  destruct (first_replacement (n := length rawText) rawText (le_n _)) as [Hno _].
  unfold cleanText. rewrite (second_replacement_inert _ _ Hno).
  split; [ reflexivity | ].
  intros (pre & post & Hsub).
  destruct (trim_factor (replaceAll rx_ws_nl [nl] rawText)) as (a & b & Hab).
  apply (noBlankLine_no_factor Hno).
  exists (a ++ pre), (post ++ b).
  rewrite Hab at 1. rewrite Hsub. rewrite <- !app_assoc. reflexivity.
Qed.

(** *** The parts of the template *)

Lemma find_filter {A : Type} (p : A -> bool) (l : list A) :
  find p l = hd_error (filter p l).
Proof.
  induction l as [|a l IH]; simpl; [ reflexivity | ].
  destruct (p a); [ reflexivity | exact IH ].
Qed.

Lemma templateLines_nonempty (text line : jsstring) :
  In line (templateLines text) -> line <> [].
Proof.
  unfold templateLines. intros H. apply filter_In in H.
  destruct H as [_ H]. apply truthy_true_iff. exact H.
Qed.

(** The title, the summary and the highlights, from the trimmed non-empty
    lines of the cleaned text: the title is the first line, cut to its first
    64 units, trimmed and followed by three dots when it is longer; the
    summary is the first two lines joined by a space; the highlights are the
    first five lines, each after a dash; every part has its placeholder for
    a text without lines. *)
Lemma buildScannedTemplate_parts (rawText : jsstring) :
  t_title (buildScannedTemplate rawText)
  = match templateLines (cleanText rawText) with
    | [] => js "Scanned Memory"
    | first :: _ =>
        if (64 <? length first)%nat then trim (firstn 64 first) ++ js "..." else first
    end /\
  t_content (buildScannedTemplate rawText)
  = join [nl]
      ([ js "SCANNED JOURNAL"; []; js "Summary:";
         match templateLines (cleanText rawText) with
         | [] => js "No clear summary detected from the image."
         | lines => join (js " ") (firstn 2 lines)
         end;
         []; js "Highlights:" ]
       ++ match templateLines (cleanText rawText) with
          | [] => [js "- No highlights detected."]
          | lines => map (fun line => js "- " ++ line) (firstn 5 lines)
          end
       ++ [ []; js "Extracted Text:";
            match cleanText rawText with
            | [] => js "No readable text found in this image."
            | cleaned => cleaned
            end ]).
Proof.
  unfold buildScannedTemplate, getScannedTitle. cbn [t_title t_content].
  rewrite find_filter. fold (templateLines (cleanText rawText)).
  pose proof (@templateLines_nonempty (cleanText rawText)) as Hne.
  destruct (templateLines (cleanText rawText)) as [|first rest].
  - split; [ reflexivity | ].
    destruct (cleanText rawText); reflexivity.
  - assert (Hfirst : first <> []) by (apply Hne; left; reflexivity).
    split.
    + cbn [hd_error]. destruct first as [|c first]; [ congruence | ]. reflexivity.
    + unfold slice0.
      assert (Hsum : orElse (join (js " ") (firstn 2 (first :: rest)))
                       (js "No clear summary detected from the image.")
                     = join (js " ") (firstn 2 (first :: rest))).
      { destruct first as [|c first]; [ congruence | ].
        destruct rest; reflexivity. }
      rewrite Hsum.
      destruct (cleanText rawText); reflexivity.
Qed.

(** C5 at the text of the scenario.  The template has the title and the
    summary of the scenario, but its cleaned text has no blank line: the
    three line feeds after "Saw a heron" have become one, not two, because
    [\s] of the first pattern matches line feeds as well and the first
    replacement leaves nothing for the second, which alone would have kept
    a blank line. *)
Theorem buildScannedTemplate_lake :
  t_title (buildScannedTemplate lakeText) = js "Trip to the lake" /\
  cleanText lakeText
  = js "Trip to the lake" ++ [nl] ++ js "Saw a heron" ++ [nl] ++ js "Great day" /\
  cleanText lakeText
  <> js "Trip to the lake" ++ [nl] ++ js "Saw a heron" ++ [nl; nl] ++ js "Great day" /\
  replaceAll rx_nl3 [nl; nl] lakeText
  = js "Trip to the lake" ++ [nl] ++ js "Saw a heron" ++ [nl; nl] ++ js "Great day" /\
  t_content (buildScannedTemplate lakeText)
  = join [nl]
      [ js "SCANNED JOURNAL"; [];
        js "Summary:"; js "Trip to the lake Saw a heron"; [];
        js "Highlights:"; js "- Trip to the lake"; js "- Saw a heron"; js "- Great day"; [];
        js "Extracted Text:"; js "Trip to the lake"; js "Saw a heron"; js "Great day" ].
Proof.
  split; [ vm_compute; reflexivity | ].
  split; [ vm_compute; reflexivity | ].
  split; [ vm_compute; discriminate | ].
  split; vm_compute; reflexivity.
Qed.

Example no_text_at_all :
  buildScannedTemplate (js "   ")
  = mkTemplate (js "Scanned Memory")
      (join [nl]
         [ js "SCANNED JOURNAL"; [];
           js "Summary:"; js "No clear summary detected from the image."; [];
           js "Highlights:"; js "- No highlights detected."; [];
           js "Extracted Text:"; js "No readable text found in this image." ]).
Proof. vm_compute. reflexivity. Qed.

(** A paragraph break of two line feeds is lost as well. *)
Example paragraph_break_is_lost :
  cleanText (js "a" ++ [nl; nl] ++ js "b") = js "a" ++ [nl] ++ js "b".
Proof. vm_compute. reflexivity. Qed.

End Scan.

(** * Further properties *)

(** ** Trimming *)

Module TrimFacts.
Import Spec2.

Lemma trimStart_length (s : jsstring) : (length (trimStart s) <= length s)%nat.
Proof.
  induction s as [|c t IH]; simpl; [ lia | ].
  destruct (isWhiteSpace c); simpl; lia.
Qed.

Lemma trim_length (s : jsstring) : (length (trim s) <= length s)%nat.
Proof.
  unfold trim, trimEnd. rewrite length_rev.
  pose proof (trimStart_length (rev (trimStart s))) as H.
  rewrite length_rev in H. pose proof (trimStart_length s). lia.
Qed.

(** A string that does not begin with white space is its own [trimStart]. *)
Lemma trimStart_fixed (s : jsstring) :
  match s with
  | [] => True
  | c :: _ => isWhiteSpace c = false
  end ->
  trimStart s = s.
Proof. destruct s as [|c t]; simpl; [ reflexivity | intros ->; reflexivity ]. Qed.

Lemma trimStart_head (s : jsstring) :
  match trimStart s with
  | [] => True
  | c :: _ => isWhiteSpace c = false
  end.
Proof.
  induction s as [|c t IH]; simpl; [ exact I | ].
  destruct (isWhiteSpace c) eqn:E; [ exact IH | exact E ].
Qed.

Lemma trimStart_idempotent (s : jsstring) : trimStart (trimStart s) = trimStart s.
Proof. apply trimStart_fixed, trimStart_head. Qed.

Lemma trimEnd_idempotent (s : jsstring) : trimEnd (trimEnd s) = trimEnd s.
Proof. unfold trimEnd. rewrite rev_involutive, trimStart_idempotent. reflexivity. Qed.

(** [trimEnd] keeps the head of a string that does not begin with white
    space. *)
Lemma trimEnd_keeps_head (s : jsstring) :
  match s with
  | [] => True
  | c :: _ => isWhiteSpace c = false
  end ->
  match trimEnd s with
  | [] => True
  | c :: _ => isWhiteSpace c = false
  end.
Proof.
  destruct s as [|c t]; [ intros _; exact I | intros Hc ].
  unfold trimEnd.
  destruct (Scan.trimStart_suffix (rev (c :: t))) as [w Hw].
  assert (E : c :: t = rev (trimStart (rev (c :: t))) ++ rev w).
  { rewrite <- rev_app_distr, <- Hw, rev_involutive. reflexivity. }
  destruct (rev (trimStart (rev (c :: t)))) as [|d u]; [ exact I | ].
  simpl in E. injection E as <- _. exact Hc.
Qed.

(** Trimming twice is trimming once. *)
Lemma trim_idempotent (s : jsstring) : trim (trim s) = trim s.
Proof.
  unfold trim at 1.
  rewrite (trimStart_fixed (trim s)).
  - apply trimEnd_idempotent.
  - unfold trim. apply trimEnd_keeps_head, trimStart_head.
Qed.

Lemma last_rev_head {A : Type} (l : list A) (d : A) :
  last l d = hd d (rev l).
Proof.
  induction l as [|a l IH]; [ reflexivity | ].
  destruct l as [|b l]; [ reflexivity | ].
  change (last (a :: b :: l) d) with (last (b :: l) d). rewrite IH.
  simpl. destruct (rev l ++ [b]) eqn:E; [ | reflexivity ].
  destruct (rev l); discriminate.
Qed.

(** A string with white space at neither end is its own trim. *)
Lemma edgesClean_trim (s : jsstring) : edgesClean s = true -> trim s = s.
Proof.
  destruct s as [|c t]; [ reflexivity | ].
  unfold edgesClean. intros H. apply andb_true_iff in H. destruct H as [Hc Hl].
  apply negb_true_iff in Hc, Hl.
  unfold trim. rewrite (trimStart_fixed (c :: t)) by exact Hc.
  unfold trimEnd. rewrite trimStart_fixed; [ apply rev_involutive | ].
  rewrite last_rev_head in Hl.
  destruct (rev (c :: t)) as [|d u] eqn:E; [ exact I | exact Hl ].
Qed.

Lemma trim_edgesClean (s : jsstring) : edgesClean (trim s) = true.
Proof.
  destruct (trim s) as [|c t] eqn:E; [ reflexivity | ].
  unfold edgesClean. apply andb_true_iff. split; apply negb_true_iff.
  - pose proof (trimEnd_keeps_head (trimStart s) (trimStart_head s)) as H.
    fold (trim s) in H. rewrite E in H. exact H.
  - rewrite last_rev_head, <- E. unfold trim, trimEnd. rewrite rev_involutive.
    pose proof (trimStart_head (rev (trimStart s))) as H.
    destruct (trimStart (rev (trimStart s))) as [|d u] eqn:F.
    + unfold trim, trimEnd in E. rewrite F in E. discriminate.
    + exact H.
Qed.

Lemma tidy_of_edgesClean (s : jsstring) : s <> [] -> edgesClean s = true -> tidy s.
Proof. intros Hs Hc. split; [ exact Hs | apply edgesClean_trim; exact Hc ]. Qed.

Lemma last_default {A : Type} (l : list A) (x y : A) :
  l <> [] -> last l x = last l y.
Proof.
  induction l as [|a l IH]; [ congruence | intros _ ].
  destruct l as [|b l]; [ reflexivity | ].
  change (last (b :: l) x = last (b :: l) y). apply IH. discriminate.
Qed.

Lemma last_app_nonempty {A : Type} (l r : list A) (x : A) :
  r <> [] -> last (l ++ r) x = last r x.
Proof.
  intros Hr. induction l as [|a l IH]; [ reflexivity | ].
  simpl app. destruct (l ++ r) as [|b u] eqn:E.
  - destruct l; [ simpl in E; congruence | discriminate ].
  - change (last (a :: b :: u) x) with (last (b :: u) x). exact IH.
Qed.

(** The ends of a concatenation. *)
Lemma edgesClean_app (a b : jsstring) :
  a <> [] -> b <> [] -> edgesClean a = true -> edgesClean b = true ->
  forall mid, edgesClean (a ++ mid ++ b) = true.
Proof.
  intros Ha Hb Hca Hcb mid.
  destruct a as [|c a]; [ congruence | ].
  destruct b as [|d b]; [ congruence | ].
  unfold edgesClean in Hca, Hcb.
  apply andb_true_iff in Hca. destruct Hca as [Hc _].
  apply andb_true_iff in Hcb. destruct Hcb as [_ Hl].
  change (negb (isWhiteSpace c)
          && negb (isWhiteSpace (last ((c :: a) ++ mid ++ d :: b) c)) = true).
  rewrite Hc, app_assoc.
  rewrite (@last_app_nonempty N ((c :: a) ++ mid) (d :: b) c) by discriminate.
  rewrite (@last_default N (d :: b) c d) by discriminate. exact Hl.
Qed.

End TrimFacts.

(** ** The composer, further *)

Module ComposerMore.
Import Page Spec Spec2 Canvas.

Section WithRuntime.
Context {RT : Runtime}.

Lemma canSaveEntry_not_empty (st : AppState) :
  canSaveEntry st = true <-> ~ draftIsEmpty st.
Proof.
  rewrite <- Appends.rejects_iff_draftIsEmpty. unfold canSaveEntry.
  destruct (truthy (trim (title st))), (truthy (trim (content st))),
    (placedImages st), (stickyNotes st); simpl;
    split; intros H; try reflexivity; try discriminate;
    try (exfalso; apply H; reflexivity).
Qed.

Lemma cons_not_self {A : Type} (a : A) (l : list A) : a :: l <> l.
Proof.
  intros H. apply (f_equal (@length A)) in H. simpl in H. lia.
Qed.

(** The save button is enabled exactly when a submission would create an
    entry: [canSaveEntry] is false exactly when [handleSubmit] leaves the
    state as it is, and true exactly when the store grows by one entry. *)
Theorem canSaveEntry_agrees_with_handleSubmit (now : Z) (entryDate : Date)
  (st : AppState) :
  (canSaveEntry st = false <-> handleSubmit now entryDate st = st) /\
  (canSaveEntry st = true <->
   length (entries (handleSubmit now entryDate st)) = S (length (entries st))).
Proof.
  destruct (Appends.draftIsEmpty_dec st) as [He|Hne].
  - assert (Hc : canSaveEntry st = false).
    { destruct (canSaveEntry st) eqn:E; [ | reflexivity ].
      apply canSaveEntry_not_empty in E. contradiction. }
    rewrite Hc, (Appends.handleSubmit_rejected now entryDate He).
    split; split; try reflexivity; try discriminate. intros H. lia.
  - assert (Hc : canSaveEntry st = true) by (apply canSaveEntry_not_empty; exact Hne).
    rewrite Hc, (Appends.handleSubmit_accepted now entryDate Hne).
    split; split; try reflexivity; try discriminate.
    intros H. apply (f_equal entries) in H. simpl in H.
    exfalso. exact (cons_not_self H).
Qed.

Lemma submitted_draft_is_empty (now : Z) (entryDate : Date) (st : AppState) :
  draftIsEmpty (handleSubmit now entryDate st).
Proof.
  destruct (Appends.draftIsEmpty_dec st) as [He|Hne].
  - rewrite (Appends.handleSubmit_rejected now entryDate He). exact He.
  - rewrite (Appends.handleSubmit_accepted now entryDate Hne).
    repeat split.
Qed.

(** Submitting twice creates one entry at most: right after a submission,
    accepted or not, a second one changes nothing. *)
Theorem handleSubmit_twice (now now' : Z) (entryDate entryDate' : Date)
  (st : AppState) :
  handleSubmit now' entryDate' (handleSubmit now entryDate st)
  = handleSubmit now entryDate st.
Proof. apply Appends.handleSubmit_rejected, submitted_draft_is_empty. Qed.

(** With an empty query and no day selected the browse view is the store. *)
Lemma filteredEntries_all (entries : list MemoryEntry.t) :
  toLowerCase [] = [] -> filteredEntries entries [] None = entries.
Proof.
  intros Hlow. unfold filteredEntries.
  change (trim []) with (@nil N). rewrite Hlow. simpl.
  induction entries as [|e l IH]; simpl; [ reflexivity | rewrite IH; reflexivity ].
Qed.

(** A new entry shows at once: an accepted submission and a scan commit both
    clear the query, so with no day selected the browse view is then the
    whole store, the new entry first. *)
Theorem new_entry_is_shown (st : AppState) :
  toLowerCase [] = [] ->
  (forall now entryDate,
      ~ draftIsEmpty st ->
      filteredEntries (entries (handleSubmit now entryDate st))
        (query (handleSubmit now entryDate st)) None
      = composedEntry now entryDate st :: entries st) /\
  (forall entryDate rawText imageSrc,
      exists entry,
        MemoryEntry.title entry = t_title (buildScannedTemplate rawText) /\
        filteredEntries (entries (createScannedEntry entryDate rawText imageSrc st))
          (query (createScannedEntry entryDate rawText imageSrc st)) None
        = entry :: entries st).
Proof.
  intros Hlow. split.
  - intros now entryDate Hne.
    rewrite (Appends.handleSubmit_accepted now entryDate Hne).
    exact (filteredEntries_all (composedEntry now entryDate st :: entries st) Hlow).
  - intros entryDate rawText imageSrc.
    unfold createScannedEntry. cbv zeta.
    match goal with
    | |- context [setEntries (fun prev => ?e :: prev) st] =>
        exists e; split;
        [ reflexivity | exact (filteredEntries_all (e :: entries st) Hlow) ]
    end.
Qed.

(** A draft that holds a sticky note is never rejected: after
    [addStickyNote] the save button is enabled, and a submission creates an
    entry whose notes end with the new note, at its cascaded place. *)
Theorem note_makes_a_draft (now now' : Z) (entryDate : Date) (st : AppState) :
  canSaveEntry (addStickyNote now st) = true /\
  exists entry kept,
    entries (handleSubmit now' entryDate (addStickyNote now st)) = entry :: entries st /\
    MemoryEntry.notes entry
    = Some (kept ++ [EntryNote.mk (js "New sticky note...")
                       (26 + inject_Z (Z.of_nat (length (stickyNotes st))) * 14)
                       (84 + inject_Z (Z.of_nat (length (stickyNotes st))) * 14)]) /\
    kept = keptNotes (stickyNotes st).
Proof.
  assert (Hne : ~ draftIsEmpty (addStickyNote now st)).
  { intros (_ & _ & _ & H). simpl in H. destruct (stickyNotes st); discriminate. }
  split; [ apply canSaveEntry_not_empty; exact Hne | ].
  rewrite (Appends.handleSubmit_accepted now' entryDate Hne).
  eexists. exists (keptNotes (stickyNotes st)).
  split; [ reflexivity | ]. split; [ | reflexivity ].
  simpl. rewrite Composer.submittedNotes_keptNotes. unfold keptNotes.
  rewrite filter_app, map_app. reflexivity.
Qed.

End WithRuntime.

Lemma new_entry_is_shown_witness :
  filteredEntries (RT := SmallHost.host)
    (entries (handleSubmit (RT := SmallHost.host) 5%Z 750%Z Samples.titledDraft))
    (query (handleSubmit (RT := SmallHost.host) 5%Z 750%Z Samples.titledDraft)) None
  = [composedEntry (RT := SmallHost.host) 5%Z 750%Z Samples.titledDraft].
Proof.
  exact (proj1 (@new_entry_is_shown SmallHost.host Samples.titledDraft eq_refl)
           5%Z 750%Z Composer.titledDraft_not_empty).
Defined.

End ComposerMore.

(** ** Drag sessions *)

Module DragSession.
Import Page Spec Spec2 Canvas.

(** The image handler writes the images only, the note handler the notes. *)
Lemma moveImage_rest (canvas : option DOMRect.t) (event : PointerEvent.t) (st : AppState) :
  let st' := onPointerMoveImage canvas event st in
  stickyNotes st' = stickyNotes st /\ entries st' = entries st /\
  title st' = title st /\ content st' = content st /\
  draggingImageId st' = draggingImageId st /\ draggingNoteId st' = draggingNoteId st /\
  dragOffsetRef st' = dragOffsetRef st /\ noteDragOffsetRef st' = noteDragOffsetRef st.
Proof.
  unfold onPointerMoveImage.
  destruct (draggingImageId st) eqn:E, canvas; simpl; rewrite ?E;
    repeat split; reflexivity.
Qed.

Lemma moveNote_rest (canvas : option DOMRect.t) (event : PointerEvent.t) (st : AppState) :
  let st' := onPointerMoveNote canvas event st in
  placedImages st' = placedImages st /\ entries st' = entries st /\
  title st' = title st /\ content st' = content st /\
  draggingImageId st' = draggingImageId st /\ draggingNoteId st' = draggingNoteId st /\
  dragOffsetRef st' = dragOffsetRef st /\ noteDragOffsetRef st' = noteDragOffsetRef st.
Proof.
  unfold onPointerMoveNote.
  destruct (draggingNoteId st) eqn:E, canvas; simpl; rewrite ?E;
    repeat split; reflexivity.
Qed.

(** A move maps the images through a change of position of the dragged
    ones, or leaves them. *)
Lemma moveImage_map (canvas : option DOMRect.t) (event : PointerEvent.t) (st : AppState) :
  exists nextX nextY dragged,
    (draggingImageId st = Some dragged \/
     placedImages (onPointerMoveImage canvas event st) = placedImages st) /\
    (placedImages (onPointerMoveImage canvas event st) = placedImages st \/
     placedImages (onPointerMoveImage canvas event st)
     = map (fun image =>
              if (PlacedImage.id image =? dragged)%Z
              then PlacedImage.mk (PlacedImage.id image) (PlacedImage.src image)
                     nextX nextY (PlacedImage.width image)
              else image)
         (placedImages st)).
Proof.
  unfold onPointerMoveImage.
  destruct (draggingImageId st) as [dragged|];
    [ | exists 0, 0, 0%Z; split; [ right | left ]; reflexivity ].
  destruct canvas as [rect|]; [ | exists 0, 0, dragged; split; [ right | left ]; reflexivity ].
  simpl.
  destruct (find (fun image => (PlacedImage.id image =? dragged)%Z) (placedImages st))
    as [active|].
  - eexists _, _, dragged. split; [ left; reflexivity | right; reflexivity ].
  - exists 0, 0, dragged. split; [ right | left ]; reflexivity.
Qed.

Lemma moveNote_map (canvas : option DOMRect.t) (event : PointerEvent.t) (st : AppState) :
  exists nextX nextY dragged,
    (draggingNoteId st = Some dragged \/
     stickyNotes (onPointerMoveNote canvas event st) = stickyNotes st) /\
    (stickyNotes (onPointerMoveNote canvas event st) = stickyNotes st \/
     stickyNotes (onPointerMoveNote canvas event st)
     = map (fun note =>
              if (StickyNote.id note =? dragged)%Z
              then StickyNote.mk (StickyNote.id note) (StickyNote.text note)
                     nextX nextY (StickyNote.width note)
              else note)
         (stickyNotes st)).
Proof.
  unfold onPointerMoveNote.
  destruct (draggingNoteId st) as [dragged|];
    [ | exists 0, 0, 0%Z; split; [ right | left ]; reflexivity ].
  destruct canvas as [rect|]; [ | exists 0, 0, dragged; split; [ right | left ]; reflexivity ].
  simpl.
  destruct (find (fun note => (StickyNote.id note =? dragged)%Z) (stickyNotes st))
    as [active|].
  - eexists _, _, dragged. split; [ left; reflexivity | right; reflexivity ].
  - exists 0, 0, dragged. split; [ right | left ]; reflexivity.
Qed.

Lemma map_identity_images (dragged : Z) (nextX nextY : Q) (l : list PlacedImage.t) :
  map imageIdentity
    (map (fun image =>
            if (PlacedImage.id image =? dragged)%Z
            then PlacedImage.mk (PlacedImage.id image) (PlacedImage.src image)
                   nextX nextY (PlacedImage.width image)
            else image)
       l)
  = map imageIdentity l.
Proof.
  rewrite map_map. apply map_ext. intros image.
  destruct (PlacedImage.id image =? dragged)%Z; reflexivity.
Qed.

Lemma map_identity_notes (dragged : Z) (nextX nextY : Q) (l : list StickyNote.t) :
  map noteIdentity
    (map (fun note =>
            if (StickyNote.id note =? dragged)%Z
            then StickyNote.mk (StickyNote.id note) (StickyNote.text note)
                   nextX nextY (StickyNote.width note)
            else note)
       l)
  = map noteIdentity l.
Proof.
  rewrite map_map. apply map_ext. intros note.
  destruct (StickyNote.id note =? dragged)%Z; reflexivity.
Qed.

(** One pointer action keeps the identities and the rest of the page. *)
Lemma pointer_keeps (a : PointerAction) (st : AppState) :
  map imageIdentity (placedImages (pointer a st)) = map imageIdentity (placedImages st) /\
  map noteIdentity (stickyNotes (pointer a st)) = map noteIdentity (stickyNotes st) /\
  entries (pointer a st) = entries st /\
  title (pointer a st) = title st /\
  content (pointer a st) = content st.
Proof.
  destruct a as [event targetRect imageId | event targetRect noteId | canvas event | ];
    try (repeat split; reflexivity).
  unfold pointer.
  set (mid := onPointerMoveImage canvas event st).
  destruct (moveNote_rest canvas event mid) as (Hi & He & Ht & Hc & _).
  destruct (moveImage_rest canvas event st) as (Hn & He' & Ht' & Hc' & _).
  fold mid in Hn, He', Ht', Hc'.
  rewrite Hi, He, Ht, Hc, He', Ht', Hc'.
  repeat split.
  - destruct (moveImage_map canvas event st) as (nx & ny & d & _ & [H | H]);
      fold mid in H; rewrite H; [ reflexivity | apply map_identity_images ].
  - destruct (moveNote_map canvas event mid) as (nx & ny & d & _ & [H | H]);
      rewrite H, ?map_identity_notes, Hn; reflexivity.
Qed.

(** Whatever the pointer does, no element of the canvas is added, removed,
    reordered or resized, no image changes its source and no note its text,
    and the store and the draft texts stay as they are: only positions
    change. *)
Theorem pointers_keep_elements (actions : list PointerAction) (st : AppState) :
  map imageIdentity (placedImages (pointers actions st))
  = map imageIdentity (placedImages st) /\
  map noteIdentity (stickyNotes (pointers actions st))
  = map noteIdentity (stickyNotes st) /\
  entries (pointers actions st) = entries st /\
  title (pointers actions st) = title st /\
  content (pointers actions st) = content st.
Proof.
  revert st. induction actions as [|a rest IH]; intros st; simpl.
  - repeat split.
  - destruct (IH (pointer a st)) as (H1 & H2 & H3 & H4 & H5).
    destruct (pointer_keeps a st) as (K1 & K2 & K3 & K4 & K5).
    rewrite H1, H2, H3, H4, H5. auto.
Qed.

(** A pointer move leaves alone every element that is not the dragged one;
    with no drag on, or after the pointer is released, it leaves all of
    them. *)
Theorem move_spares_the_others (canvas : option DOMRect.t) (event : PointerEvent.t)
  (st : AppState) :
  (forall i image,
      nth_error (placedImages st) i = Some image ->
      draggingImageId st <> Some (PlacedImage.id image) ->
      nth_error (placedImages (pointer (Move canvas event) st)) i = Some image) /\
  (forall i note,
      nth_error (stickyNotes st) i = Some note ->
      draggingNoteId st <> Some (StickyNote.id note) ->
      nth_error (stickyNotes (pointer (Move canvas event) st)) i = Some note) /\
  (forall canvas' event',
      placedImages (pointer (Move canvas' event') (pointer Up st)) = placedImages st /\
      stickyNotes (pointer (Move canvas' event') (pointer Up st)) = stickyNotes st).
Proof.
  split; [ | split ].
  - intros i image Hi Hdrag. unfold pointer.
    destruct (moveNote_rest canvas event (onPointerMoveImage canvas event st)) as (-> & _).
    destruct (moveImage_map canvas event st) as (nx & ny & d & Hd & H).
    destruct Hd as [Hd | Hsame]; [ | rewrite Hsame; exact Hi ].
    destruct H as [H | H]; rewrite H; [ exact Hi | ].
    rewrite nth_error_map, Hi. simpl.
    destruct (Z.eqb_spec (PlacedImage.id image) d) as [Heq|]; [ | reflexivity ].
    exfalso. apply Hdrag. rewrite Hd, Heq. reflexivity.
  - intros i note Hi Hdrag. unfold pointer.
    destruct (moveImage_rest canvas event st) as (Hn & _ & _ & _ & _ & Hdn & _).
    destruct (moveNote_map canvas event (onPointerMoveImage canvas event st))
      as (nx & ny & d & Hd & H).
    destruct Hd as [Hd | Hsame]; [ | rewrite Hsame, Hn; exact Hi ].
    destruct H as [H | H]; rewrite H, Hn; [ exact Hi | ].
    rewrite nth_error_map, Hi. simpl.
    destruct (Z.eqb_spec (StickyNote.id note) d) as [Heq|]; [ | reflexivity ].
    exfalso. apply Hdrag. rewrite <- Hdn, Hd, Heq. reflexivity.
  - intros canvas' event'. split; reflexivity.
Qed.

(** Within its range the clamp is the identity. *)
Lemma nextCoordinate_inside (client origin offset container element : Q) :
  0 <= pointerLess client origin offset ->
  pointerLess client origin offset <= JSNumber.sub container element ->
  nextCoordinate client origin offset container element == pointerLess client origin offset.
Proof.
  unfold nextCoordinate, pointerLess, Math_min, Math_max.
  set (p := JSNumber.sub (JSNumber.sub client origin) offset).
  set (d := JSNumber.sub container element). intros H0 H1.
  destruct (Q.max_spec p 0) as [[Hp Ep] | [Hp Ep]];
    destruct (Q.max_spec d 0) as [[Hc Ec] | [Hc Ec]];
    destruct (Q.min_spec (Qmax p 0) (Qmax d 0)) as [[Hm Em] | [Hm Em]];
    rewrite Em; rewrite ?Ep, ?Ec in *; lra.
Qed.

(** While the pointer, less the grab offset, is over the part of the canvas
    where the element fits, the dragged image and the dragged note follow it
    exactly: the top-left corner is the pointer position relative to the
    canvas less the offset, each difference being the one the code computes
    (the exact difference rounded to the nearest Number). *)
Theorem drag_follows_pointer (rect : DOMRect.t) (event : PointerEvent.t) (st : AppState) :
  (forall dragged active image',
      draggingImageId st = Some dragged ->
      find (fun image => (PlacedImage.id image =? dragged)%Z) (placedImages st)
      = Some active ->
      0 <= pointerLess (PointerEvent.clientX event) (DOMRect.left rect)
             (fst (dragOffsetRef st)) ->
      pointerLess (PointerEvent.clientX event) (DOMRect.left rect) (fst (dragOffsetRef st))
      <= JSNumber.sub (DOMRect.width rect) (PlacedImage.width active) ->
      0 <= pointerLess (PointerEvent.clientY event) (DOMRect.top rect)
             (snd (dragOffsetRef st)) ->
      pointerLess (PointerEvent.clientY event) (DOMRect.top rect) (snd (dragOffsetRef st))
      <= JSNumber.sub (DOMRect.height rect) (imageHeight (PlacedImage.width active)) ->
      In image' (placedImages (onPointerMoveImage (Some rect) event st)) ->
      PlacedImage.id image' = dragged ->
      PlacedImage.x image'
      == pointerLess (PointerEvent.clientX event) (DOMRect.left rect)
           (fst (dragOffsetRef st)) /\
      PlacedImage.y image'
      == pointerLess (PointerEvent.clientY event) (DOMRect.top rect)
           (snd (dragOffsetRef st))) /\
  (forall dragged active note',
      draggingNoteId st = Some dragged ->
      find (fun note => (StickyNote.id note =? dragged)%Z) (stickyNotes st)
      = Some active ->
      0 <= pointerLess (PointerEvent.clientX event) (DOMRect.left rect)
             (fst (noteDragOffsetRef st)) ->
      pointerLess (PointerEvent.clientX event) (DOMRect.left rect)
        (fst (noteDragOffsetRef st))
      <= JSNumber.sub (DOMRect.width rect) (StickyNote.width active) ->
      0 <= pointerLess (PointerEvent.clientY event) (DOMRect.top rect)
             (snd (noteDragOffsetRef st)) ->
      pointerLess (PointerEvent.clientY event) (DOMRect.top rect)
        (snd (noteDragOffsetRef st))
      <= JSNumber.sub (DOMRect.height rect) noteHeight ->
      In note' (stickyNotes (onPointerMoveNote (Some rect) event st)) ->
      StickyNote.id note' = dragged ->
      StickyNote.x note'
      == pointerLess (PointerEvent.clientX event) (DOMRect.left rect)
           (fst (noteDragOffsetRef st)) /\
      StickyNote.y note'
      == pointerLess (PointerEvent.clientY event) (DOMRect.top rect)
           (snd (noteDragOffsetRef st))).
Proof.
  split.
  - intros dragged active image' Hdrag Hfind Hx0 Hx1 Hy0 Hy1 Hin Hid.
    unfold onPointerMoveImage in Hin. rewrite Hdrag in Hin. simpl in Hin.
    rewrite Hfind in Hin.
    destruct (Drag.moved_image _ _ _ _ Hin Hid) as [-> ->].
    split; apply nextCoordinate_inside; assumption.
  - intros dragged active note' Hdrag Hfind Hx0 Hx1 Hy0 Hy1 Hin Hid.
    unfold onPointerMoveNote in Hin. rewrite Hdrag in Hin. simpl in Hin.
    rewrite Hfind in Hin.
    destruct (Drag.moved_note _ _ _ _ Hin Hid) as [-> ->].
    split; apply nextCoordinate_inside; assumption.
Qed.

End DragSession.

(** ** Sticky notes and tokens *)

Module Notes.
Import Page Spec Spec2 Canvas.

(** [updateStickyNoteText] writes the text of the notes with the given id
    and nothing else: the notes keep their number, order, ids, positions and
    widths, a note of another id is unchanged, and an unknown id changes
    nothing. *)
Theorem updateStickyNoteText_frame (id : Z) (text : jsstring) (st : AppState) :
  length (stickyNotes (updateStickyNoteText id text st)) = length (stickyNotes st) /\
  (forall i note,
      nth_error (stickyNotes st) i = Some note ->
      exists note',
        nth_error (stickyNotes (updateStickyNoteText id text st)) i = Some note' /\
        StickyNote.id note' = StickyNote.id note /\
        StickyNote.x note' = StickyNote.x note /\
        StickyNote.y note' = StickyNote.y note /\
        StickyNote.width note' = StickyNote.width note /\
        (StickyNote.id note = id -> StickyNote.text note' = text) /\
        (StickyNote.id note <> id -> note' = note)) /\
  ((forall note, In note (stickyNotes st) -> StickyNote.id note <> id) ->
   stickyNotes (updateStickyNoteText id text st) = stickyNotes st) /\
  placedImages (updateStickyNoteText id text st) = placedImages st /\
  entries (updateStickyNoteText id text st) = entries st.
Proof.
  unfold updateStickyNoteText. simpl.
  split; [ apply length_map | ].
  split; [ | split; [ | split; reflexivity ] ].
  - intros i note Hi. rewrite nth_error_map, Hi. simpl.
    destruct (Z.eqb_spec (StickyNote.id note) id) as [Heq|Hne].
    + eexists. split; [ reflexivity | ]. simpl. repeat split; try reflexivity.
      intros H. contradiction.
    + exists note. repeat split; try reflexivity. intros H. contradiction.
  - intros Hnone. apply EntryStore.map_untouched. intros note Hin.
    destruct (Z.eqb_spec (StickyNote.id note) id) as [Heq|Hne]; [ | reflexivity ].
    exfalso. exact (Hnone note Hin Heq).
Qed.

(** The remove buttons take away exactly the elements of the given id and
    keep the others in their order; what was removed does not reach a
    submitted entry. *)
Theorem remove_takes_only_the_id (id : Z) (st : AppState) :
  (forall note,
      In note (stickyNotes (removeStickyNote id st)) <->
      In note (stickyNotes st) /\ StickyNote.id note <> id) /\
  (forall image,
      In image (placedImages (removeImage id st)) <->
      In image (placedImages st) /\ PlacedImage.id image <> id) /\
  (exists keep, stickyNotes (removeStickyNote id st) = filter keep (stickyNotes st)) /\
  (exists keep, placedImages (removeImage id st) = filter keep (placedImages st)) /\
  placedImages (removeStickyNote id st) = placedImages st /\
  stickyNotes (removeImage id st) = stickyNotes st.
Proof.
  unfold removeStickyNote, removeImage. simpl.
  split; [ | split; [ | split; [ | split; [ | split; reflexivity ] ] ] ].
  - intros note. rewrite filter_In, negb_true_iff, Z.eqb_neq. reflexivity.
  - intros image. rewrite filter_In, negb_true_iff, Z.eqb_neq. reflexivity.
  - eexists. reflexivity.
  - eexists. reflexivity.
Qed.

Lemma combine_map_fst {A B C : Type} (f : A -> B) (l : list A) (l' : list C) :
  combine (map f l) l' = map (fun p => (f (fst p), snd p)) (combine l l').
Proof.
  revert l'. induction l as [|a l IH]; intros [|c l']; simpl; try reflexivity.
  rewrite IH. reflexivity.
Qed.

Lemma addNotes_notes (nows : list Z) :
  forall st,
    stickyNotes (addNotes nows st)
    = stickyNotes st
      ++ map (fun p =>
                StickyNote.mk (snd p) (js "New sticky note...")
                  (26 + inject_Z (Z.of_nat (length (stickyNotes st) + fst p)) * 14)
                  (84 + inject_Z (Z.of_nat (length (stickyNotes st) + fst p)) * 14)
                  180)
          (combine (seq 0 (length nows)) nows).
Proof.
  unfold addNotes.
  induction nows as [|now rest IH]; intros st; simpl.
  - rewrite app_nil_r. reflexivity.
  - rewrite IH. simpl. rewrite <- app_assoc. simpl.
    rewrite Nat.add_0_r. do 2 f_equal.
    rewrite <- seq_shift, combine_map_fst, map_map.
    apply map_ext. intros [k n]. simpl.
    rewrite length_app. simpl.
    replace (length (stickyNotes st) + 1 + k)%nat with (length (stickyNotes st) + S k)%nat
      by lia.
    reflexivity.
Qed.

Lemma nth_error_combine_seq {A : Type} (l : list A) :
  forall a i k x,
    nth_error (combine (seq a (length l)) l) i = Some (k, x) ->
    k = (a + i)%nat /\ nth_error l i = Some x.
Proof.
  induction l as [|y l IH]; intros a i k x; simpl.
  - destruct i; discriminate.
  - destruct i as [|i]; simpl.
    + intros [= <- <-]. split; [ lia | reflexivity ].
    + intros H. apply IH in H. destruct H as [-> H]. split; [ lia | exact H ].
Qed.

Lemma inject_nat_ne (n i j : nat) :
  i <> j -> ~ inject_Z (Z.of_nat (n + i)) == inject_Z (Z.of_nat (n + j)).
Proof.
  intros Hij H. apply -> inject_Z_injective in H.
  apply Nat2Z.inj in H. apply Hij. lia.
Qed.

(** New notes cascade.  Notes added one after the other go to the end of
    the list, the notes that were there staying as they are; the note that
    finds [n] notes in place gets the text "New sticky note...", the width
    180 and the position (26 + 14 n, 84 + 14 n), so no two of the new notes
    lie at the same place. *)
Theorem new_notes_cascade (nows : list Z) (st : AppState) :
  exists news,
    stickyNotes (addNotes nows st) = stickyNotes st ++ news /\
    length news = length nows /\
    (forall i note,
        nth_error news i = Some note ->
        nth_error nows i = Some (StickyNote.id note) /\
        StickyNote.text note = js "New sticky note..." /\
        StickyNote.width note = 180 /\
        StickyNote.x note
        = 26 + inject_Z (Z.of_nat (length (stickyNotes st) + i)) * 14 /\
        StickyNote.y note
        = 84 + inject_Z (Z.of_nat (length (stickyNotes st) + i)) * 14) /\
    (forall i j a b,
        nth_error news i = Some a ->
        nth_error news j = Some b ->
        i <> j ->
        ~ StickyNote.x a == StickyNote.x b /\ ~ StickyNote.y a == StickyNote.y b).
Proof.
  eexists. split; [ apply addNotes_notes | ].
  split; [ rewrite length_map, length_combine, length_seq; apply Nat.min_id | ].
  assert (Hnth : forall i note,
    nth_error
      (map (fun p =>
              StickyNote.mk (snd p) (js "New sticky note...")
                (26 + inject_Z (Z.of_nat (length (stickyNotes st) + fst p)) * 14)
                (84 + inject_Z (Z.of_nat (length (stickyNotes st) + fst p)) * 14)
                180)
         (combine (seq 0 (length nows)) nows)) i = Some note ->
    nth_error nows i = Some (StickyNote.id note) /\
    StickyNote.text note = js "New sticky note..." /\
    StickyNote.width note = 180 /\
    StickyNote.x note = 26 + inject_Z (Z.of_nat (length (stickyNotes st) + i)) * 14 /\
    StickyNote.y note = 84 + inject_Z (Z.of_nat (length (stickyNotes st) + i)) * 14).
  { intros i note H. rewrite nth_error_map in H.
    destruct (nth_error (combine (seq 0 (length nows)) nows) i) as [[k now]|] eqn:E;
      [ | discriminate ].
    apply nth_error_combine_seq in E. destruct E as [-> E].
    simpl in H. injection H as <-. simpl. auto. }
  split; [ exact Hnth | ].
  intros i j a b Ha Hb Hij.
  destruct (Hnth i a Ha) as (_ & _ & _ & Hxa & Hya).
  destruct (Hnth j b Hb) as (_ & _ & _ & Hxb & Hyb).
  rewrite Hxa, Hxb, Hya, Hyb.
  pose proof (inject_nat_ne (length (stickyNotes st)) Hij) as Hne.
  revert Hne.
  generalize (inject_Z (Z.of_nat (length (stickyNotes st) + i)))
    (inject_Z (Z.of_nat (length (stickyNotes st) + j))).
  intros u v Hne. split; intros H; apply Hne; lra.
Qed.

(** [endsWith] is the suffix relation. *)
Lemma endsWith_spec (s p : jsstring) :
  endsWith s p = true <-> exists pre, s = pre ++ p.
Proof.
  unfold endsWith. rewrite startsWith_spec. split.
  - intros [t Ht]. exists (rev t).
    rewrite <- (rev_involutive s), Ht, rev_app_distr, rev_involutive. reflexivity.
  - intros [pre ->]. exists (rev pre). apply rev_app_distr.
Qed.

(** [appendToken] never loses text: the body stays in front and the token
    comes last, with a single space between them, and with nothing between
    them exactly when the body was empty or ended in a line feed; on an
    empty body the body becomes the token. *)
Theorem appendToken_keeps_body (token : jsstring) (st : AppState) :
  (exists spacer,
      content (appendToken token st) = content st ++ spacer ++ token /\
      (spacer = [] \/ spacer = js " ") /\
      (spacer = [] <-> content st = [] \/ exists pre, content st = pre ++ [nl])) /\
  (content st = [] -> content (appendToken token st) = token) /\
  title (appendToken token st) = title st /\
  entries (appendToken token st) = entries st.
Proof.
  unfold appendToken. simpl.
  split; [ | split; [ intros ->; reflexivity | split; reflexivity ] ].
  destruct (endsWith (content st) [nl]) eqn:E; simpl.
  - exists []. split; [ reflexivity | ]. split; [ left; reflexivity | ].
    split; [ intros _; right; apply endsWith_spec; exact E | reflexivity ].
  - destruct (content st) as [|c body] eqn:Ec; simpl.
    + exists []. split; [ reflexivity | ]. split; [ left; reflexivity | ].
      split; [ intros _; left; reflexivity | reflexivity ].
    + exists (js " "). split; [ reflexivity | ]. split; [ right; reflexivity | ].
      split; [ discriminate | ].
      intros [H | H]; [ discriminate | ].
      apply endsWith_spec in H. congruence.
Qed.

End Notes.

(** ** The entry dialog and the texts of the store *)

Module Dialog.
Import Page Spec Spec2 Modal TrimFacts.

Lemma tidy_trim (s : jsstring) : trim s <> [] -> tidy (trim s).
Proof. intros H. split; [ exact H | apply trim_idempotent ]. Qed.

Lemma tidy_stored (text placeholder : jsstring) :
  tidy placeholder -> tidy (stored text placeholder).
Proof.
  intros Hp. unfold stored.
  destruct (eq_str_dec (trim text) []) as [E|E]; [ exact Hp | apply tidy_trim; exact E ].
Qed.

Lemma tidy_Untitled : tidy (js "Untitled memory").
Proof. split; [ discriminate | vm_compute; reflexivity ]. Qed.

Lemma tidy_No_notes : tidy (js "No notes added.").
Proof. split; [ discriminate | vm_compute; reflexivity ]. Qed.

Lemma join_two (sep a : jsstring) (b : jsstring) (r : list jsstring) :
  join sep (a :: b :: r) = a ++ sep ++ join sep (b :: r).
Proof. reflexivity. Qed.

Lemma join_snoc (sep : jsstring) (l : list jsstring) (x : jsstring) :
  l <> [] -> join sep (l ++ [x]) = join sep l ++ sep ++ x.
Proof.
  induction l as [|a l IH]; [ congruence | intros _ ].
  destruct l as [|b l]; [ reflexivity | ].
  change ((a :: b :: l) ++ [x]) with (a :: b :: (l ++ [x])).
  rewrite !join_two. change (b :: l ++ [x]) with ((b :: l) ++ [x]).
  rewrite IH by discriminate. rewrite <- !app_assoc. reflexivity.
Qed.

(** The title of a scan has white space at neither end and is not empty. *)
Lemma getScannedTitle_tidy (text : jsstring) : tidy (getScannedTitle text).
Proof.
  unfold getScannedTitle.
  destruct (find truthy (map trim (split nl text))) as [line|] eqn:E.
  - apply find_some in E. destruct E as [Hin Hline].
    apply in_map_iff in Hin. destruct Hin as (x & <- & _).
    rewrite Hline. simpl negb. cbv iota.
    apply truthy_true_iff in Hline.
    destruct (64 <? length (trim x))%nat.
    + apply tidy_of_edgesClean.
      * intros H. apply app_eq_nil in H. destruct H as [_ H]. discriminate.
      * destruct (trim (slice0 64 (trim x))) as [|c u] eqn:F; [ reflexivity | ].
        rewrite <- F.
        replace (trim (slice0 64 (trim x)) ++ js "...")
          with (trim (slice0 64 (trim x)) ++ [] ++ js "...") by reflexivity.
        apply edgesClean_app; try (rewrite F; discriminate); try discriminate.
        -- apply trim_edgesClean.
        -- reflexivity.
    + apply tidy_trim. exact Hline.
  - simpl. split; [ discriminate | vm_compute; reflexivity ].
Qed.

(** So has the content of a scan. *)
Lemma template_content_tidy (rawText : jsstring) :
  tidy (t_content (buildScannedTemplate rawText)).
Proof.
  unfold buildScannedTemplate. cbv zeta. cbn [t_content].
  set (highlights :=
         if (0 <? length (slice0 5 (templateLines (cleanText rawText))))%nat
         then map (fun line => js "- " ++ line) (slice0 5 (templateLines (cleanText rawText)))
         else [js "- No highlights detected."]).
  set (summary :=
         orElse (join (js " ") (slice0 2 (templateLines (cleanText rawText))))
           (js "No clear summary detected from the image.")).
  set (last_section :=
         orElse (cleanText rawText) (js "No readable text found in this image.")).
  assert (Hlast : last_section <> [] /\ edgesClean last_section = true).
  { unfold last_section.
    assert (Hc : edgesClean (cleanText rawText) = true)
      by (unfold cleanText; apply trim_edgesClean).
    destruct (cleanText rawText) as [|c u].
    - split; [ discriminate | reflexivity ].
    - split; [ discriminate | exact Hc ]. }
  destruct Hlast as [Hne Hclean].
  replace ([js "SCANNED JOURNAL"; []; js "Summary:"; summary; []; js "Highlights:"]
           ++ highlights ++ [[]; js "Extracted Text:"; last_section])
    with ((js "SCANNED JOURNAL"
           :: [] :: ([js "Summary:"; summary; []; js "Highlights:"]
                     ++ highlights ++ [[]; js "Extracted Text:"]))
          ++ [last_section])
    by (simpl; rewrite <- !app_assoc; reflexivity).
  rewrite join_snoc by discriminate. rewrite join_two.
  rewrite <- !app_assoc.
  apply tidy_of_edgesClean.
  - discriminate.
  - match goal with
    | |- edgesClean (?a ++ ?m1 ++ ?m2 ++ ?m3 ++ ?b) = true =>
        replace (a ++ m1 ++ m2 ++ m3 ++ b) with (a ++ (m1 ++ m2 ++ m3) ++ b)
          by (rewrite <- !app_assoc; reflexivity)
    end.
    apply edgesClean_app; try discriminate; try assumption. reflexivity.
Qed.

Section WithRuntime.
Context {RT : Runtime}.

Lemma composedEntry_normalized (now : Z) (entryDate : Date) (st : AppState) :
  normalized (composedEntry now entryDate st).
Proof.
  split; simpl; rewrite EntryStore.stored_orElse; apply tidy_stored.
  - exact tidy_Untitled.
  - exact tidy_No_notes.
Qed.

(** One event keeps the texts of the store in order. *)
Lemma handle_normalized (e : Event) (st : AppState) :
  (forall entry, In entry (entries st) -> normalized entry) ->
  forall entry, In entry (entries (handle e st)) -> normalized entry.
Proof.
  intros Hst entry Hin.
  destruct e as [a | opened | | | value | value | | ]; simpl in Hin;
    try (apply Hst; exact Hin).
  - destruct a; simpl in Hin; try (apply Hst; exact Hin).
    + destruct (Appends.draftIsEmpty_dec st) as [He|Hne].
      * rewrite (Appends.handleSubmit_rejected now entryDate He) in Hin.
        apply Hst; exact Hin.
      * rewrite (Appends.handleSubmit_accepted now entryDate Hne) in Hin.
        simpl in Hin. destruct Hin as [<- | Hin]; [ | apply Hst; exact Hin ].
        apply composedEntry_normalized.
    + destruct Hin as [<- | Hin]; [ | apply Hst; exact Hin ].
      split; cbn [MemoryEntry.title MemoryEntry.content].
      * apply getScannedTitle_tidy.
      * apply template_content_tidy.
  - unfold cancelEdit in Hin. destruct (openEntry st); apply Hst; exact Hin.
  - destruct (openEntry st) as [opened|] eqn:Hopen.
    + rewrite (EntryStore.entries_saveOpenEntryEdits_some _ Hopen) in Hin.
      apply in_map_iff in Hin. destruct Hin as (old & <- & Hold).
      destruct (MemoryEntry.id old =? MemoryEntry.id opened)%Z; [ | apply Hst; exact Hold ].
      split; simpl; apply tidy_stored; [ exact tidy_Untitled | exact tidy_No_notes ].
    + rewrite (EntryStore.entries_saveOpenEntryEdits_none _ Hopen) in Hin.
      apply Hst; exact Hin.
Qed.

(** The store never takes an untidy text.  If every entry of the store has
    a title and a content that are not empty and have no white space at
    either end, this is still so after any sequence of composer inputs,
    submissions, scan commits and uses of the entry dialog, edits included. *)
Theorem store_stays_normalized (events : list Event) (st : AppState) :
  (forall entry, In entry (entries st) -> normalized entry) ->
  forall entry, In entry (entries (session events st)) -> normalized entry.
Proof.
  revert st. induction events as [|e rest IH]; intros st Hst; simpl.
  - exact Hst.
  - apply IH. apply handle_normalized. exact Hst.
Qed.

Lemma withTitleContent_same (entry : MemoryEntry.t) :
  withTitleContent (MemoryEntry.title entry) (MemoryEntry.content entry) entry = entry.
Proof. destruct entry; reflexivity. Qed.

Lemma stored_tidy (text placeholder : jsstring) : tidy text -> stored text placeholder = text.
Proof.
  intros [Hne Htrim]. unfold stored. rewrite Htrim.
  destruct (eq_str_dec text []); [ contradiction | reflexivity ].
Qed.

(** Saving shows what it stored: when the open entry is an entry of the
    store, after [saveOpenEntryEdits] the open entry is again an entry of
    the store, with the same id and the stored texts, and the dialog has
    left the editing mode. *)
Theorem saved_edit_is_shown (st : AppState) (opened : MemoryEntry.t) :
  openEntry st = Some opened ->
  In opened (entries st) ->
  exists opened',
    openEntry (saveOpenEntryEdits st) = Some opened' /\
    In opened' (entries (saveOpenEntryEdits st)) /\
    MemoryEntry.id opened' = MemoryEntry.id opened /\
    MemoryEntry.title opened' = stored (editingTitle st) (js "Untitled memory") /\
    MemoryEntry.content opened' = stored (editingContent st) (js "No notes added.") /\
    isEditingEntry (saveOpenEntryEdits st) = false.
Proof.
  intros Hopen Hin.
  exists (withTitleContent (stored (editingTitle st) (js "Untitled memory"))
            (stored (editingContent st) (js "No notes added.")) opened).
  split.
  - unfold saveOpenEntryEdits. rewrite Hopen. simpl. rewrite Hopen. simpl.
    rewrite Z.eqb_refl, !EntryStore.stored_orElse. reflexivity.
  - split; [ | split; [ reflexivity | split; [ reflexivity | split; [ reflexivity | ] ] ] ].
    + rewrite (EntryStore.entries_saveOpenEntryEdits_some _ Hopen).
      apply in_map_iff. exists opened. rewrite Z.eqb_refl. auto.
    + unfold saveOpenEntryEdits. rewrite Hopen. reflexivity.
Qed.

(** Opening an entry and saving it untouched changes nothing, and neither
    does saving after a cancelled edit: for an entry whose texts are tidy
    and whose id no different entry of the store has, after either sequence
    the store is the store of before and the entry is still the open one,
    unchanged. *)
Theorem untouched_save_changes_nothing (entry : MemoryEntry.t) (st : AppState)
  (typedTitle typedContent : jsstring) :
  normalized entry ->
  (forall other, In other (entries st) ->
                 MemoryEntry.id other = MemoryEntry.id entry -> other = entry) ->
  entries (session [OpenEntry entry; BeginEdit; SaveEdits] st) = entries st /\
  openEntry (session [OpenEntry entry; BeginEdit; SaveEdits] st) = Some entry /\
  entries
    (session [OpenEntry entry; BeginEdit; EditTitle typedTitle; EditContent typedContent;
              CancelEdit; SaveEdits] st)
  = entries st /\
  openEntry
    (session [OpenEntry entry; BeginEdit; EditTitle typedTitle; EditContent typedContent;
              CancelEdit; SaveEdits] st)
  = Some entry.
Proof.
  intros [Ht Hc] Hunique.
  assert (Hpatch : forall other, In other (entries st) ->
            (if (MemoryEntry.id other =? MemoryEntry.id entry)%Z
             then withTitleContent (stored (MemoryEntry.title entry) (js "Untitled memory"))
                    (stored (MemoryEntry.content entry) (js "No notes added.")) other
             else other) = other).
  { intros other Hin.
    destruct (Z.eqb_spec (MemoryEntry.id other) (MemoryEntry.id entry)) as [Heq|];
      [ | reflexivity ].
    rewrite (Hunique other Hin Heq), !stored_tidy by assumption.
    apply withTitleContent_same. }
  split; [ | split; [ | split ] ].
  - cbn [session handle].
    rewrite (@EntryStore.entries_saveOpenEntryEdits_some _ entry) by reflexivity.
    simpl. apply EntryStore.map_untouched. exact Hpatch.
  - simpl. unfold saveOpenEntryEdits. simpl.
    rewrite Z.eqb_refl, !EntryStore.stored_orElse, !stored_tidy by assumption.
    rewrite withTitleContent_same. reflexivity.
  - cbn [session handle].
    rewrite (@EntryStore.entries_saveOpenEntryEdits_some _ entry) by reflexivity.
    simpl. apply EntryStore.map_untouched. exact Hpatch.
  - simpl. unfold saveOpenEntryEdits. simpl.
    rewrite Z.eqb_refl, !EntryStore.stored_orElse, !stored_tidy by assumption.
    rewrite withTitleContent_same. reflexivity.
Qed.

End WithRuntime.

Lemma store_stays_normalized_witness :
  Forall normalized
    (entries
       (session (RT := SmallHost.host)
          [SaveEdits; Compose (TypeTitle (js " b "));
           Compose (Submit (RT := SmallHost.host) 5%Z 750%Z);
           Compose (Scan (RT := SmallHost.host) 750%Z Samples.lakeText (js "data:"))]
          Samples.blankedEdit)).
Proof.
  apply Forall_forall.
  apply (@store_stays_normalized SmallHost.host).
  intros entry [<- | []].
  split; (split; [ discriminate | vm_compute; reflexivity ]).
Defined.

Lemma saved_edit_is_shown_witness :
  exists opened',
    openEntry (saveOpenEntryEdits Samples.blankedEdit) = Some opened' /\
    In opened' (entries (saveOpenEntryEdits Samples.blankedEdit)) /\
    MemoryEntry.id opened' = 7%Z /\
    MemoryEntry.title opened' = stored (js "   ") (js "Untitled memory") /\
    MemoryEntry.content opened' = stored (js " Two herons ") (js "No notes added.") /\
    isEditingEntry (saveOpenEntryEdits Samples.blankedEdit) = false.
Proof.
  apply (@saved_edit_is_shown Samples.blankedEdit Samples.heron eq_refl).
  left. reflexivity.
Defined.

Lemma untouched_save_changes_nothing_witness :
  entries (session (RT := SmallHost.host)
             [OpenEntry Samples.heron; BeginEdit; SaveEdits] Samples.blankedEdit)
  = [Samples.heron].
Proof.
  refine (proj1 (@untouched_save_changes_nothing SmallHost.host Samples.heron
                   Samples.blankedEdit (js "x") (js "y") _ _)).
  - split; (split; [ discriminate | vm_compute; reflexivity ]).
  - intros other [<- | []] _. reflexivity.
Defined.

End Dialog.

(** ** The calendar *)

Module CalendarIndex.
Import Page Spec Calendar CalendarSpec.

Lemma NoDup_map_inj {A B : Type} (f : A -> B) (l : list A) :
  (forall a b, f a = f b -> a = b) -> NoDup l -> NoDup (map f l).
Proof.
  intros Hinj Hl. induction Hl as [|a l Ha Hl IH]; simpl; constructor.
  - intros Hin. apply in_map_iff in Hin. destruct Hin as (b & Hb & Hin).
    apply Hinj in Hb. subst. contradiction.
  - exact IH.
Qed.

Lemma NoDup_append {A : Type} (l l' : list A) :
  NoDup l -> NoDup l' -> (forall a, In a l -> ~ In a l') -> NoDup (l ++ l').
Proof.
  intros Hl Hl' Hsep. induction Hl as [|a l Ha Hl IH]; simpl; [ exact Hl' | ].
  constructor.
  - intros Hin. apply in_app_or in Hin. destruct Hin as [Hin|Hin].
    + contradiction.
    + apply (Hsep a); [ left; reflexivity | exact Hin ].
  - apply IH. intros b Hb. apply Hsep. right. exact Hb.
Qed.

Lemma indices_NoDup (from count : Z) : NoDup (indices from count).
Proof.
  unfold indices. apply NoDup_map_inj; [ intros a b H; lia | apply seq_NoDup ].
Qed.

Lemma filter_map_all {A B : Type} (p : B -> bool) (f : A -> B) (l : list A) :
  (forall a, p (f a) = true) -> filter p (map f l) = map f l.
Proof.
  intros H. induction l as [|a l IH]; simpl; [ reflexivity | ].
  rewrite H, IH. reflexivity.
Qed.

Lemma filter_map_none {A B : Type} (p : B -> bool) (f : A -> B) (l : list A) :
  (forall a, p (f a) = false) -> filter p (map f l) = [].
Proof.
  intros H. induction l as [|a l IH]; simpl; [ reflexivity | ].
  rewrite H, IH. reflexivity.
Qed.

Section WithRuntime.
Context {RT : Runtime}.

Lemma filteredEntries_day (entries : list MemoryEntry.t) (key : jsstring) :
  toLowerCase [] = [] -> key <> [] ->
  filteredEntries entries [] (Some key) = filter (onDay key) entries.
Proof.
  intros Hlow Hkey. unfold filteredEntries.
  change (trim []) with (@nil N). rewrite Hlow.
  destruct key as [|c k]; [ congruence | ].
  apply filter_ext. intros entry. unfold onDay. simpl.
  destruct (parseDateLabel (MemoryEntry.dateLabel entry)) as [d|]; [ | reflexivity ].
  destruct (eqb_str (toDateKey d) (c :: k)); reflexivity.
Qed.

Lemma countEntry_tally (key : jsstring) (map : list (jsstring * Z)) (entry : MemoryEntry.t) :
  tally key (countEntry map entry)
  = (tally key map + if onDay key entry then 1 else 0)%Z.
Proof.
  unfold countEntry, onDay, tally.
  destruct (parseDateLabel (MemoryEntry.dateLabel entry)) as [d|]; [ | lia ].
  cbv zeta.
  destruct (eqb_str (toDateKey d) key) eqn:E.
  - apply eqb_str_true in E. subst key.
    rewrite Stored.getProp_setProp_same. reflexivity.
  - assert (Hne : key <> toDateKey d).
    { intros ->. rewrite (proj2 (eqb_str_true _ _) eq_refl) in E. discriminate. }
    rewrite (Stored.getProp_setProp_other _ _ Hne). lia.
Qed.

Lemma countEntry_positive (map : list (jsstring * Z)) (entry : MemoryEntry.t) :
  positive map -> positive (countEntry map entry).
Proof.
  intros Hpos key n H. unfold countEntry in H.
  destruct (parseDateLabel (MemoryEntry.dateLabel entry)) as [d|]; [ | exact (Hpos _ _ H) ].
  cbv zeta in H.
  destruct (eq_str_dec key (toDateKey d)) as [->|Hne].
  - rewrite Stored.getProp_setProp_same in H. inversion H; subst n.
    destruct (getProp (toDateKey d) map) as [m|] eqn:G; [ | lia ].
    apply Hpos in G. lia.
  - rewrite (Stored.getProp_setProp_other _ _ Hne) in H. exact (Hpos _ _ H).
Qed.

Lemma fold_countEntry (key : jsstring) (entries : list MemoryEntry.t) :
  forall map,
    positive map ->
    positive (fold_left countEntry entries map) /\
    tally key (fold_left countEntry entries map)
    = (tally key map + Z.of_nat (length (filter (onDay key) entries)))%Z.
Proof.
  induction entries as [|entry rest IH]; intros map Hpos; simpl.
  - split; [ exact Hpos | lia ].
  - destruct (IH (countEntry map entry) (countEntry_positive entry Hpos)) as [Hp Ht].
    split; [ exact Hp | ].
    rewrite Ht, countEntry_tally.
    destruct (onDay key entry); simpl length; lia.
Qed.

(** The calendar counts what a click shows.  For a date key, the map of
    [entryDates] has the key exactly when selecting that day, with an empty
    search, shows at least one entry, and the number it holds is the number
    of entries shown. *)
Theorem entryDates_counts_shown_entries (entries : list MemoryEntry.t) (key : jsstring) :
  toLowerCase [] = [] ->
  key <> [] ->
  match getProp key (entryDates entries) with
  | Some n =>
      n = Z.of_nat (length (filteredEntries entries [] (Some key))) /\ (0 < n)%Z
  | None => filteredEntries entries [] (Some key) = []
  end.
Proof.
  intros Hlow Hkey. rewrite (filteredEntries_day entries Hlow Hkey).
  assert (Hempty : positive []) by (intros k n H; discriminate).
  destruct (fold_countEntry key entries Hempty) as [Hpos Htally].
  fold (entryDates entries) in Hpos, Htally.
  unfold tally in Htally. simpl in Htally.
  destruct (getProp key (entryDates entries)) as [n|] eqn:G.
  - split; [ exact Htally | exact (Hpos _ _ G) ].
  - apply length_zero_iff_nil. lia.
Qed.

Section Grid.
Context {GH : GridHost}.

(** The cells of a month have distinct keys. *)
Theorem monthGrid_keys_distinct (calendarMonth : Date) :
  NoDup (map key (monthGrid calendarMonth)).
Proof.
  unfold monthGrid. cbv zeta. rewrite map_app, !map_map. cbn [key].
  apply NoDup_append.
  - apply NoDup_map_inj; [ | apply indices_NoDup ].
    intros a b H. apply app_inv_head in H. apply Browse.String_of_Z_inj. exact H.
  - apply NoDup_map_inj; [ | apply indices_NoDup ].
    intros a b H. apply app_inv_head in H. apply Browse.String_of_Z_inj. exact H.
  - intros k Hblank Hday.
    apply in_map_iff in Hblank. destruct Hblank as (i & <- & _).
    apply in_map_iff in Hday. destruct Hday as (d & Hd & _).
    apply (f_equal (@hd N 0%N)) in Hd. vm_compute in Hd. discriminate.
Qed.

(** The buttons of the calendar are the days of the month: the cells with a
    date key carry the labels 1, 2, ... up to the number of days, in this
    order, and the cells without one are as many as the weekday of the
    first. *)
Theorem monthGrid_buttons_are_the_days (calendarMonth : Date) :
  map label (filter isButton (monthGrid calendarMonth))
  = indices 1
      (getDate (makeDate (getFullYear calendarMonth) (getMonth calendarMonth + 1) 0)) /\
  length (filter (fun cell => negb (isButton cell)) (monthGrid calendarMonth))
  = Z.to_nat (getDay (makeDate (getFullYear calendarMonth) (getMonth calendarMonth) 1)).
Proof.
  unfold monthGrid. cbv zeta. rewrite !filter_app. split.
  - rewrite filter_map_none by reflexivity.
    rewrite filter_map_all.
    + simpl. rewrite map_map. cbn [label]. apply map_id.
    + intros day. unfold isButton. cbn [dateKey].
      apply truthy_true_iff. apply Browse.toDateKey_nonempty.
  - rewrite filter_map_all by reflexivity.
    rewrite filter_map_none.
    + rewrite app_nil_r, length_map. unfold indices.
      rewrite length_map, length_seq. reflexivity.
    + intros day. unfold isButton. cbn [dateKey].
      apply negb_false_iff. apply truthy_true_iff. apply Browse.toDateKey_nonempty.
Qed.

End Grid.

End WithRuntime.

Lemma entryDates_counts_shown_entries_witness :
  match
    getProp (toDateKey (RT := SmallHost.host) 4%Z)
      (entryDates (RT := SmallHost.host) [Samples.gymDay; Samples.readingDay; Samples.gymDay])
  with
  | Some n =>
      n = Z.of_nat
            (length
               (filteredEntries (RT := SmallHost.host)
                  [Samples.gymDay; Samples.readingDay; Samples.gymDay] []
                  (Some (toDateKey (RT := SmallHost.host) 4%Z)))) /\ (0 < n)%Z
  | None =>
      filteredEntries (RT := SmallHost.host)
        [Samples.gymDay; Samples.readingDay; Samples.gymDay] []
        (Some (toDateKey (RT := SmallHost.host) 4%Z)) = []
  end.
Proof.
  apply (@entryDates_counts_shown_entries SmallHost.host
           [Samples.gymDay; Samples.readingDay; Samples.gymDay]
           (toDateKey (RT := SmallHost.host) 4%Z) eq_refl).
  vm_compute. discriminate.
Defined.

End CalendarIndex.

(** ** The profile in local storage *)

Module Profile.
Import UserProfile Onboarding ProfileSpec Persist.

Lemma getItem_setItem_other (s s' : Storage.t) (key other value : jsstring) :
  Storage.setItem s key value = Returned s' ->
  other <> key ->
  Storage.getItem s' other = Storage.getItem s other.
Proof.
  unfold Storage.setItem, Storage.getItem. intros H Hne.
  destruct (Storage.denied s) eqn:D; [ discriminate | ].
  destruct (Storage.room s <? length value)%nat; [ discriminate | ].
  inversion H; subst s'. simpl. rewrite ?D.
  rewrite (Stored.getProp_setProp_other _ _ Hne). reflexivity.
Qed.

Lemma keys_differ : entriesStorageKey <> storageKey.
Proof. vm_compute. discriminate. Qed.

Section WithRuntime.
Context {RT : Runtime}.

(** A saved profile is found at the next visit.  Where the write to local
    storage succeeds and the host's parser reads the host's JSON text of the
    profile back, saving a form whose name is not blank stores the profile
    with the trimmed name, [readStoredProfile] then returns it (so the
    onboarding is not shown again), and the page holds the same profile and
    has closed the onboarding. *)
Theorem saveProfile_then_read (localStorage : Storage.t) (ob : OnboardingState) :
  trim (nameInput ob) <> [] ->
  Storage.denied localStorage = false ->
  (length (JSON_stringify (jsonOfProfile (typedProfile ob))) <= Storage.room localStorage)%nat ->
  JSON_stringify (jsonOfProfile (typedProfile ob)) <> [] ->
  JSON_parse (JSON_stringify (jsonOfProfile (typedProfile ob)))
  = Some (jsonOfProfile (typedProfile ob)) ->
  readStoredProfile (fst (saveProfile (Some localStorage) ob)) storageKey
  = Some (jsonOfProfile (typedProfile ob)) /\
  profile (snd (saveProfile (Some localStorage) ob)) = Some (typedProfile ob) /\
  showOnboarding (snd (saveProfile (Some localStorage) ob)) = false.
Proof.
  intros Hname Hopen Hroom Htext Hparse.
  unfold saveProfile. cbv zeta.
  apply truthy_true_iff in Hname. rewrite Hname. cbn [negb].
  fold (typedProfile ob).
  unfold Storage.setItem. rewrite Hopen.
  apply Nat.leb_le in Hroom. rewrite Nat.ltb_antisym, Hroom. cbn [negb fst snd profile showOnboarding].
  split; [ | split; reflexivity ].
  unfold readStoredProfile, Storage.getItem. cbn [Storage.denied Storage.items].
  rewrite ?Hopen, Stored.getProp_setProp_same.
  destruct (JSON_stringify (jsonOfProfile (typedProfile ob))) as [|c raw] eqn:E;
    [ congruence | ].
  rewrite Hparse. unfold jsonOfProfile at 1.
  change (getProp (js "name")
            [(js "name", JStr (name (typedProfile ob)));
             (js "gender", JStr (genderText (gender (typedProfile ob))))])
    with (Some (JStr (name (typedProfile ob)))).
  change (getProp (js "gender")
            [(js "name", JStr (name (typedProfile ob)));
             (js "gender", JStr (genderText (gender (typedProfile ob))))])
    with (Some (JStr (genderText (gender (typedProfile ob))))).
  cbn [jsTruthy]. unfold typedProfile at 1 2. cbn [name gender].
  rewrite Hname. destruct (genderInput ob); reflexivity.
Qed.

(** The two keys of local storage do not interfere: saving the profile
    changes nothing of what [readStoredEntries] finds, and persisting the
    entries changes nothing of what [readStoredProfile] finds, whether the
    writes succeed or fail. *)
Theorem profile_and_entries_are_apart (window : option Storage.t)
  (ob : OnboardingState) (entries : list json) :
  readStoredEntries (fst (saveProfile window ob)) entriesStorageKey
  = readStoredEntries window entriesStorageKey /\
  readStoredProfile (persistEntries window entriesStorageKey entries) storageKey
  = readStoredProfile window storageKey.
Proof.
  split.
  - unfold saveProfile. cbv zeta.
    destruct (negb (truthy (trim (nameInput ob)))); [ reflexivity | ].
    destruct window as [localStorage|]; [ | reflexivity ].
    cbn [fst].
    destruct (Storage.setItem localStorage storageKey
                (JSON_stringify (jsonOfProfile (mk (trim (nameInput ob)) (genderInput ob)))))
      as [stored|] eqn:E; [ | reflexivity ].
    unfold readStoredEntries.
    rewrite (getItem_setItem_other _ _ E keys_differ). reflexivity.
  - unfold persistEntries.
    destruct window as [localStorage|]; [ | reflexivity ].
    destruct (Storage.setItem localStorage entriesStorageKey (JSON_stringify (JArr entries)))
      as [stored|] eqn:E; [ | reflexivity ].
    unfold readStoredProfile.
    rewrite (getItem_setItem_other _ _ E (not_eq_sym keys_differ)). reflexivity.
Qed.

End WithRuntime.

Lemma saveProfile_then_read_witness :
  readStoredProfile (RT := SmallHost.host)
    (fst (saveProfile (RT := SmallHost.host) (Some Samples.emptyStorage) adaForm)) storageKey
  = Some (jsonOfProfile (typedProfile adaForm)).
Proof.
  refine (proj1 (@saveProfile_then_read SmallHost.host Samples.emptyStorage adaForm
                   _ eq_refl _ _ _)).
  - vm_compute. discriminate.
  - vm_compute. lia.
  - vm_compute. discriminate.
  - vm_compute. reflexivity.
Defined.

End Profile.

(** ** The pattern of a data URI *)

Module DataUri.
Import Page ScanFlow ScanSpec JSFacts.

Lemma rx_lit_spec (lit s r : jsstring) : rx_lit lit s = Some r <-> s = lit ++ r.
Proof.
  unfold rx_lit. split.
  - destruct (startsWith lit s) eqn:E; [ | discriminate ].
    intros H. inversion H. apply startsWith_spec in E. destruct E as [t ->].
    rewrite skipn_app, skipn_all, Nat.sub_diag. reflexivity.
  - intros ->. rewrite startsWith_app, skipn_app, skipn_all, Nat.sub_diag. reflexivity.
Qed.

Lemma rx_lit_head (a c : N) (lit u : jsstring) :
  rx_lit (a :: lit) (c :: u) <> None -> c = a.
Proof.
  unfold rx_lit. change (startsWith (a :: lit) (c :: u)) with ((a =? c)%N && startsWith lit u).
  destruct (a =? c)%N eqn:E.
  - apply N.eqb_eq in E. auto.
  - simpl. congruence.
Qed.

Lemma rx_lazy_eq {R : Type} (cls : N -> bool) (k : jsstring -> option R) (s : jsstring) :
  rx_lazy cls k s =
  match k s with
  | Some r => Some ([], r)
  | None =>
      match s with
      | c :: t =>
          if cls c then
            match rx_lazy cls k t with
            | Some (g, r) => Some (c :: g, r)
            | None => None
            end
          else None
      | [] => None
      end
  end.
Proof. destruct s; reflexivity. Qed.

(** With the end of the string behind it, the greedy star takes the whole
    string or fails. *)
Lemma rx_greedy_end (cls : N -> bool) (s : jsstring) :
  rx_greedy cls rx_end s = if forallb cls s then Some s else None.
Proof.
  induction s as [|c t IH]; [ reflexivity | ].
  simpl. destruct (cls c); simpl; [ | reflexivity ].
  rewrite IH. destruct (forallb cls t); reflexivity.
Qed.

Lemma rx_lazy_sound {R : Type} (cls : N -> bool) (k : jsstring -> option R) :
  forall s g r,
    rx_lazy cls k s = Some (g, r) ->
    exists t, s = g ++ t /\ forallb cls g = true /\ k t = Some r.
Proof.
  induction s as [|c t IH]; intros g r H; rewrite rx_lazy_eq in H.
  - destruct (k []) as [r0|] eqn:K; [ | discriminate ].
    inversion H; subst. exists []. auto.
  - destruct (k (c :: t)) as [r0|] eqn:K.
    + inversion H; subst. exists (c :: t). auto.
    + destruct (cls c) eqn:C; [ | discriminate ].
      destruct (rx_lazy cls k t) as [[g0 r0]|] eqn:L; [ | discriminate ].
      inversion H; subst. destruct (IH _ _ eq_refl) as (u & -> & Hg & Hk).
      exists u. simpl. rewrite C, Hg. auto.
Qed.

Lemma rx_lazy_complete {R : Type} (cls : N -> bool) (k : jsstring -> option R)
  (t : jsstring) (r : R) :
  k t = Some r ->
  forall g, forallb cls g = true -> exists g' r', rx_lazy cls k (g ++ t) = Some (g', r').
Proof.
  intros Hk. induction g as [|c g IH]; intros Hg; rewrite rx_lazy_eq.
  - simpl. rewrite Hk. eauto.
  - simpl in Hg. apply andb_true_iff in Hg. destruct Hg as [Hc Hg].
    simpl. destruct (k (c :: g ++ t)) as [r0|]; [ eauto | ].
    rewrite Hc. destruct (IH Hg) as (g' & r' & ->). eauto.
Qed.

Lemma rx_lazy_first {R : Type} (cls : N -> bool) (k : jsstring -> option R)
  (t : jsstring) (r : R) :
  k t = Some r ->
  forall g,
    forallb cls g = true ->
    (forall c u, k (c :: u) <> None -> In c g -> False) ->
    rx_lazy cls k (g ++ t) = Some (g, r).
Proof.
  intros Hk. induction g as [|c g IH]; intros Hg Hfree; rewrite rx_lazy_eq.
  - simpl. rewrite Hk. reflexivity.
  - simpl in Hg. apply andb_true_iff in Hg. destruct Hg as [Hc Hg].
    simpl. destruct (k (c :: g ++ t)) as [r0|] eqn:K.
    + exfalso. apply (Hfree c (g ++ t)); [ rewrite K; discriminate | left; reflexivity ].
    + rewrite Hc, IH; [ reflexivity | exact Hg | ].
      intros c' u Hu Hin. apply (Hfree c' u Hu). right. exact Hin.
Qed.

(** What the pattern accepts.  A match of the source against the data URI
    pattern yields captures [m] and [b] with the source being [data:], [m],
    [;base64,] and [b], neither capture holding a line terminator; every
    source of this shape is matched; and where [m] has no semicolon the
    captures are [m] and [b] themselves. *)
Theorem matchDataUri_spec (imageSrc : jsstring) :
  (forall m b,
      matchDataUri imageSrc = Some (m, b) ->
      imageSrc = dataUri m b /\ dots m = true /\ dots b = true) /\
  (forall m b,
      imageSrc = dataUri m b -> dots m = true -> dots b = true ->
      (exists m' b', matchDataUri imageSrc = Some (m', b')) /\
      (noSemicolon m = true -> matchDataUri imageSrc = Some (m, b))).
Proof.
  unfold matchDataUri, dataUri, dots. split.
  - intros m b H.
    destruct (rx_lit (js "data:") imageSrc) as [s1|] eqn:L; [ | discriminate ].
    apply rx_lit_spec in L. subst imageSrc.
    apply rx_lazy_sound in H. destruct H as (t & -> & Hm & Hk).
    destruct (rx_lit (js ";base64,") t) as [s2|] eqn:L2; [ | discriminate ].
    apply rx_lit_spec in L2. subst t.
    rewrite rx_greedy_end in Hk.
    destruct (forallb rx_dot s2) eqn:Hb; [ | discriminate ].
    inversion Hk; subst. auto.
  - intros m b -> Hm Hb.
    rewrite (proj2 (rx_lit_spec (js "data:") _ _) eq_refl).
    set (k := fun s : jsstring =>
                match rx_lit (js ";base64,") s with
                | Some s2 => rx_greedy rx_dot rx_end s2
                | None => None
                end).
    assert (Hk : k (js ";base64," ++ b) = Some b).
    { unfold k. rewrite (proj2 (rx_lit_spec (js ";base64,") _ _) eq_refl).
      rewrite rx_greedy_end, Hb. reflexivity. }
    split.
    + exact (rx_lazy_complete rx_dot k _ Hk m Hm).
    + intros Hsemi. apply (rx_lazy_first rx_dot k _ Hk m Hm).
      intros c u Hu Hin. unfold noSemicolon in Hsemi.
      rewrite forallb_forall in Hsemi. specialize (Hsemi c Hin).
      assert (Hlit : rx_lit (js ";base64,") (c :: u) <> None).
      { unfold k in Hu. destruct (rx_lit (js ";base64,") (c :: u)); congruence. }
      change (js ";base64,") with (59%N :: js "base64,") in Hlit.
      apply rx_lit_head in Hlit. subst c. discriminate.
Qed.

End DataUri.

(** ** Scanning an image *)

Module ScanMore.
Import Page Spec ScanFlow ScanSpec Ocr.

Section WithRuntime.
Context {RT : Runtime}.

Ltac scan_cases :=
  repeat match goal with
         | |- context [match ?x with _ => _ end] => destruct x eqn:?
         end.

(** How a scan ends.  The dialog is open and no longer busy; at most one
    request was sent, and none exactly when the source is not a data URI;
    and either the page is as it was and no timer is set, or the request was
    answered with [ok], the page has one more entry, made by
    [createScannedEntry] from the image, the status says so and the timer
    that closes the dialog is set. *)
Theorem scanImageAndSave_outcomes
  (fetchOcr : jsstring -> jsstring -> completion OcrResponse)
  (entryDate : Date) (imageSrc : jsstring) (st : AppState) :
  scanDialogOpen (dialog (scanImageAndSave fetchOcr entryDate imageSrc st)) = true /\
  scanBusy (dialog (scanImageAndSave fetchOcr entryDate imageSrc st)) = false /\
  (length (requests (scanImageAndSave fetchOcr entryDate imageSrc st)) <= 1)%nat /\
  (requests (scanImageAndSave fetchOcr entryDate imageSrc st) = []
   <-> matchDataUri imageSrc = None) /\
  ((page (scanImageAndSave fetchOcr entryDate imageSrc st) = st /\
    timer (scanImageAndSave fetchOcr entryDate imageSrc st) = false)
   \/
   (exists rawText mimeType base64 response,
       matchDataUri imageSrc = Some (mimeType, base64) /\
       fetchOcr mimeType base64 = Returned response /\
       ok response = true /\
       page (scanImageAndSave fetchOcr entryDate imageSrc st)
       = createScannedEntry entryDate rawText imageSrc st /\
       scanStatus (dialog (scanImageAndSave fetchOcr entryDate imageSrc st))
       = JStr (js "Scanned and saved.") /\
       timer (scanImageAndSave fetchOcr entryDate imageSrc st) = true)).
Proof.
  unfold scanImageAndSave.
  destruct (matchDataUri imageSrc) as [[mimeType base64]|] eqn:M.
  - assert (Hreq : forall l : list (jsstring * jsstring),
               l = [(mimeType, base64)] ->
               ((length l <= 1)%nat /\ (l = [] <-> Some (mimeType, base64) = None))).
    { intros l ->. split; [ simpl; lia | split; discriminate ]. }
    destruct (fetchOcr mimeType base64) as [response|] eqn:F; cbv zeta.
    + destruct (ok response) eqn:K; cbn [negb].
      * scan_cases; cbn [dialog page timer requests scanDialogOpen scanBusy scanStatus];
          (split; [ reflexivity | split; [ reflexivity | ] ]);
          (split; [ exact (proj1 (Hreq _ eq_refl)) | ]);
          (split; [ exact (proj2 (Hreq _ eq_refl)) | ]);
          try (left; split; reflexivity);
          right; eexists _, mimeType, base64, response;
          (split; [ reflexivity | split; [ exact F | split; [ exact K | ] ] ]);
          (split; [ reflexivity | split; reflexivity ]).
      * scan_cases; cbn [dialog page timer requests scanDialogOpen scanBusy scanStatus];
          (split; [ reflexivity | split; [ reflexivity | ] ]);
          (split; [ exact (proj1 (Hreq _ eq_refl)) | ]);
          (split; [ exact (proj2 (Hreq _ eq_refl)) | ]);
          left; split; reflexivity.
    + cbn [dialog page timer requests scanDialogOpen scanBusy scanStatus].
      split; [ reflexivity | split; [ reflexivity | ] ].
      split; [ exact (proj1 (Hreq _ eq_refl)) | ].
      split; [ exact (proj2 (Hreq _ eq_refl)) | ].
      left. split; reflexivity.
  - cbn [dialog page timer requests scanDialogOpen scanBusy scanStatus].
    split; [ reflexivity | split; [ reflexivity | ] ].
    split; [ simpl; lia | ].
    split; [ split; reflexivity | ].
    left. split; reflexivity.
Qed.

Variable callGemini : jsstring -> jsstring -> jsstring -> jsstring -> FetchResponse.

(** The loop over the models ends at the first model that is not answered
    with a failure status, by its answer or by a rejection, or fails after
    all of them. *)
Lemma attempt_cases (apiKey mimeType base64 : jsstring) :
  forall remaining lastError called,
    (exists failed model later payload,
        remaining = failed ++ model :: later /\
        (forall x, In x failed -> fails callGemini apiKey mimeType base64 x) /\
        callGemini apiKey model mimeType base64 = Ok payload /\
        attempt callGemini apiKey mimeType base64 remaining lastError called
        = (Responded
             (HttpResponse.mk 200 (JObj [ (js "text", JStr (extractText payload)) ])),
           called ++ failed ++ [model]))
    \/
    (exists failed model later,
        remaining = failed ++ model :: later /\
        (forall x, In x failed -> fails callGemini apiKey mimeType base64 x) /\
        breaks callGemini apiKey mimeType base64 model /\
        attempt callGemini apiKey mimeType base64 remaining lastError called
        = (Rejected, called ++ failed ++ [model]))
    \/
    ((forall x, In x remaining -> fails callGemini apiKey mimeType base64 x) /\
     exists details,
       attempt callGemini apiKey mimeType base64 remaining lastError called
       = (Responded (failure details), called ++ remaining)).
Proof.
  induction remaining as [|model rest IH]; intros lastError called.
  - right. right. split; [ intros x [] | ].
    exists lastError. simpl. rewrite app_nil_r. reflexivity.
  - simpl. destruct (callGemini apiKey model mimeType base64) as [ | raw | | payload ] eqn:C.
    + right. left. exists [], model, rest.
      split; [ reflexivity | split; [ intros x [] | split; [ left; exact C | reflexivity ] ] ].
    + destruct (IH (errorMessage raw) (called ++ [model]))
        as [(failed & good & later & payload & -> & Hfailed & Hok & ->)
           | [(failed & bad & later & -> & Hfailed & Hbad & ->)
             | (Hall & details & ->)]].
      * left. exists (model :: failed), good, later, payload.
        split; [ reflexivity | split; [ | split; [ exact Hok | ] ] ].
        -- intros x [<- | Hx]; [ exists raw; exact C | apply Hfailed; exact Hx ].
        -- rewrite <- app_assoc. reflexivity.
      * right. left. exists (model :: failed), bad, later.
        split; [ reflexivity | split; [ | split; [ exact Hbad | ] ] ].
        -- intros x [<- | Hx]; [ exists raw; exact C | apply Hfailed; exact Hx ].
        -- rewrite <- app_assoc. reflexivity.
      * right. right. split.
        -- intros x [<- | Hx]; [ exists raw; exact C | apply Hall; exact Hx ].
        -- exists details. rewrite <- app_assoc. reflexivity.
    + right. left. exists [], model, rest.
      split; [ reflexivity | split; [ intros x [] | split; [ right; exact C | reflexivity ] ] ].
    + left. exists [], model, rest, payload.
      split; [ reflexivity | split; [ intros x [] | split; [ exact C | reflexivity ] ] ].
Qed.

(** Every outcome of the handler, classified.  The handler rejects in two
    cases only: with a key, on a request body that is not JSON, having
    called nobody; and with a key and both fields, when the call for some
    model breaks (it throws, or has a success status and a body that cannot
    be used) after the provider answered the models before it with a failure
    status.  It answers 200 only with a key and both fields, with the text
    extracted from the answer of the first model that was not answered with
    a failure status, after calling the models up to this one, in order.
    Every other answer has the status 400, 500 or 502 and an [error] text,
    and then the provider was called with every model (502) or not at all. *)
Theorem POST_classified (key : option jsstring) (request : RequestJson) :
  match fst (POST callGemini key request) with
  | Rejected =>
      ~ keyAbsent key /\
      ((request = NotJson /\ snd (POST callGemini key request) = []) \/
       (exists apiKey mimeType base64 failed model later,
           key = Some apiKey /\
           request = Body (Some (OcrBody.mk (Some mimeType) (Some base64))) /\
           models = failed ++ model :: later /\
           snd (POST callGemini key request) = failed ++ [model] /\
           (forall x, In x failed -> fails callGemini apiKey mimeType base64 x) /\
           breaks callGemini apiKey mimeType base64 model))
  | Responded response =>
      (HttpResponse.status response = 200%Z /\
       exists apiKey mimeType base64 failed model later payload,
         key = Some apiKey /\
         request = Body (Some (OcrBody.mk (Some mimeType) (Some base64))) /\
         models = failed ++ model :: later /\
         snd (POST callGemini key request) = failed ++ [model] /\
         (forall x, In x failed -> fails callGemini apiKey mimeType base64 x) /\
         callGemini apiKey model mimeType base64 = Ok payload /\
         HttpResponse.body response = JObj [ (js "text", JStr (extractText payload)) ])
      \/
      (exists fields message,
          HttpResponse.body response = JObj fields /\
          getProp (js "error") fields = Some (JStr message) /\
          ((HttpResponse.status response = 502%Z /\
            snd (POST callGemini key request) = models) \/
           ((HttpResponse.status response = 400%Z \/ HttpResponse.status response = 500%Z) /\
            snd (POST callGemini key request) = [])))
  end.
Proof.
  unfold POST.
  destruct key as [[|k apiKey]|].
  - right. eexists _, _. cbn [fst snd HttpResponse.body HttpResponse.status].
    split; [ reflexivity | split; [ reflexivity | right; split; [ right | ]; reflexivity ] ].
  - assert (Hkey : ~ keyAbsent (Some (k :: apiKey))) by (intros [H | H]; discriminate).
    destruct request as [|[[[[|m mimeType]|] [[|b base64]|]]|]];
      try (cbn [fst snd]; split; [ exact Hkey | left; split; reflexivity ]);
      try (right; eexists _, _; cbn [fst snd HttpResponse.body HttpResponse.status];
           split; [ reflexivity | split; [ reflexivity | right; split; [ left | ]; reflexivity ] ]).
    destruct (attempt_cases (k :: apiKey) (m :: mimeType) (b :: base64) models JNull [])
      as [(failed & model & later & payload & Hmodels & Hfailed & Hok & ->)
         | [(failed & model & later & Hmodels & Hfailed & Hbad & ->)
           | (Hall & details & ->)]].
    + left. cbn [fst snd HttpResponse.body HttpResponse.status].
      split; [ reflexivity | ].
      exists (k :: apiKey), (m :: mimeType), (b :: base64), failed, model, later, payload.
      repeat (split; [ first [ reflexivity | assumption ] | ]). reflexivity.
    + cbn [fst snd]. split; [ exact Hkey | right ].
      exists (k :: apiKey), (m :: mimeType), (b :: base64), failed, model, later.
      repeat (split; [ first [ reflexivity | assumption ] | ]). exact Hbad.
    + right. eexists _, _. cbn [fst snd HttpResponse.body HttpResponse.status failure].
      split; [ reflexivity | split; [ reflexivity | left; split; reflexivity ] ].
  - right. eexists _, _. cbn [fst snd HttpResponse.body HttpResponse.status].
    split; [ reflexivity | split; [ reflexivity | right; split; [ right | ]; reflexivity ] ].
Qed.

(** A scan through the route handler.  For a source the pattern splits into
    a MIME type [m] and data [b]: without an API key the dialog shows the
    handler's message about the key; with a key and an empty [m] or [b] it
    shows that both are required; otherwise one of three things happens.
    Some model answers after the provider answered the models before it with
    a failure status, and the page gets the entry made from the text of that
    answer.  Or the call for some model breaks after such failures, the
    handler rejects, and the page keeps its entries and shows "Gemini OCR
    failed.".  Or the provider answers every model with a failure status,
    and the page keeps its entries and shows that the request failed. *)
Theorem scan_through_route (key : option jsstring) (entryDate : Date)
  (imageSrc m b : jsstring) (st : AppState) :
  matchDataUri imageSrc = Some (m, b) ->
  (keyAbsent key ->
   page (scanImageAndSave (viaRoute callGemini key) entryDate imageSrc st) = st /\
   scanStatus (dialog (scanImageAndSave (viaRoute callGemini key) entryDate imageSrc st))
   = JStr (js "Missing GEMINI_API_KEY in environment.")) /\
  (~ keyAbsent key -> m = [] \/ b = [] ->
   page (scanImageAndSave (viaRoute callGemini key) entryDate imageSrc st) = st /\
   scanStatus (dialog (scanImageAndSave (viaRoute callGemini key) entryDate imageSrc st))
   = JStr (js "mimeType and base64 are required.")) /\
  (forall apiKey,
      key = Some apiKey -> apiKey <> [] -> m <> [] -> b <> [] ->
      (exists failed model later payload,
          models = failed ++ model :: later /\
          (forall x, In x failed -> fails callGemini apiKey m b x) /\
          callGemini apiKey model m b = Ok payload /\
          page (scanImageAndSave (viaRoute callGemini key) entryDate imageSrc st)
          = createScannedEntry entryDate (extractText payload) imageSrc st /\
          scanStatus (dialog (scanImageAndSave (viaRoute callGemini key) entryDate imageSrc st))
          = JStr (js "Scanned and saved.") /\
          timer (scanImageAndSave (viaRoute callGemini key) entryDate imageSrc st) = true)
      \/
      (exists failed model later,
          models = failed ++ model :: later /\
          (forall x, In x failed -> fails callGemini apiKey m b x) /\
          breaks callGemini apiKey m b model /\
          page (scanImageAndSave (viaRoute callGemini key) entryDate imageSrc st) = st /\
          scanStatus (dialog (scanImageAndSave (viaRoute callGemini key) entryDate imageSrc st))
          = JStr (js "Gemini OCR failed.") /\
          timer (scanImageAndSave (viaRoute callGemini key) entryDate imageSrc st) = false)
      \/
      ((forall x, In x models -> fails callGemini apiKey m b x) /\
       page (scanImageAndSave (viaRoute callGemini key) entryDate imageSrc st) = st /\
       scanStatus (dialog (scanImageAndSave (viaRoute callGemini key) entryDate imageSrc st))
       = JStr (js "Gemini OCR request failed.") /\
       timer (scanImageAndSave (viaRoute callGemini key) entryDate imageSrc st) = false)).
Proof.
  intros Hmatch. unfold scanImageAndSave. rewrite Hmatch. cbv zeta.
  unfold viaRoute. split; [ | split ].
  - intros [-> | ->]; split; reflexivity.
  - intros Hkey Hempty.
    destruct key as [[|k apiKey]|];
      [ exfalso; apply Hkey; right; reflexivity
      | | exfalso; apply Hkey; left; reflexivity ].
    destruct Hempty as [-> | ->]; [ split; reflexivity | ].
    destruct m; split; reflexivity.
  - intros apiKey -> Hkey Hm Hb.
    destruct apiKey as [|k apiKey]; [ congruence | ].
    destruct m as [|c m]; [ congruence | ].
    destruct b as [|d b]; [ congruence | ].
    unfold POST.
    destruct (attempt_cases (k :: apiKey) (c :: m) (d :: b) models JNull [])
      as [(failed & model & later & payload & Hmodels & Hfailed & Hok & ->)
         | [(failed & model & later & Hmodels & Hfailed & Hbad & ->)
           | (Hall & details & ->)]].
    + left. exists failed, model, later, payload.
      repeat (split; [ first [ reflexivity | assumption ] | ]). reflexivity.
    + right. left. exists failed, model, later.
      repeat (split; [ first [ reflexivity | assumption ] | ]). reflexivity.
    + right. right. split; [ exact Hall | ]. repeat split; reflexivity.
Qed.

End WithRuntime.

Lemma scan_through_route_witness :
  page (scanImageAndSave (RT := SmallHost.host)
          (viaRoute (RT := SmallHost.host) Samples.secondAnswers None)
          750%Z pngUri Samples.titledDraft)
  = Samples.titledDraft /\
  scanStatus (dialog (scanImageAndSave (RT := SmallHost.host)
                        (viaRoute (RT := SmallHost.host) Samples.secondAnswers None)
                        750%Z pngUri Samples.titledDraft))
  = JStr (js "Missing GEMINI_API_KEY in environment.").
Proof.
  refine (proj1 (@scan_through_route SmallHost.host Samples.secondAnswers None 750%Z
                   pngUri (js "image/png") (js "AAAA") Samples.titledDraft _) _).
  - vm_compute. reflexivity.
  - left. reflexivity.
Defined.

(** A provider that cannot be reached: the handler rejects after the first
    call, and the page shows its own failure text. *)
Example scan_with_unreachable_provider :
  POST (RT := SmallHost.host) unreachable (Some (js "k")) (Body (Some Samples.pngBody))
  = (Rejected, [js "gemini-2.5-flash"]) /\
  scanStatus (dialog (scanImageAndSave (RT := SmallHost.host)
                        (viaRoute (RT := SmallHost.host) unreachable (Some (js "k")))
                        750%Z pngUri Samples.titledDraft))
  = JStr (js "Gemini OCR failed.").
Proof. split; vm_compute; reflexivity. Qed.

End ScanMore.

(** ** What the page reads from local storage *)

Module StoredMore.
Import Spec Spec2 Persist.

Section WithRuntime.
Context {RT : Runtime}.

Lemma badgesOrEmpty_list (fields : list (jsstring * json)) :
  exists badges, badgesOrEmpty fields = JArr badges.
Proof.
  unfold badgesOrEmpty.
  destruct (getProp (js "badges") fields) as [[| | | | badges |]|]; eauto.
Qed.

Lemma withBadges_fit (entry : json) :
  hasNumericId entry = true ->
  fitRecord (withBadges entry) /\
  hasNumericId (withBadges entry) = true /\
  withBadges (withBadges entry) = withBadges entry.
Proof.
  intros H. apply Stored.hasNumericId_spec in H. destruct H as (fields & q & -> & Hid).
  destruct (badgesOrEmpty_list fields) as [badges Hb].
  assert (Hid' : getProp (js "id") (setProp (js "badges") (badgesOrEmpty fields) fields)
                 = Some (JNum q)).
  { rewrite Stored.getProp_setProp_other; [ exact Hid | vm_compute; discriminate ]. }
  assert (Hbadges : getProp (js "badges") (setProp (js "badges") (badgesOrEmpty fields) fields)
                    = Some (JArr badges)).
  { rewrite Stored.getProp_setProp_same, Hb. reflexivity. }
  cbn [withBadges]. split; [ | split ].
  - exists (setProp (js "badges") (badgesOrEmpty fields) fields), q, badges. auto.
  - cbn [hasNumericId]. rewrite Hid'. reflexivity.
  - f_equal. unfold badgesOrEmpty at 1. rewrite Hbadges.
    apply Stored.setProp_same_value. exact Hbadges.
Qed.

Lemma sanitizeEntries_fit (parsed : list json) :
  Forall fitRecord (sanitizeEntries parsed) /\
  sanitizeEntries (sanitizeEntries parsed) = sanitizeEntries parsed.
Proof.
  unfold sanitizeEntries. induction parsed as [|entry rest [IHfit IHfix]]; simpl.
  - split; [ constructor | reflexivity ].
  - destruct (hasNumericId entry) eqn:E; [ | split; assumption ].
    destruct (withBadges_fit entry E) as (Hfit & Hid & Hfix).
    cbn [map filter]. rewrite Hid. cbn [map]. rewrite Hfix.
    split; [ constructor; assumption | f_equal; exact IHfix ].
Qed.

(** What the page reads is fit and stable.  Whatever local storage holds
    and whatever the parser makes of it, every record that
    [readStoredEntries] returns is an object with a numeric [id] and a list
    of [badges]; sanitising the result again changes nothing; and where the
    write succeeds and the host's parser reads the host's JSON text of the
    result back, persisting the result and reading again returns the same
    records. *)
Theorem readStoredEntries_fit (window : option Storage.t) (key : jsstring) :
  Forall fitRecord (readStoredEntries window key) /\
  sanitizeEntries (readStoredEntries window key) = readStoredEntries window key /\
  (forall localStorage,
      Storage.denied localStorage = false ->
      (length (JSON_stringify (JArr (readStoredEntries window key)))
       <= Storage.room localStorage)%nat ->
      JSON_stringify (JArr (readStoredEntries window key)) <> [] ->
      JSON_parse (JSON_stringify (JArr (readStoredEntries window key)))
      = Some (JArr (readStoredEntries window key)) ->
      readStoredEntries
        (persistEntries (Some localStorage) key (readStoredEntries window key)) key
      = readStoredEntries window key).
Proof.
  assert (H : Forall fitRecord (readStoredEntries window key) /\
              sanitizeEntries (readStoredEntries window key) = readStoredEntries window key).
  { unfold readStoredEntries.
    destruct window as [localStorage|]; [ | split; [ constructor | reflexivity ] ].
    destruct (Storage.getItem localStorage key) as [[[|c raw]|]|];
      try (split; [ constructor | reflexivity ]).
    destruct (JSON_parse (c :: raw)) as [[| | | | parsed |]|];
      try (split; [ constructor | reflexivity ]).
    apply sanitizeEntries_fit. }
  destruct H as [Hfit Hfix].
  split; [ exact Hfit | split; [ exact Hfix | ] ].
  intros localStorage Hopen Hroom Htext Hparse.
  rewrite (Stored.load_after_save _ _ Hopen Hroom Htext Hparse). exact Hfix.
Qed.

End WithRuntime.

End StoredMore.

(** ** Dates of entries *)

Module DayOfEntry.
Import Page Spec Calendar CalendarSpec TrimFacts.

Section WithRuntime.
Context {RT : Runtime}.

Lemma toDateKey_of_sameDay (a b : Date) : sameDay a b -> toDateKey a = toDateKey b.
Proof. intros (Hy & Hm & Hd). unfold toDateKey. rewrite Hy, Hm, Hd. reflexivity. Qed.

(** A new entry is found on its day.  Where the host reads the short label
    of the entry date back as a date of the same day, an accepted submission
    puts the new entry first among the entries shown when that day is
    selected, and the calendar then counts at least one entry for the day. *)
Theorem entry_found_on_its_day (now : Z) (entryDate parsed : Date) (st : AppState) :
  toLowerCase [] = [] ->
  ~ draftIsEmpty st ->
  parseDateLabel (formatDateLabel entryDate) = Some parsed ->
  sameDay parsed entryDate ->
  filteredEntries (entries (handleSubmit now entryDate st))
    (query (handleSubmit now entryDate st)) (Some (toDateKey entryDate))
  = composedEntry now entryDate st
    :: filteredEntries (entries st) [] (Some (toDateKey entryDate)) /\
  exists n,
    getProp (toDateKey entryDate) (entryDates (entries (handleSubmit now entryDate st)))
    = Some n /\ (1 <= n)%Z.
Proof.
  intros Hlow Hne Hparse Hsame.
  rewrite (Appends.handleSubmit_accepted now entryDate Hne).
  change (entries (resetComposer
            (setQuery [] (setEntries (fun prev => composedEntry now entryDate st :: prev) st))))
    with (composedEntry now entryDate st :: entries st).
  change (query (resetComposer
            (setQuery [] (setEntries (fun prev => composedEntry now entryDate st :: prev) st))))
    with (@nil N).
  assert (Hon : onDay (toDateKey entryDate) (composedEntry now entryDate st) = true).
  { unfold onDay. cbn [composedEntry MemoryEntry.dateLabel]. rewrite Hparse.
    apply eqb_str_true. apply toDateKey_of_sameDay. exact Hsame. }
  pose proof (Browse.toDateKey_nonempty entryDate) as Hkey.
  rewrite !(CalendarIndex.filteredEntries_day _ Hlow Hkey).
  split.
  - cbn [filter]. rewrite Hon. reflexivity.
  - assert (Hempty : positive []) by (intros k n H; discriminate).
    destruct (CalendarIndex.fold_countEntry (toDateKey entryDate)
                (composedEntry now entryDate st :: entries st) Hempty) as [_ Htally].
    fold (entryDates (composedEntry now entryDate st :: entries st)) in Htally.
    unfold tally in Htally. cbn [filter] in Htally. rewrite Hon in Htally.
    cbn [length getProp] in Htally.
    destruct (getProp (toDateKey entryDate)
                (entryDates (composedEntry now entryDate st :: entries st))) as [n|].
    + exists n. split; [ reflexivity | lia ].
    + exfalso. lia.
Qed.

Hypothesis laws : HostLaws.

(** The date key has two digits for the month and two for the day: on a
    host whose months are 0 to 11 and whose days are 1 to 31, [toDateKey] is
    the year, a hyphen, two characters that read as the month plus one, a
    hyphen, and two characters that read as the day. *)
Theorem toDateKey_fields (date : Date) :
  exists month day,
    toDateKey date = String_of_Z (getFullYear date) ++ js "-" ++ month ++ js "-" ++ day /\
    length month = 2%nat /\ length day = 2%nat /\
    unpad2 month = (getMonth date + 1)%Z /\ unpad2 day = getDate date.
Proof.
  pose proof (month_range laws date) as Hm. pose proof (date_range laws date) as Hd.
  exists (pad2 (getMonth date + 1)), (pad2 (getDate date)).
  split; [ reflexivity | ].
  rewrite !Browse.pad2_length, !Browse.unpad2_pad2 by lia. auto.
Qed.

End WithRuntime.

(** The title of a scan is short: at most 67 characters, not empty, and
    without white space at either end. *)
Theorem getScannedTitle_bounded (text : jsstring) :
  (length (getScannedTitle text) <= 67)%nat /\
  getScannedTitle text <> [] /\
  Spec2.edgesClean (getScannedTitle text) = true.
Proof.
  destruct (Dialog.getScannedTitle_tidy text) as [Hne Htrim].
  split; [ | split; [ exact Hne | rewrite <- Htrim; apply trim_edgesClean ] ].
  unfold getScannedTitle.
  destruct (find truthy (map trim (split nl text))) as [line|]; simpl negb.
  - destruct (truthy line); cbn [negb];
      [ | apply Nat.leb_le; vm_compute; reflexivity ].
    destruct (64 <? length line)%nat eqn:E.
    + rewrite length_app. pose proof (trim_length (slice0 64 line)) as Ht.
      unfold slice0 in *. rewrite length_firstn in Ht.
      change (length (js "...")) with 3%nat. lia.
    + apply Nat.ltb_ge in E. lia.
  - apply Nat.leb_le. vm_compute. reflexivity.
Qed.

Lemma entry_found_on_its_day_witness :
  exists n,
    getProp (toDateKey (RT := SmallHost.host) 750%Z)
      (entryDates (RT := SmallHost.host)
         (entries (handleSubmit (RT := SmallHost.host) 5%Z 750%Z Samples.titledDraft)))
    = Some n /\ (1 <= n)%Z.
Proof.
  refine (proj2 (@entry_found_on_its_day SmallHost.host 5%Z 750%Z 750%Z Samples.titledDraft
                   eq_refl Composer.titledDraft_not_empty _ _)).
  - vm_compute. reflexivity.
  - repeat split.
Defined.

Lemma toDateKey_fields_witness :
  exists month day,
    toDateKey (RT := SmallHost.host) 750%Z
    = String_of_Z (getFullYear (Runtime := SmallHost.host) 750%Z)
      ++ js "-" ++ month ++ js "-" ++ day /\
    length month = 2%nat /\ length day = 2%nat /\
    unpad2 month = (getMonth (Runtime := SmallHost.host) 750%Z + 1)%Z /\
    unpad2 day = getDate (Runtime := SmallHost.host) 750%Z.
Proof.
  exact (@toDateKey_fields SmallHost.host Browse.smallHost_laws 750%Z).
Defined.

End DayOfEntry.

(** ** The template of a scan, by the segments of the text *)

Module TemplateMore.
Import Page Spec2.

Lemma split_single (segment : jsstring) :
  ~ In nl segment -> split nl segment = [segment].
Proof.
  induction segment as [|c rest IH]; intros Hfree; [ reflexivity | ].
  cbn [split].
  destruct (N.eqb_spec c nl) as [->|Hne]; [ exfalso; apply Hfree; left; reflexivity | ].
  rewrite IH; [ reflexivity | ]. intros Hin. apply Hfree. right. exact Hin.
Qed.

Lemma split_app_nl (segment rest : jsstring) :
  ~ In nl segment -> split nl (segment ++ nl :: rest) = segment :: split nl rest.
Proof.
  induction segment as [|c more IH]; intros Hfree.
  - cbn [app split]. rewrite N.eqb_refl. reflexivity.
  - cbn [app split].
    destruct (N.eqb_spec c nl) as [->|Hne]; [ exfalso; apply Hfree; left; reflexivity | ].
    rewrite IH; [ reflexivity | ]. intros Hin. apply Hfree. right. exact Hin.
Qed.

(** Splitting undoes joining, for segments without line feeds. *)
Lemma split_join (segments : list jsstring) :
  segments <> [] ->
  (forall segment, In segment segments -> ~ In nl segment) ->
  split nl (join [nl] segments) = segments.
Proof.
  induction segments as [|a rest IH]; intros Hne Hfree; [ congruence | ].
  destruct rest as [|b rest].
  - apply split_single. apply Hfree. left. reflexivity.
  - change (join [nl] (a :: b :: rest)) with (a ++ nl :: join [nl] (b :: rest)).
    rewrite split_app_nl by (apply Hfree; left; reflexivity).
    rewrite IH; [ reflexivity | discriminate | ].
    intros segment Hin. apply Hfree. right. exact Hin.
Qed.

Lemma linesOf_filter (segments : list jsstring) :
  linesOf segments = filter truthy (map trim segments).
Proof.
  unfold linesOf. induction segments as [|a rest IH]; [ reflexivity | ].
  cbn [flat_map map filter]. rewrite IH.
  destruct (trim a); reflexivity.
Qed.

Lemma templateLines_segments (segments : list jsstring) :
  (forall segment, In segment segments -> ~ In nl segment) ->
  templateLines (join [nl] segments) = linesOf segments.
Proof.
  intros Hfree. rewrite linesOf_filter. unfold templateLines.
  destruct segments as [|a rest]; [ reflexivity | ].
  rewrite split_join; [ reflexivity | discriminate | exact Hfree ].
Qed.

(** The template of a scan, read off the text.  However the cleaned text
    is written as segments without line feeds joined by line feeds, with the
    lines being the trimmed segments that are not empty: the title is the
    first line, cut to its first 64 units, trimmed and followed by three
    dots when it is longer; the summary is the first two lines joined by a
    space; the highlights are the first five lines, each after a dash; the
    last section is the cleaned text; and every part has its placeholder
    for a text without lines. *)
Theorem buildScannedTemplate_from_segments (rawText : jsstring)
  (segments : list jsstring) :
  cleanText rawText = join [nl] segments ->
  (forall segment, In segment segments -> ~ In nl segment) ->
  t_title (buildScannedTemplate rawText)
  = match linesOf segments with
    | [] => js "Scanned Memory"
    | first :: _ =>
        if (64 <? length first)%nat then trim (firstn 64 first) ++ js "..." else first
    end /\
  t_content (buildScannedTemplate rawText)
  = join [nl]
      ([ js "SCANNED JOURNAL"; []; js "Summary:";
         match linesOf segments with
         | [] => js "No clear summary detected from the image."
         | lines => join (js " ") (firstn 2 lines)
         end;
         []; js "Highlights:" ]
       ++ match linesOf segments with
          | [] => [js "- No highlights detected."]
          | lines => map (fun line => js "- " ++ line) (firstn 5 lines)
          end
       ++ [ []; js "Extracted Text:";
            match join [nl] segments with
            | [] => js "No readable text found in this image."
            | cleaned => cleaned
            end ]).
Proof.
  intros Hclean Hfree.
  destruct (Scan.buildScannedTemplate_parts rawText) as [Htitle Hcontent].
  rewrite Htitle, Hcontent, Hclean, (templateLines_segments segments Hfree).
  split; reflexivity.
Qed.

Lemma buildScannedTemplate_from_segments_witness :
  t_title (buildScannedTemplate Samples.lakeText) = js "Trip to the lake".
Proof.
  refine (proj1 (@buildScannedTemplate_from_segments Samples.lakeText lakeSegments _ _)).
  - vm_compute. reflexivity.
  - intros segment Hin Hnl.
    repeat (destruct Hin as [<- | Hin];
            [ vm_compute in Hnl;
              repeat (destruct Hnl as [Hnl | Hnl]; [ discriminate Hnl | ]); exact Hnl | ]).
    exact Hin.
Defined.

End TemplateMore.
